(** * Table extraction, signal rules and altseason classification

    A shallow embedding of the Python sources
      - [parser_investing_generic.py]  (value normalizer, table locator,
        row extractor, fetch pipeline, [_fmt_val]),
      - [indicators.py]                (rule functions, catalog merge),
      - [bot.py]                       ([_signal_from_rows]),
      - [parser_altseason.py]          (index heuristic, classification,
        stats table),
    followed by the properties established about them.

    Conventions of the embedding:
      - a Python [str] is a list of Unicode code points ([list N]);
        literals are written as UTF-8 Rocq strings and decoded by [u];
      - a Python [float] is a binary64 primitive float;
      - [None] is [None]; an exception that the source catches is a
        [None], [inl] or [Raised] result at the place where it is caught;
        one that leaves a function is a [Raise] value of its result type
        [exc];
      - a [dict] that is built at run time is a [gmap str _]; a literal
        table that is only read is an association list in source order;
      - the [re] module is a backtracking matcher with Python's priority
        order (leftmost start, first alternative, greedy repetition). *)

From Stdlib Require Import ZArith NArith List Bool Lia String Ascii.
From Stdlib Require Import Floats.
From stdpp Require Import base option list gmap.
Import ListNotations.

Set Warnings "-inexact-float".
Local Open Scope Z_scope.

(* ===================================================================== *)
(** ** Python strings                                                     *)
(* ===================================================================== *)

Module Py.

(** A [str]: the sequence of its code points. *)
Definition str : Type := list N.

(** Decoding of a UTF-8 byte sequence (well-formed input assumed; used for
    literals only). *)
Fixpoint utf8_decode (bs : list N) : str :=
  match bs with
  | [] => []
  | b0 :: t0 =>
    if (b0 <? 128)%N then b0 :: utf8_decode t0
    else match t0 with
    | [] => [b0]
    | b1 :: t1 =>
      if (b0 <? 224)%N then ((b0 - 192) * 64 + (b1 - 128))%N :: utf8_decode t1
      else match t1 with
      | [] => [b0]
      | b2 :: t2 =>
        if (b0 <? 240)%N
        then ((b0 - 224) * 4096 + (b1 - 128) * 64 + (b2 - 128))%N :: utf8_decode t2
        else match t2 with
        | [] => [b0]
        | b3 :: t3 =>
          ((b0 - 240) * 262144 + (b1 - 128) * 4096 + (b2 - 128) * 64 + (b3 - 128))%N
            :: utf8_decode t3
        end
      end
    end
  end.

Fixpoint bytes_of_string (s : string) : list N :=
  match s with
  | EmptyString => []
  | String a s' => N_of_ascii a :: bytes_of_string s'
  end.

(** [u "text"] is the Python literal ["text"]. *)
Definition u (s : string) : str := utf8_decode (bytes_of_string s).

Definition str_eqb (a b : str) : bool := bool_decide (a = b).

(** Code points used by name. *)
Definition SP : N := 32.
Definition NBSP : N := 160.
Definition NNBSP : N := 8239.

(** [c.isspace()]: the code points Python 3 treats as whitespace, which
    are also the ones [\s] matches in a [str] pattern. *)
Definition isspace (c : N) : bool :=
  ((9 <=? c) && (c <=? 13) || (28 <=? c) && (c <=? 32) || (c =? 133) || (c =? 160)
   || (c =? 5760) || (8192 <=? c) && (c <=? 8202) || (c =? 8232) || (c =? 8233)
   || (c =? 8239) || (c =? 8287) || (c =? 12288))%N.

(** The zero digit of every block of decimal digits (category Nd); each
    block holds the ten digits 0..9 in order. *)
Definition digit_zeros : list N :=
  [ 0x30; 0x660; 0x6f0; 0x7c0; 0x966; 0x9e6; 0xa66; 0xae6; 0xb66; 0xbe6;
    0xc66; 0xce6; 0xd66; 0xde6; 0xe50; 0xed0; 0xf20; 0x1040; 0x1090; 0x17e0;
    0x1810; 0x1946; 0x19d0; 0x1a80; 0x1a90; 0x1b50; 0x1bb0; 0x1c40; 0x1c50;
    0xa620; 0xa8d0; 0xa900; 0xa9d0; 0xa9f0; 0xaa50; 0xabf0; 0xff10; 0x104a0;
    0x10d30; 0x11066; 0x110f0; 0x11136; 0x111d0; 0x112f0; 0x11450; 0x114d0;
    0x11650; 0x116c0; 0x11730; 0x118e0; 0x11950; 0x11c50; 0x11d50; 0x11da0;
    0x16a60; 0x16ac0; 0x16b50; 0x1d7ce; 0x1d7d8; 0x1d7e2; 0x1d7ec; 0x1d7f6;
    0x1e140; 0x1e2f0; 0x1e950; 0x1fbf0 ]%N.

(** The decimal value of a digit character, [None] for any other one. *)
Fixpoint digit_val_in (zs : list N) (c : N) : option Z :=
  match zs with
  | [] => None
  | z :: zs' =>
    if ((z <=? c) && (c <=? z + 9))%N then Some (Z.of_N (c - z))
    else digit_val_in zs' c
  end.

Definition digit_val (c : N) : option Z := digit_val_in digit_zeros c.

(** [\d] *)
Definition isdigit (c : N) : bool :=
  match digit_val c with Some _ => true | None => false end.

(** Case mapping of one code point. The tables cover ASCII and the basic
    Cyrillic block (the two alphabets of the keyword tables of the
    sources); every other code point is left as it is. *)
Definition lower_cp (c : N) : N :=
  (if (65 <=? c) && (c <=? 90) then c + 32
   else if (0x410 <=? c) && (c <=? 0x42F) then c + 32
   else if (0x400 <=? c) && (c <=? 0x40F) then c + 80
   else c)%N.

Definition upper_cp (c : N) : N :=
  (if (97 <=? c) && (c <=? 122) then c - 32
   else if (0x430 <=? c) && (c <=? 0x44F) then c - 32
   else if (0x450 <=? c) && (c <=? 0x45F) then c - 80
   else c)%N.

Definition lower (s : str) : str := map lower_cp s.
Definition upper (s : str) : str := map upper_cp s.

(** [s.lstrip(chars)], [s.rstrip(chars)], [s.strip(chars)] with the set of
    characters given as a predicate; [strip] is [s.strip()]. *)
Fixpoint lstrip_by (p : N -> bool) (s : str) : str :=
  match s with
  | c :: s' => if p c then lstrip_by p s' else s
  | [] => []
  end.

Definition rstrip_by (p : N -> bool) (s : str) : str :=
  rev (lstrip_by p (rev s)).

Definition strip_by (p : N -> bool) (s : str) : str :=
  rstrip_by p (lstrip_by p s).

Definition strip (s : str) : str := strip_by isspace s.

Definition mem_cp (cs : str) (c : N) : bool := existsb (N.eqb c) cs.

(** [s.startswith(p)] *)
Fixpoint startswith (s p : str) : bool :=
  match p, s with
  | [], _ => true
  | _ :: _, [] => false
  | a :: p', b :: s' => (a =? b)%N && startswith s' p'
  end.

Definition endswith (s p : str) : bool := startswith (rev s) (rev p).

(** [sub in s] *)
Fixpoint contains (sub s : str) : bool :=
  startswith s sub ||
  match s with
  | [] => false
  | _ :: s' => contains sub s'
  end.

(** [s.replace(old, new)] for a non-empty [old]: occurrences are replaced
    from left to right without overlap. *)
Fixpoint replace_fuel (fuel : nat) (old new s : str) : str :=
  match fuel with
  | O => s
  | S fuel' =>
    match s with
    | [] => []
    | c :: s' =>
      if startswith s old
      then new ++ replace_fuel fuel' old new (drop (length old) s)
      else c :: replace_fuel fuel' old new s'
    end
  end.

Definition replace (old new s : str) : str :=
  replace_fuel (length s) old new s.

(** [sep.join(xs)] *)
Fixpoint join (sep : str) (xs : list str) : str :=
  match xs with
  | [] => []
  | [x] => x
  | x :: xs' => x ++ sep ++ join sep xs'
  end.

(** [s[:n]] and [l[:n]] for an [int] n, negative ones counting from the
    end. *)
Definition slice_to {A} (l : list A) (n : Z) : list A :=
  if n <? 0 then take (Z.to_nat (Z.of_nat (length l) + n)) l
  else take (Z.to_nat n) l.

(** [l[i]] for an [int] i: negative indices count from the end, and an
    index out of range raises IndexError ([None]). *)
Definition index {A} (l : list A) (i : Z) : option A :=
  if i <? 0 then
    (if Z.of_nat (length l) + i <? 0 then None
     else l !! Z.to_nat (Z.of_nat (length l) + i))
  else l !! Z.to_nat i.

(** [str(n)] for an [int]. *)
Fixpoint digits_fuel (fuel : nat) (n : Z) (acc : str) : str :=
  match fuel with
  | O => acc
  | S fuel' =>
    let acc' := Z.to_N (48 + n mod 10) :: acc in
    if n <? 10 then acc' else digits_fuel fuel' (n / 10) acc'
  end.

Definition str_of_nonneg (n : Z) : str :=
  digits_fuel (S (Z.to_nat (Z.log2 n))) n [].

Definition str_of_int (n : Z) : str :=
  if n <? 0 then 45%N :: str_of_nonneg (- n) else str_of_nonneg n.

(** [int(s)] for a string of digits with an optional sign, surrounding
    whitespace allowed; [None] is ValueError. Underscore grouping, which
    [int] also accepts, is not modelled. *)
Fixpoint digits_val (s : str) (acc : Z) : option Z :=
  match s with
  | [] => Some acc
  | c :: s' =>
    match digit_val c with
    | Some d => digits_val s' (10 * acc + d)
    | None => None
    end
  end.

Definition int_of_str (s : str) : option Z :=
  match strip s with
  | [] => None
  | c :: t =>
    if (c =? 45)%N then
      match t with [] => None | _ => Z.opp <$> digits_val t 0 end
    else if (c =? 43)%N then
      match t with [] => None | _ => digits_val t 0 end
    else digits_val (c :: t) 0
  end.

(** Lexicographic order of [str] by code point, and [sorted]. *)
Fixpoint str_ltb (a b : str) : bool :=
  match a, b with
  | [], [] => false
  | [], _ :: _ => true
  | _ :: _, [] => false
  | x :: a', y :: b' =>
    if (x <? y)%N then true else if (y <? x)%N then false else str_ltb a' b'
  end.

Fixpoint insert_sorted (x : str) (l : list str) : list str :=
  match l with
  | [] => [x]
  | y :: l' => if str_ltb y x then y :: insert_sorted x l' else x :: l
  end.

Definition sorted (l : list str) : list str :=
  foldr insert_sorted [] l.

Definition NL : str := [10%N].

(** The result of a call that may raise: [Raise e] is an exception whose
    message is [e]. *)
Inductive exc (A : Type) : Type :=
| Return (a : A)
| Raise (e : str).
Arguments Return {A} a.
Arguments Raise {A} e.

(** [x or d] for an [x] that is a [str] or [None]. *)
Definition or_else (x : option str) (d : str) : str :=
  match x with
  | Some ((_ :: _) as s) => s
  | _ => d
  end.

(** [html.escape(s)] (with [quote=True]). *)
Definition escape_cp (c : N) : str :=
  (if c =? 38 then u "&amp;"
   else if c =? 60 then u "&lt;"
   else if c =? 62 then u "&gt;"
   else if c =? 34 then u "&quot;"
   else if c =? 39 then u "&#x27;"
   else [c])%N.

Definition html_escape (s : str) : str := flat_map escape_cp s.

End Py.

(* ===================================================================== *)
(** ** Regular expressions ([re])                                         *)
(* ===================================================================== *)

Module Re.
Import Py.

(** The fragment of pattern syntax the sources use. [Rep lo hi r] is the
    greedy [r{lo,hi}] ([hi = None]: unbounded), [Grp i r] the i-th
    capturing group, [Bol] is [^], [Eol] is [$] (the end of the subject, or
    just before a newline that ends it), [NotBehind p] and [NotAhead p] are the
    one-character negative look-behind and look-ahead. *)
Inductive regex : Type :=
| Eps
| Cls (p : N -> bool)
| Cat (r1 r2 : regex)
| Alt (r1 r2 : regex)
| Rep (lo : nat) (hi : option nat) (r : regex)
| Grp (i : nat) (r : regex)
| Bol
| Eol
| NotBehind (p : N -> bool)
| NotAhead (p : N -> bool).

(** A position in the subject: its index, the character before it and the
    text from it on. *)
Record cursor := Cursor { pos : nat; prev : option N; rest : str }.

(** Spans [(start, end)] of the groups that took part in the match. *)
Definition caps : Type := list (nat * (nat * nat)).

Definition below (hi : option nat) (n : nat) : bool :=
  match hi with
  | None => true
  | Some h => (n <? h)%nat
  end.

(** Backtracking matcher in continuation-passing style: [exec r c g k]
    matches [r] at [c] and hands the end position to [k]; when [k] fails
    the next way of matching [r] is tried, in the priority order of [re]:
    the left alternative first, one more iteration of a repetition before
    leaving it. An iteration that consumes nothing ends the repetition. *)
Fixpoint exec (r : regex) (c : cursor) (g : caps)
    (k : cursor -> caps -> option (cursor * caps)) : option (cursor * caps) :=
  match r with
  | Eps => k c g
  | Cls p =>
    match rest c with
    | x :: t => if p x then k (Cursor (S (pos c)) (Some x) t) g else None
    | [] => None
    end
  | Cat r1 r2 => exec r1 c g (fun c' g' => exec r2 c' g' k)
  | Alt r1 r2 =>
    match exec r1 c g k with
    | Some m => Some m
    | None => exec r2 c g k
    end
  | Rep lo hi r1 =>
    (fix loop (fuel n : nat) (c : cursor) (g : caps) : option (cursor * caps) :=
       let leave := if (lo <=? n)%nat then k c g else None in
       match fuel with
       | O => leave
       | S fuel' =>
         if below hi n then
           match exec r1 c g (fun c' g' =>
                   if (pos c' =? pos c)%nat then None
                   else loop fuel' (S n) c' g') with
           | Some m => Some m
           | None => leave
           end
         else leave
       end) (S (length (rest c))) O c g
  | Grp i r1 => exec r1 c g (fun c' g' => k c' ((i, (pos c, pos c')) :: g'))
  | Bol => if (pos c =? 0)%nat then k c g else None
  | Eol =>
    match rest c with
    | [] => k c g
    | [x] => if (x =? 10)%N then k c g else None
    | _ => None
    end
  | NotBehind p =>
    match prev c with
    | Some x => if p x then None else k c g
    | None => k c g
    end
  | NotAhead p =>
    match rest c with
    | x :: _ => if p x then None else k c g
    | [] => k c g
    end
  end.

(** A match object: its span and its groups. *)
Record rmatch := RMatch { m_start : nat; m_end : nat; m_caps : caps; m_after : cursor }.

Definition match_at (r : regex) (c : cursor) : option rmatch :=
  match exec r c [] (fun c' g' => Some (c', g')) with
  | Some (c', g') => Some (RMatch (pos c) (pos c') g' c')
  | None => None
  end.

(** The leftmost match at or after a cursor. *)
Fixpoint search_from (r : regex) (p : nat) (pv : option N) (s : str) : option rmatch :=
  match match_at r (Cursor p pv s) with
  | Some m => Some m
  | None =>
    match s with
    | [] => None
    | x :: s' => search_from r (S p) (Some x) s'
    end
  end.

Definition start_of (s : str) : cursor := Cursor O None s.

(** [re.search(r, s)] and [re.match(r, s)]. *)
Definition search (r : regex) (s : str) : option rmatch :=
  search_from r O None s.

Definition match_ (r : regex) (s : str) : option rmatch :=
  match_at r (start_of s).

(** [re.finditer(r, s)]: successive leftmost matches, each search
    resuming where the previous match ended (one character further after
    an empty match). *)
Fixpoint finditer_from (fuel : nat) (r : regex) (c : cursor) : list rmatch :=
  match fuel with
  | O => []
  | S fuel' =>
    match search_from r (pos c) (prev c) (rest c) with
    | None => []
    | Some m =>
      let c' := m_after m in
      if (m_end m =? m_start m)%nat then
        match rest c' with
        | [] => [m]
        | x :: t => m :: finditer_from fuel' r (Cursor (S (pos c')) (Some x) t)
        end
      else m :: finditer_from fuel' r c'
    end
  end.

Definition finditer (r : regex) (s : str) : list rmatch :=
  finditer_from (S (length s)) r (start_of s).

(** [s[a:b]] for [0 <= a <= b]. *)
Definition span (s : str) (a b : nat) : str := take (b - a) (drop a s).

(** [m.group(0)] and [m.group(i)] ([None] when the group took no part). *)
Definition group0 (s : str) (m : rmatch) : str := span s (m_start m) (m_end m).

Fixpoint lookup_cap (i : nat) (g : caps) : option (nat * nat) :=
  match g with
  | [] => None
  | (j, sp) :: g' => if (i =? j)%nat then Some sp else lookup_cap i g'
  end.

Definition group (s : str) (m : rmatch) (i : nat) : option str :=
  match lookup_cap i (m_caps m) with
  | Some (a, b) => Some (span s a b)
  | None => None
  end.

(** [re.findall(r, s)] for a pattern without groups. *)
Definition findall (r : regex) (s : str) : list str :=
  map (group0 s) (finditer r s).

(** [re.sub(r, repl, s)] for a replacement without group references. *)
Fixpoint sub_from (ms : list rmatch) (repl : str) (s : str) (at_ : nat) : str :=
  match ms with
  | [] => drop at_ s
  | m :: ms' => span s at_ (m_start m) ++ repl ++ sub_from ms' repl s (m_end m)
  end.

Definition sub (r : regex) (repl : str) (s : str) : str :=
  sub_from (finditer r s) repl s O.

(** Pattern builders. *)
Definition chr (c : N) : regex := Cls (N.eqb c).

(** A character under [re.I], for a pattern character of ASCII or of the
    Cyrillic block up to U+045F: the subject character is lowered as the
    matcher lowers it (the capital I with dot and the Kelvin sign go to
    [i] and [k]) and compared with the lowered pattern character and with
    the characters the matcher holds equivalent to it (dotless i, long s
    and the variant forms of six Cyrillic letters). *)
Definition sre_lower (x : N) : N :=
  (if x =? 0x130 then 0x69 else if x =? 0x212A then 0x6B else lower_cp x)%N.

Definition ignorecase_fixes : list (list N) :=
  [ [0x69; 0x131]; [0x73; 0x17F]; [0x432; 0x1C80]; [0x434; 0x1C81]; [0x43E; 0x1C82];
    [0x441; 0x1C83]; [0x442; 0x1C84; 0x1C85]; [0x44A; 0x1C86] ]%N.

Definition chr_i (c : N) : regex :=
  Cls (fun x =>
         let lo := lower_cp c in
         let lx := sre_lower x in
         (lx =? lo)%N
         || existsb (fun cls => mem_cp cls lo && mem_cp cls lx) ignorecase_fixes).

Definition one_of (cs : str) : regex := Cls (mem_cp cs).

Fixpoint cat_all (rs : list regex) : regex :=
  match rs with
  | [] => Eps
  | [r] => r
  | r :: rs' => Cat r (cat_all rs')
  end.

(** A literal, and a literal under [re.I]. *)
Definition lit (s : str) : regex := cat_all (map chr s).
Definition lit_i (s : str) : regex := cat_all (map chr_i s).

Definition opt (r : regex) : regex := Rep 0 (Some 1%nat) r.
Definition star (r : regex) : regex := Rep 0 None r.
Definition plus (r : regex) : regex := Rep 1 None r.
Definition digit : regex := Cls isdigit.
Definition space : regex := Cls isspace.

End Re.

(* ===================================================================== *)
(** ** Python floats                                                      *)
(* ===================================================================== *)

Module PyFloat.
Import Py.

(** The binary64 value nearest to [n / d] (ties to even), for [0 <= n]
    and [0 < d]: the quotient is computed to at least 55 significant bits
    with a sticky bit below them, and rounded once. *)
Definition float_of_ratio (neg : bool) (n d : Z) : float :=
  if n =? 0 then (if neg then neg_zero else zero)
  else
    let s := Z.max 0 (56 + Z.log2 d - Z.log2 n) in
    let q := (n * 2 ^ s) / d in
    let sticky := if (n * 2 ^ s) mod d =? 0 then 0 else 1 in
    SF2Prim (binary_normalize prec emax
               (if neg then - (2 * q + sticky) else 2 * q + sticky) (- s - 1) neg).

(** Digits up to the first character that is not one. *)
Fixpoint take_digits (s : str) (acc : Z) (cnt : nat) : Z * nat * str :=
  match s with
  | [] => (acc, cnt, [])
  | c :: s' =>
    match digit_val c with
    | Some d => take_digits s' (10 * acc + d) (S cnt)
    | None => (acc, cnt, s)
    end
  end.

(** [float(s)] for a [str]: surrounding whitespace, a sign, digits, and a
    fraction after a point; [None] is ValueError. Only the plain decimal
    notation is modelled (this is all a number cut out by [RE_NUM] can
    be): exponents, underscores, [inf] and [nan] are left out. *)
Definition float_of_unsigned (neg : bool) (s : str) : option float :=
  let '(ip, icnt, r1) := take_digits s 0 O in
  match r1 with
  | [] => if (icnt =? 0)%nat then None else Some (float_of_ratio neg ip 1)
  | c :: r2 =>
    if (c =? 46)%N then
      let '(n, fcnt, r3) := take_digits r2 ip O in
      match r3 with
      | [] =>
        if ((icnt =? 0) && (fcnt =? 0))%nat then None
        else Some (float_of_ratio neg n (10 ^ Z.of_nat fcnt))
      | _ :: _ => None
      end
    else None
  end.

Definition float_of_str (s : str) : option float :=
  match strip s with
  | [] => None
  | c :: t =>
    if (c =? 45)%N then float_of_unsigned true t
    else if (c =? 43)%N then float_of_unsigned false t
    else float_of_unsigned false (c :: t)
  end.

(** Nearest integer to [n / d], ties to even ([0 <= n], [0 < d]). *)
Definition div_half_even (n d : Z) : Z :=
  let q := n / d in
  let r := n mod d in
  match 2 * r ?= d with
  | Lt => q
  | Gt => q + 1
  | Eq => if Z.even q then q else q + 1
  end.

(** The number of hundredths nearest to [m * 2^e]. *)
Definition hundredths (m e : Z) : Z :=
  if 0 <=? e then m * 2 ^ e * 100
  else div_half_even (m * 100) (2 ^ (- e)).

Definition two_digits (n : Z) : str :=
  [Z.to_N (48 + n / 10); Z.to_N (48 + n mod 10)].

Definition fixed2 (neg : bool) (h : Z) : str :=
  (if neg then u "-" else []) ++ str_of_int (h / 100) ++ u "." ++ two_digits (h mod 100).

(** [f"{x:.2f}"]: the exact binary value rounded to two decimals, ties to
    even. *)
Definition format_2f (x : float) : str :=
  match Prim2SF x with
  | S754_nan => u "nan"
  | S754_infinity s => if s then u "-inf" else u "inf"
  | S754_zero s => fixed2 s 0
  | S754_finite s m e => fixed2 s (hundredths (Z.pos m) e)
  end.

(** Comparisons of floats as Python evaluates them. *)
Definition flt (a b : float) : bool := PrimFloat.ltb a b.
Definition fgt (a b : float) : bool := PrimFloat.ltb b a.
Definition fge (a b : float) : bool := PrimFloat.leb b a.
Definition feq (a b : float) : bool := PrimFloat.eqb a b.

End PyFloat.

(* ===================================================================== *)
(** ** parser_investing_generic.py                                       *)
(* ===================================================================== *)

Module Generic.
Import Py Re PyFloat.

(** *** Units and numbers *)

Definition _UNIT_TOKENS : list (str * (str * float)) :=
  [ (u "%", (u "percent", 1%float));
    (u "percent", (u "percent", 1%float));
    (u "проц", (u "percent", 1%float));
    (u "k", (u "thousand", 1000%float));
    (u "thousand", (u "thousand", 1000%float));
    (u "ths", (u "thousand", 1000%float));
    (u "тыс", (u "thousand", 1000%float));
    (u "тыс.", (u "thousand", 1000%float));
    (u "m", (u "million", 1000000%float));
    (u "mln", (u "million", 1000000%float));
    (u "million", (u "million", 1000000%float));
    (u "млн", (u "million", 1000000%float));
    (u "млн.", (u "million", 1000000%float));
    (u "mio", (u "million", 1000000%float));
    (u "mio.", (u "million", 1000000%float));
    (u "b", (u "billion", 1000000000%float));
    (u "bn", (u "billion", 1000000000%float));
    (u "bln", (u "billion", 1000000000%float));
    (u "billion", (u "billion", 1000000000%float));
    (u "млрд", (u "billion", 1000000000%float));
    (u "млрд.", (u "billion", 1000000000%float));
    (u "t", (u "trillion", 1000000000000%float));
    (u "trn", (u "trillion", 1000000000000%float));
    (u "trillion", (u "trillion", 1000000000000%float)) ].

(** [_UNIT_TOKENS.get(t)] / [t in _UNIT_TOKENS] *)
Fixpoint unit_lookup_in (tbl : list (str * (str * float))) (t : str) : option (str * float) :=
  match tbl with
  | [] => None
  | (k, v) :: tbl' => if str_eqb k t then Some v else unit_lookup_in tbl' t
  end.

Definition unit_lookup (t : str) : option (str * float) :=
  unit_lookup_in _UNIT_TOKENS t.

Definition _NOISE_TOKENS : list str :=
  [ u "bbl"; u "barrel"; u "barrels"; u "jobs"; u "claims"; u "inventories";
    u "units"; u "mom"; u "qoq"; u "yoy"; u "mtm"; u "m/m"; u "y/y"; u "q/q" ].

Definition _HEAD_ACTUAL_KEYS : list str := [u "actual"; u "факт"; u "фактич"].
Definition _HEAD_FORECAST_KEYS : list str :=
  [ u "forecast"; u "прогноз"; u "estimate"; u "consensus"; u "est."; u "exp.";
    u "expectation" ].
Definition _HEAD_PREV_KEYS : list str :=
  [u "previous"; u "prior"; u "пред."; u "пред"; u "предыдущ"].

(** [RE_NUM_CORE = [+\-−]?\s*\d{1,3}(?:[ \u00A0\u202F]?\d{3})*(?:[.,]\d+)?] *)
Definition RE_NUM_CORE : regex :=
  cat_all
    [ opt (one_of (u "+-−"));
      star space;
      Rep 1 (Some 3%nat) digit;
      star (Cat (opt (one_of [SP; NBSP; NNBSP])) (Rep 3 (Some 3%nat) digit));
      opt (Cat (one_of (u ".,")) (plus digit)) ].

(** [RE_NUM = \(?\s*(RE_NUM_CORE)\s*\)?] *)
Definition RE_NUM : regex :=
  cat_all [ opt (chr 40); star space; Grp 1 RE_NUM_CORE; star space; opt (chr 41) ].

(** [.] (any character but a newline) and [[^\s]]. *)
Definition any_char : regex := Cls (fun c => negb (c =? 10)%N).
Definition non_space : regex := Cls (fun c => negb (isspace c)).

(** [RE_REVISED]: under [re.I], the words [revised from] or
    [пересмотрено с] (separated by [\s+]), then [\s+], then group 1: one
    character that is not whitespace followed by the rest of the line. *)
Definition RE_REVISED : regex :=
  cat_all
    [ Alt (cat_all [lit_i (u "revised"); plus space; lit_i (u "from")])
          (cat_all [lit_i (u "пересмотрено"); plus space; lit_i (u "с")]);
      plus space;
      Grp 1 (Cat non_space (star any_char)) ].

Definition _normalize_spaces (s : str) : str :=
  strip (replace [NNBSP] [SP] (replace [NBSP] [SP] s)).

Definition _to_float (num_str : str) (paren_neg : bool) : option float :=
  match num_str with
  | [] => None
  | _ =>
    let t := replace (u " ") [] (replace (u "−") (u "-") (strip num_str)) in
    let t :=
      if contains (u ",") t && contains (u ".") t then replace (u ",") [] t
      else if contains (u ",") t && negb (contains (u ".") t)
           then replace (u ",") (u ".") t
      else t in
    match float_of_str t with
    | Some val => Some (if paren_neg then PrimFloat.opp (PrimFloat.abs val) else val)
    | None => None
    end
  end.

(** [[a-zа-я.%]] *)
Definition unit_char (c : N) : bool :=
  ((97 <=? c) && (c <=? 122) || (0x430 <=? c) && (c <=? 0x44F)
   || (c =? 46) || (c =? 37))%N.

Definition is_dot (c : N) : bool := (c =? 46)%N.

(** The token loop of [_extract_unit_token]: the first token that is a
    key of [_UNIT_TOKENS] once its dots are stripped. *)
Fixpoint first_unit_token (tokens : list str) : option str :=
  match tokens with
  | [] => None
  | tok :: tokens' =>
    let t := lower (strip_by is_dot tok) in
    match unit_lookup t with
    | Some _ => Some t
    | None =>
      if existsb (str_eqb t) _NOISE_TOKENS then first_unit_token tokens'
      else first_unit_token tokens'
    end
  end.

Definition _extract_unit_token (text_lower : str) : option str :=
  if contains (u "%") text_lower then Some (u "%")
  else
    match first_unit_token (findall (plus (Cls unit_char)) text_lower) with
    | Some t => Some t
    | None =>
      match search RE_NUM text_lower with
      | None => None
      | Some m =>
        let tail := strip_by (mem_cp (u "()[]{}:;")) (strip (drop (m_end m) text_lower)) in
        match match_ (Cat Bol (Rep 1 (Some 7%nat) (Cls unit_char))) tail with
        | None => None
        | Some suf =>
          let t := lower (strip_by is_dot (group0 tail suf)) in
          match unit_lookup t with
          | Some _ => Some t
          | None => None
          end
        end
      end
    end.

Definition no_data_tokens : list str :=
  [ u "—"; u "-"; u "•"; []; u "n/a"; u "na"; u "—/—"; u "waiting"; u "pending" ].

(** [_to_scalar(txt)]: the value and its unit. *)
Definition _to_scalar (txt : str) : option float * option str :=
  match txt with
  | [] => (None, None)
  | _ =>
    let raw := _normalize_spaces txt in
    if existsb (str_eqb (lower raw)) no_data_tokens then (None, None)
    else
      match search RE_NUM raw with
      | None => (None, None)
      | Some m =>
        let paren_neg := startswith (strip raw) (u "(") && endswith (strip raw) (u ")") in
        match _to_float (default [] (group raw m 1)) paren_neg with
        | None => (None, None)
        | Some num =>
          match _extract_unit_token (lower raw) with
          | Some unit_token =>
            match unit_lookup unit_token with
            | Some (norm_name, mul) => (Some (PrimFloat.mul num mul), Some norm_name)
            | None => (Some num, None)
            end
          | None => (Some num, None)
          end
        end
      end
  end.

Definition _parse_revised (text : str) : option float * option str :=
  match text with
  | [] => (None, None)
  | _ =>
    match search RE_REVISED text with
    | None => (None, None)
    | Some m => _to_scalar (strip (default [] (group text m 1)))
    end
  end.

Definition _clean (s : str) : str :=
  replace (u "  ") (u " ") (_normalize_spaces s).

(** [_idx_for(heads, keys, default)] *)
Fixpoint idx_from (i : Z) (heads : list str) (keys : list str) (default : Z) : Z :=
  match heads with
  | [] => default
  | h :: heads' =>
    if existsb (fun k => contains k h) keys then i
    else idx_from (i + 1) heads' keys default
  end.

Definition _idx_for (heads : list str) (keys : list str) (default : Z) : Z :=
  idx_from 0 heads keys default.

(** *** Formatting *)

(** [s.rstrip("0").rstrip(".")] *)
Definition trim_zeros (s : str) : str :=
  rstrip_by (N.eqb 46) (rstrip_by (N.eqb 48) s).

Definition _fmt_val (v : option float) (unit : option str) : str :=
  match v with
  | None => u "ожид"
  | Some v =>
    if bool_decide (unit = Some (u "percent")) then trim_zeros (format_2f v) ++ u "%"
    else
      let absv := PrimFloat.abs v in
      if fge absv 1000000000000 then
        trim_zeros (format_2f (PrimFloat.div v 1000000000000)) ++ u "T"
      else if fge absv 1000000000 then
        trim_zeros (format_2f (PrimFloat.div v 1000000000)) ++ u "B"
      else if fge absv 1000000 then
        trim_zeros (format_2f (PrimFloat.div v 1000000)) ++ u "M"
      else if fge absv 1000 then
        trim_zeros (format_2f (PrimFloat.div v 1000)) ++ u "K"
      else trim_zeros (format_2f v)
  end.

(** *** Table detection and diagnostics *)

(** What the selectors see of a [<table>]: the texts of its [thead th]
    cells and, for each of its [tbody tr] rows, the texts of the row's
    [td] cells (each text as [get_text(" ", strip=True)] gives it). *)
Record table := Table { thead_th : list str; tbody_tr : list (list str) }.

(** A parsed document: [soup.select("table")], in document order. *)
Definition soup : Type := list table.

(** A table element: its position in document order and its content. *)
Definition Tag : Type := nat * table.

Definition _score_heads (heads : list str) : Z :=
  let line := join (u " ") heads in
  (if existsb (fun k => contains k line) _HEAD_ACTUAL_KEYS then 5 else 0)
  + (if existsb (fun k => contains k line) _HEAD_FORECAST_KEYS then 5 else 0)
  + (if existsb (fun k => contains k line) _HEAD_PREV_KEYS then 5 else 0).

Record candidate := Candidate { cand_heads : list str; cand_score : Z }.

Inductive fallback := NoFallback | FallbackRows | FallbackLastTable.

Record diag := Diag {
  tables_found : nat;
  note : option str;
  candidates : list candidate;
  picked : option (list str * Z * fallback);
  col_indexing : option (Z * Z * Z)
}.

(** [[th.get_text(" ", strip=True).lower() for th in tb.select("thead th")]] *)
Definition heads_of (tb : table) : list str := map lower (thead_th tb).

(** [_score_heads(heads) if heads else 0] *)
Definition table_score (tb : table) : Z :=
  match heads_of tb with
  | [] => 0
  | heads => _score_heads heads
  end.

(** The scoring loop: [best] is replaced only by a strictly greater
    score. *)
Fixpoint best_loop (i : nat) (tables : list table)
    (best : option Tag * list str * Z) (cands : list candidate)
    : (option Tag * list str * Z) * list candidate :=
  match tables with
  | [] => (best, cands)
  | tb :: tables' =>
    let heads := heads_of tb in
    let sc := table_score tb in
    let cands' := cands ++ [Candidate heads sc] in
    if best.2 <? sc then best_loop (S i) tables' (Some (i, tb), heads, sc) cands'
    else best_loop (S i) tables' best cands'
  end.

(** The row-shape test of the second pass, on one of the first three
    body rows. *)
Definition row_looks_numeric (tr : list str) : bool :=
  let tds := map lower tr in
  (5 <=? length tds)%nat
  && existsb (fun x => contains (u "%") x || bool_decide (is_Some (search digit x))) tds.

Fixpoint rows_loop (i : nat) (tables : list table) : option Tag :=
  match tables with
  | [] => None
  | tb :: tables' =>
    match tbody_tr tb with
    | [] => rows_loop (S i) tables'
    | trs =>
      if existsb row_looks_numeric (take 3 trs) then Some (i, tb)
      else rows_loop (S i) tables'
    end
  end.

(** The two fallbacks: the first table with a numeric-looking row among
    its first three body rows, else [tables[-1]]. *)
Definition pick_fallback (t0 : table) (sp : soup) (cands : list candidate)
    : option Tag * option (list str) * diag :=
  match rows_loop 0 sp with
  | Some (i, tb) =>
    let heads := heads_of tb in
    (Some (i, tb), Some heads,
     Diag (length sp) None cands (Some (heads, 1, FallbackRows)) None)
  | None =>
    let tb := List.last sp t0 in
    let heads := heads_of tb in
    (Some (pred (length sp), tb), Some heads,
     Diag (length sp) None cands (Some (heads, 0, FallbackLastTable)) None)
  end.

Definition _pick_target_table (sp : soup) : option Tag * option (list str) * diag :=
  match sp with
  | [] => (None, None, Diag 0 (Some (u "[TABLE] no <table> found")) [] None None)
  | t0 :: _ =>
    let '(best, cands) := best_loop 0 sp (None, [], -1) [] in
    match best with
    | (Some tb, heads, sc) =>
      if 0 <? sc then
        (Some tb, Some heads,
         Diag (length sp) None cands (Some (heads, sc, NoFallback)) None)
      else pick_fallback t0 sp cands
    | (None, _, _) => pick_fallback t0 sp cands
    end
  end.

(** *** Date and time *)

Definition _MONTHS : list (str * Z) :=
  [ (u "jan", 1); (u "feb", 2); (u "mar", 3); (u "apr", 4); (u "may", 5);
    (u "jun", 6); (u "jul", 7); (u "aug", 8); (u "sep", 9); (u "oct", 10);
    (u "nov", 11); (u "dec", 12);
    (u "янв", 1); (u "фев", 2); (u "мар", 3); (u "апр", 4); (u "май", 5);
    (u "июн", 6); (u "июл", 7); (u "авг", 8); (u "сен", 9); (u "ноя", 11);
    (u "дек", 12) ].

Fixpoint months_get (tbl : list (str * Z)) (k : str) : option Z :=
  match tbl with
  | [] => None
  | (k', v) :: tbl' => if str_eqb k' k then Some v else months_get tbl' k
  end.

Definition date_sep : regex := one_of (u "./-").

(** [^(\d{1,2})[./-](\d{1,2})[./-](\d{2,4})$] *)
Definition RE_DATE_NUM : regex :=
  cat_all [ Bol; Grp 1 (Rep 1 (Some 2%nat) digit); date_sep;
            Grp 2 (Rep 1 (Some 2%nat) digit); date_sep;
            Grp 3 (Rep 2 (Some 4%nat) digit); Eol ].

(** [[A-Za-zА-Яа-я\.]] *)
Definition month_char (c : N) : bool :=
  ((65 <=? c) && (c <=? 90) || (97 <=? c) && (c <=? 122)
   || (0x410 <=? c) && (c <=? 0x44F) || (c =? 46))%N.

(** [^(\d{1,2})\s+([A-Za-zА-Яа-я\.]{3,})\s+(\d{2,4})$] *)
Definition RE_DATE_TXT : regex :=
  cat_all [ Bol; Grp 1 (Rep 1 (Some 2%nat) digit); plus space;
            Grp 2 (Rep 3 None (Cls month_char)); plus space;
            Grp 3 (Rep 2 (Some 4%nat) digit); Eol ].

(** [^(\d{1,2}):(\d{2})$] *)
Definition RE_TIME : regex :=
  cat_all [ Bol; Grp 1 (Rep 1 (Some 2%nat) digit); chr 58;
            Grp 2 (Rep 2 (Some 2%nat) digit); Eol ].

(** [int(m.group(i))] for a group of digits. *)
Definition group_int (s : str) (m : rmatch) (i : nat) : Z :=
  default 0 (group s m i ≫= int_of_str).

Definition year_2000 (y : Z) : Z := if y <? 100 then y + 2000 else y.

Section FetchPipeline.

(** The libraries behind the pipeline:
    - [localize_iso year month day hh mm] is
      [_tz.localize(datetime(year, month, day, hh, mm, 0)).isoformat()],
      [None] when [_tz] is not set or one of the calls raises;
    - [BeautifulSoup html] is the parse of a page, [inl e] when it raises;
    - [cloudscraper url attempt] and [requests url attempt] are what the
      two HTTP clients do when called at a given attempt;
    - [repr_diag] is the text of a diagnostic in an f-string. *)
Inductive outcome :=
| Raised (e : str)
| Response (status_code : Z) (text : str).

Variable localize_iso : Z -> Z -> Z -> Z -> Z -> option str.
Variable BeautifulSoup : str -> str + soup.
Variable cloudscraper : str -> nat -> outcome.
Variable requests : str -> nat -> outcome.
Variable repr_diag : diag -> str.

Definition _to_iso (date_text time_text : str) : option str :=
  match date_text, time_text with
  | [], _ | _, [] => None
  | _, _ =>
    let d := _clean date_text in
    let t := slice_to (_clean time_text) 5 in
    let dmy : option Z * option Z * option Z :=
      match match_ RE_DATE_NUM d with
      | Some m =>
        (Some (group_int d m 1), Some (group_int d m 2),
         Some (year_2000 (group_int d m 3)))
      | None =>
        match match_ RE_DATE_TXT d with
        | Some m =>
          let mon_txt := lower (strip_by is_dot (default [] (group d m 2))) in
          (Some (group_int d m 1), months_get _MONTHS mon_txt,
           Some (year_2000 (group_int d m 3)))
        | None => (None, None, None)
        end
      end in
    match dmy with
    | (Some day, Some month, Some year) =>
      if (day =? 0) || (month =? 0) || (year =? 0) then None
      else
        let '(hh, mm) :=
          match match_ RE_TIME t with
          | Some hm => (group_int t hm 1, group_int t hm 2)
          | None => (0, 0)
          end in
        localize_iso year month day hh mm
    | _ => None
    end
  end.

(** *** HTTP *)

(** [f"try{attempt+1}: {client} -> HTTP {status}"] *)
Definition try_note (attempt : nat) (client : str) (status : Z) : str :=
  u "try" ++ str_of_int (Z.of_nat attempt + 1) ++ u ": " ++ client
    ++ u " -> HTTP " ++ str_of_int status.

(** The part of one attempt that calls [requests], entered with the
    error and notes of the [cloudscraper] part; [inl] is the [return] of
    a successful attempt. *)
Definition requests_part (url : str) (attempt : nat) (notes : list str)
    : (Z * option str * option str * str) + (option str * list str) :=
  match requests url attempt with
  | Response status text =>
    let notes := notes ++ [try_note attempt (u "requests") status] in
    if (status =? 200) && negb (str_eqb text []) then
      inl (status, Some text, None, join (u "; ") notes)
    else inr (Some (u "[NET] requests HTTP " ++ str_of_int status), notes)
  | Raised e =>
    let last_err := u "[NET] requests fail: " ++ e in
    inr (Some last_err, notes ++ [last_err])
  end.

Definition attempt_body (url : str) (attempt : nat) (notes : list str)
    : (Z * option str * option str * str) + (option str * list str) :=
  match cloudscraper url attempt with
  | Response status text =>
    let notes := notes ++ [try_note attempt (u "cloudscraper") status] in
    if (status =? 200) && negb (str_eqb text []) then
      inl (status, Some text, None, join (u "; ") notes)
    else requests_part url attempt notes
  | Raised e =>
    let last_err := u "[NET] cloudscraper fail: " ++ e in
    requests_part url attempt (notes ++ [last_err])
  end.

(** [for attempt in range(3)], from [attempt] on with [n] attempts left. *)
Fixpoint get_loop (url : str) (n attempt : nat) (last_err : option str)
    (notes : list str) : Z * option str * option str * str :=
  match n with
  | O =>
    (0, None, Some (or_else last_err (u "[NET] network error")), join (u "; ") notes)
  | S n' =>
    match attempt_body url attempt notes with
    | inl r => r
    | inr (last_err', notes') => get_loop url n' (S attempt) last_err' notes'
    end
  end.

(** [_get(url)]: [(status_code, text, err, debug_note)]. *)
Definition _get (url : str) : Z * option str * option str * str :=
  get_loop url 3 0 None [].

(** *** Rows *)

Record row := Row {
  date : str;
  time : str;
  actual : str;
  forecast : str;
  previous : str;
  actual_val : option float;
  actual_unit : option str;
  forecast_val : option float;
  forecast_unit : option str;
  previous_val : option float;
  previous_unit : option str;
  revised_from : option (float * option str);
  release_dt_iso : option str
}.

(** [cell(i)]: [vals[i]], or the empty string on IndexError. *)
Definition cell (vals : list str) (i : Z) : str :=
  default [] (index vals i).

(** The body of the row loop for a row that has at least five cells. *)
Definition make_row (vals : list str) (idx_actual idx_forecast idx_previous : Z) : row :=
  let date_text := cell vals 0 in
  let time_text := cell vals 1 in
  let actual_text := cell vals idx_actual in
  let forecast_text := cell vals idx_forecast in
  let previous_text := cell vals idx_previous in
  let '(act_v, act_u) := _to_scalar actual_text in
  let '(fc_v, fc_u) := _to_scalar forecast_text in
  let '(pr_v, pr_u) := _to_scalar previous_text in
  let '(rev_v, rev_u) := _parse_revised actual_text in
  let iso := _to_iso (_clean date_text) (_clean time_text) in
  Row (_clean date_text) (_clean time_text) (_clean actual_text)
      (_clean forecast_text) (_clean previous_text)
      act_v act_u fc_v fc_u pr_v pr_u
      (match rev_v with Some v => Some (v, rev_u) | None => None end)
      (match iso with Some ((_ :: _) as s) => Some s | _ => None end).

(** [for tr in target.select("tbody tr")]: the rows kept and the number
    of rows rejected for having fewer than five cells. *)
Fixpoint rows_of (trs : list (list str)) (ia ifc ip : Z) : list row * Z :=
  match trs with
  | [] => ([], 0)
  | tds :: trs' =>
    let '(rows, bad_rows) := rows_of trs' ia ifc ip in
    if (length tds <? 5)%nat then (rows, bad_rows + 1)
    else (make_row tds ia ifc ip :: rows, bad_rows)
  end.

(** *** Public API *)

Definition fetch_table_rows (url : str) (limit : Z) : list row * option str :=
  let '(code, html, net_err, net_note) := _get url in
  if negb (code =? 200) || str_eqb (or_else html []) [] then
    ([], Some (or_else net_err (u "[NET] HTTP error") ++ u " | note: " ++ net_note))
  else
    match BeautifulSoup (or_else html []) with
    | inl e => ([], Some (u "[HTML] soup fail: " ++ e))
    | inr sp =>
      match _pick_target_table sp with
      | (None, _, dg) => ([], Some (u "[TABLE] not found | diag: " ++ repr_diag dg))
      | (Some (_, target), heads_for_log, dg) =>
        let heads := default [] heads_for_log in
        let idx_actual := _idx_for heads _HEAD_ACTUAL_KEYS (-3) in
        let idx_forecast := _idx_for heads _HEAD_FORECAST_KEYS (-2) in
        let idx_previous := _idx_for heads _HEAD_PREV_KEYS (-1) in
        let dg :=
          Diag (tables_found dg) (note dg) (candidates dg) (picked dg)
               (Some (idx_actual, idx_forecast, idx_previous)) in
        let '(rows, bad_rows) :=
          rows_of (tbody_tr target) idx_actual idx_forecast idx_previous in
        match rows with
        | [] =>
          ([], Some (u "[ROW] no rows parsed | diag: " ++ repr_diag dg
                       ++ u " | bad_rows: " ++ str_of_int bad_rows))
        | _ => (slice_to rows limit, None)
        end
      end
    end.

End FetchPipeline.

End Generic.

(* ===================================================================== *)
(** ** indicators.py                                                      *)
(* ===================================================================== *)

Module Indicators.
Import Py PyFloat Generic.

(** *** Basic rules *)

Definition _rule_long_if_actual_lt_forecast (r : row) : str :=
  match actual_val r, forecast_val r with
  | Some a, Some f => if flt a f then u "LONG" else u "SHORT"
  | _, _ => u "NEUTRAL"
  end.

Definition _rule_long_if_actual_gt_forecast (r : row) : str :=
  match actual_val r, forecast_val r with
  | Some a, Some f => if fgt a f then u "LONG" else u "SHORT"
  | _, _ => u "NEUTRAL"
  end.

Definition _rule_short_if_actual_gt_forecast (r : row) : str :=
  match actual_val r, forecast_val r with
  | Some a, Some f => if fgt a f then u "SHORT" else u "LONG"
  | _, _ => u "NEUTRAL"
  end.

Definition _rule_fomc_rate (r : row) : str :=
  match actual_val r, forecast_val r with
  | Some a, Some f => if flt a f then u "LONG" else u "SHORT"
  | _, _ => u "NEUTRAL"
  end.

(** The value of an indicator's ["rule"] entry: a function, a rule code,
    or [None]. *)
Inductive rule_value :=
| Callable (f : row -> str)
| RuleCode (code : str)
| RuleNone.

Record Indicator := MkIndicator { title : str; url : str; rule : rule_value }.

(** *** Rule codes of custom indicators *)

Definition _RULES : list (str * (row -> str)) :=
  [ (u "LT", _rule_long_if_actual_lt_forecast);
    (u "GT", _rule_long_if_actual_gt_forecast);
    (u "FOMC", _rule_fomc_rate) ].

(** [_RULES.get(code, default)] *)
Fixpoint rules_get (tbl : list (str * (row -> str))) (code : str)
    (default : row -> str) : row -> str :=
  match tbl with
  | [] => default
  | (k, f) :: tbl' => if str_eqb k code then f else rules_get tbl' code default
  end.

(** *** Presets *)

Definition PRESET_LIST : list (str * Indicator) :=
  [ (u "CPI",
     MkIndicator (u "Индекс потребительских цен (CPI / Core CPI)")
       (u "https://www.investing.com/economic-calendar/core-cpi-56")
       (Callable _rule_short_if_actual_gt_forecast));
    (u "PPI",
     MkIndicator (u "Индекс цен производителей (PPI)")
       (u "https://ru.investing.com/economic-calendar/ppi-238")
       (Callable _rule_short_if_actual_gt_forecast));
    (u "CORE_PCE",
     MkIndicator
       (u "Базовый ценовой индекс расходов на личное потребление (Core PCE), м/м")
       (u "https://ru.investing.com/economic-calendar/core-pce-price-index-61")
       (Callable _rule_short_if_actual_gt_forecast));
    (u "NFP",
     MkIndicator (u "Несельскохозяйственная занятость (NFP)")
       (u "https://www.investing.com/economic-calendar/nonfarm-payrolls-227")
       (Callable _rule_short_if_actual_gt_forecast));
    (u "RETAIL_SALES",
     MkIndicator (u "Розничные продажи")
       (u "https://www.investing.com/economic-calendar/retail-sales-256")
       (Callable _rule_short_if_actual_gt_forecast));
    (u "UNEMPLOYMENT",
     MkIndicator (u "Уровень безработицы")
       (u "https://www.investing.com/economic-calendar/unemployment-rate-300")
       (Callable _rule_long_if_actual_gt_forecast));
    (u "JOBLESS_CLAIMS",
     MkIndicator (u "Первичные заявки на пособие по безработице")
       (u "https://www.investing.com/economic-calendar/initial-jobless-claims-294")
       (Callable _rule_long_if_actual_gt_forecast));
    (u "CRUDE_OIL_INV",
     MkIndicator (u "Запасы сырой нефти (EIA)")
       (u "https://www.investing.com/economic-calendar/eia-crude-oil-inventories-75")
       (Callable _rule_long_if_actual_gt_forecast));
    (u "ISM_MANUFACTURING_PMI",
     MkIndicator
       (u "Индекс деловой активности в производственном секторе (ISM Manufacturing PMI)")
       (u "https://ru.investing.com/economic-calendar/ism-manufacturing-pmi-173")
       (Callable _rule_short_if_actual_gt_forecast));
    (u "FOMC_RATE",
     MkIndicator (u "Решение по процентной ставке ФРС США")
       (u "https://ru.investing.com/economic-calendar/interest-rate-decision-168")
       (Callable _rule_fomc_rate)) ].

Definition PRESET_INDICATORS : gmap str Indicator := list_to_map PRESET_LIST.

(** *** Merge of presets and custom indicators *)

(** A record of the custom indicator store, as [list_custom_indicators]
    returns it; the rule column may be NULL. *)
Record custom := Custom {
  ci_key : str; ci_title : str; ci_url : str; ci_rule : option str
}.

(** [get_indicators(chat_id)], given the records
    [list_custom_indicators(chat_id)] returns. *)
Definition get_indicators (customs : list custom) : gmap str Indicator :=
  foldl
    (fun result ci =>
       let rule_func :=
         rules_get _RULES (upper (or_else (ci_rule ci) []))
                   _rule_long_if_actual_lt_forecast in
       <[ ci_key ci := MkIndicator (ci_title ci) (ci_url ci) (Callable rule_func) ]> result)
    PRESET_INDICATORS customs.

End Indicators.

(* ===================================================================== *)
(** ** bot.py                                                             *)
(* ===================================================================== *)

Module Bot.
Import Py PyFloat Generic Indicators.

(** [h(x)] *)
Definition h (x : str) : str := html_escape x.

(** The rule application of [_signal_from_rows]: the value given to
    [sig]. [a], [f] and [p] are the actual, forecast and previous values
    of the top row. The rule functions of [indicators.py] raise nothing,
    so the handler of the surrounding [try] has nothing to catch. *)
Definition rule_sig (rl : rule_value) (top : row) : str :=
  let a := actual_val top in
  let f := forecast_val top in
  let p := previous_val top in
  match rl with
  | Callable fn => fn top
  | RuleCode code =>
    let r := upper code in
    if str_eqb r (u "FOMC") then
      match a, p with
      | Some a, Some p =>
        if fgt a p then u "Повышение ставки"
        else if flt a p then u "Снижение ставки"
        else u "Без изменений"
      | _, _ => u "⏳ Ждём цифры по ставке."
      end
    else if str_eqb r (u "LT") then
      match a, f with
      | Some a, Some f =>
        if flt a f then u "Лучше прогноза (меньше — лучше)"
        else if fgt a f then u "Хуже прогноза (меньше — лучше)"
        else u "На уровне прогноза"
      | _, _ => u "Ждём факт/прогноз"
      end
    else if str_eqb r (u "GT") then
      match a, f with
      | Some a, Some f =>
        if fgt a f then u "Лучше прогноза (больше — лучше)"
        else if flt a f then u "Хуже прогноза (больше — лучше)"
        else u "На уровне прогноза"
      | _, _ => u "Ждём факт/прогноз"
      end
    else u "Правило " ++ r ++ u " не распознано"
  | RuleNone => u "Правило не задано"
  end.

Definition is_fomc_code (rl : rule_value) : bool :=
  match rl with
  | RuleCode code => str_eqb (upper code) (u "FOMC")
  | _ => false
  end.

(** [_signal_from_rows(rows, ind_key, ind_map)]; [None] is the KeyError
    of [ind_map[ind_key]]. *)
Definition _signal_from_rows (rows : list row) (ind_key : str)
    (ind_map : gmap str Indicator) : option str :=
  match ind_map !! ind_key with
  | None => None
  | Some meta =>
    let title := h (Indicators.title meta) in
    match rows with
    | [] => Some (title ++ NL ++ u "Нет данных: таблица пуста.")
    | top :: _ =>
      let a := actual_val top in
      let f := forecast_val top in
      let p := previous_val top in
      let a_str := _fmt_val a (actual_unit top) in
      let f_str := _fmt_val f (forecast_unit top) in
      let p_str := _fmt_val p (previous_unit top) in
      let sig := rule_sig (rule meta) top in
      Some
        (if is_fomc_code (rule meta) then
           match a, p with
           | Some _, Some _ =>
             title ++ NL ++ u "Факт: " ++ a_str ++ u " • Пред.: " ++ p_str ++ u " → " ++ sig
           | _, _ => title ++ NL ++ u "⏳ Ждём цифры по ставке."
           end
         else
           match a, f, p with
           | None, Some _, _ =>
             title ++ NL ++ u "⏳ Данные ещё не вышли. Прогноз: " ++ f_str
           | Some _, None, Some _ =>
             title ++ NL ++ u "⚠️ Факт: " ++ a_str ++ u ", прогноз не распознан. Пред.: " ++ p_str ++ u " → " ++ sig
           | Some _, None, None =>
             title ++ NL ++ u "⚠️ Факт: " ++ a_str ++ u ", прогноз не распознан → " ++ sig
           | _, _, _ =>
             title ++ NL ++ u "Факт: " ++ a_str ++ u " • Прогноз: " ++ f_str ++ u " → " ++ sig
           end)
    end
  end.

End Bot.

(* ===================================================================== *)
(** ** parser_altseason.py                                                *)
(* ===================================================================== *)

Module Altseason.
Import Py Re.

(** *** Index extraction *)

(** [(?<!\d)(\d{1,3})(?!\d)] *)
Definition RE_NUMBER : regex :=
  cat_all [ NotBehind isdigit; Grp 1 (Rep 1 (Some 3%nat) digit); NotAhead isdigit ].

(** The numbers 0..100 of a text with their positions. [int] of a group
    of digits cannot fail, so the [except ValueError] branch is the
    [None] case of [int_of_str]. *)
Fixpoint numbers_of (text : str) (ms : list rmatch) : list (Z * nat) :=
  match ms with
  | [] => []
  | m :: ms' =>
    match group text m 1 ≫= int_of_str with
    | None => numbers_of text ms'
    | Some v =>
      if (0 <=? v) && (v <=? 100) then (v, m_start m) :: numbers_of text ms'
      else numbers_of text ms'
    end
  end.

Definition _find_numbers_0_100 (text : str) : list (Z * nat) :=
  numbers_of text (finditer RE_NUMBER text).

(** [(Altcoin\s+Season\s+Index|Индекс\s+сезона\s+альткоинов)[^\d]{0,40}(\d{1,3})],
    with [re.I]. *)
Definition RE_INDEX : regex :=
  cat_all
    [ Grp 1 (Alt (cat_all [ lit_i (u "Altcoin"); plus space; lit_i (u "Season");
                            plus space; lit_i (u "Index") ])
                 (cat_all [ lit_i (u "Индекс"); plus space; lit_i (u "сезона");
                            plus space; lit_i (u "альткоинов") ]));
      Rep 0 (Some 40%nat) (Cls (fun c => negb (isdigit c)));
      Grp 2 (Rep 1 (Some 3%nat) digit) ].

Definition ANCHOR_KEYWORDS : list str :=
  [ u "Сейчас"; u "текущ"; u "current"; u "Now"; u "Altcoin Season Index";
    u "Индекс сезона альткоинов" ].

(** The start positions of every keyword, keyword by keyword. *)
Definition anchors_of (text : str) : list nat :=
  flat_map (fun kw => map m_start (finditer (lit_i kw) text)) ANCHOR_KEYWORDS.

(** [min(xs, key=key)] for a non-empty list [x :: xs]: the first element
    with the least key. *)
Fixpoint min_by {A} (key : A -> Z) (x : A) (xs : list A) : A :=
  match xs with
  | [] => x
  | y :: ys => if key y <? key x then min_by key y ys else min_by key x ys
  end.

(** [min(abs(npos - a) for a in anchors)] for the anchors [a0 :: anchors]. *)
Definition dist (a0 : nat) (anchors : list nat) (npos : nat) : Z :=
  let d := fun a : nat => Z.abs (Z.of_nat npos - Z.of_nat a) in
  min_by (fun x : Z => x) (d a0) (map d anchors).

Definition is_threshold (v : Z) : bool :=
  (v =? 0) || (v =? 25) || (v =? 75) || (v =? 100).

(** The last two fallbacks: the first number in 30..90 that is neither 25
    nor 75, else the first number of the list. *)
Fixpoint first_reasonable (nums : list (Z * nat)) : option Z :=
  match nums with
  | [] => None
  | (v, _) :: nums' =>
    if (30 <=? v) && (v <=? 90) && negb ((v =? 25) || (v =? 75)) then Some v
    else first_reasonable nums'
  end.

(** [_extract_index_heuristic], on the visible text of the page
    ([soup.get_text("\n", strip=True)]). *)
Definition _extract_index_heuristic (text : str) : exc Z :=
  let direct :=
    match search RE_INDEX text with
    | Some m =>
      match group text m 2 ≫= int_of_str with
      | Some v => if (0 <=? v) && (v <=? 100) then Some v else None
      | None => None
      end
    | None => None
    end in
  match direct with
  | Some v => Return v
  | None =>
    let anchors := anchors_of text in
    match _find_numbers_0_100 text with
    | [] => Raise (u "Не нашли чисел 0–100 на странице")
    | n0 :: nums' =>
      let nums := n0 :: nums' in
      match anchors with
      | a0 :: anchors' =>
        let filtered := filter (fun t : Z * nat => negb (is_threshold t.1)) nums in
        let key := fun t : Z * nat => dist a0 anchors' t.2 in
        match filtered with
        | t0 :: ts => Return (min_by key t0 ts).1
        | [] => Return (min_by key n0 nums').1
        end
      | [] =>
        match first_reasonable nums with
        | Some v => Return v
        | None => Return n0.1
        end
      end
    end
  end.

(** *** Classification *)

Definition classify_altseason (value : Z) : str * str :=
  if value <=? 25 then (u "🔵 Сезон биткоина", u "Преимущество за BTC-парами.")
  else if value >=? 75 then
    (u "🟢 Альтсезон", u "Альты часто обгоняют BTC. Риски выше.")
  else if value >=? 69 then
    (u "🟡 Близко к альтсезону",
     u "Следим: >69 — разморозка альтов, >75 — горячая фаза.")
  else (u "⚪️ Нейтральная зона", u "Явного преимущества нет.").

(** *** Stats table *)

(** [_normalize(s)] *)
Definition _normalize (s : str) : str :=
  sub (plus space) (u " ") (lower (strip s)).

Definition _parse_int (s : option str) : option Z :=
  match s with
  | None => None
  | Some s =>
    let s := strip s in
    if str_eqb s [] || existsb (str_eqb (lower s)) [u "none"; u "n/a"; u "-"; u "—"]
    then None
    else int_of_str (sub (Cls (fun c => negb (isdigit c || (c =? 45)%N))) [] s)
  end.

Definition _KEYWORDS : list (str * list (list str)) :=
  [ (u "days_since_last", [[u "days"; u "since"; u "last"]; [u "дней"; u "прошлого"]]);
    (u "avg_between", [[u "average"; u "between"]; [u "средн"; u "между"]]);
    (u "longest_without", [[u "longest"; u "without"]; [u "самая"; u "длин"; u "без"]]);
    (u "avg_length", [[u "average"; u "length"]; [u "средн"; u "длитель"]]);
    (u "longest_length", [[u "longest"; u "season"]; [u "самый"; u "длин"; u "сезон"]]);
    (u "total_days", [[u "total"; u "number"; u "days"]; [u "общее"; u "колич"; u "дней"]]) ].

Definition _LABEL_VARIANTS : list (str * list str) :=
  [ (u "days_since_last",
     [u "days since last season"; u "дней с прошлого сезона"]);
    (u "avg_between",
     [u "average days between seasons"; u "среднее количество дней между сезонами"]);
    (u "longest_without",
     [u "longest period without a season"; u "самая длинная серия без сезона"]);
    (u "avg_length",
     [ u "average season length (days)"; u "average length of season (days)";
       u "средняя продолжительность сезона (дней)";
       u "средняя длительность сезона (дней)" ]);
    (u "longest_length", [u "longest season (days)"; u "самый длинный сезон (дни)"]);
    (u "total_days",
     [ u "total number of days in season"; u "total days of season";
       u "общее количество дней сезона" ]) ].

(** The first key of a table one of whose entries satisfies [hit]. *)
Fixpoint first_key {A} (hit : A -> bool) (tbl : list (str * list A)) : option str :=
  match tbl with
  | [] => None
  | (key, entries) :: tbl' =>
    if existsb hit entries then Some key else first_key hit tbl'
  end.

Definition _match_key (label_norm : str) : option str :=
  match first_key (fun v => contains (_normalize v) label_norm) _LABEL_VARIANTS with
  | Some key => Some key
  | None =>
    first_key (fun kws => forallb (fun kw => contains kw label_norm) kws) _KEYWORDS
  end.

Record stat := Stat { alt : option Z; btc : option Z }.

(** The row loop of [fetch_altseason_stats]: a row is the list of the
    texts of its [td]/[th] cells. *)
Definition stats_step (stats : gmap str stat) (tds : list str) : gmap str stat :=
  match tds with
  | [c0; c1; c2] =>
    match _match_key (_normalize c0) with
    | Some key => <[ key := Stat (_parse_int (Some c1)) (_parse_int (Some c2)) ]> stats
    | None => stats
    end
  | _ => stats
  end.

Definition required : list str :=
  [ u "days_since_last"; u "avg_between"; u "longest_without"; u "avg_length";
    u "longest_length"; u "total_days" ].

(** Step 3 of [fetch_altseason_stats] and its final check, on the rows
    [target_table.find_all("tr")] of the table that was located. *)
Definition stats_of_table (trs : list (list str)) : exc (gmap str stat) :=
  let stats := foldl stats_step ∅ (drop 1 trs) in
  let missing := filter (fun k => bool_decide (stats !! k = None)) (sorted required) in
  match missing with
  | [] => Return stats
  | _ => Raise (u "Не удалось распознать метрики таблицы: " ++ join (u ", ") missing)
  end.

Section Fetch.

(** The parts played by [requests] and [BeautifulSoup]:
    - [page url] is the body of the page, or the exception of
      [requests.get] / [raise_for_status];
    - [visible_text html] is [soup.get_text("\n", strip=True)];
    - [locate_table html] is the table steps 1 and 2 of
      [fetch_altseason_stats] settle on (the first table after the index
      heading, else the first table of the page, whose first row is
      [label | Altcoin | Bitcoin]), as the rows of [find_all("tr")]. *)
Variable page : str -> exc str.
Variable visible_text : str -> str.
Variable locate_table : str -> option (list (list str)).

Definition ALTSEASON_URLS : list str :=
  [ u "https://www.blockchaincenter.net/en/altcoin-season-index/";
    u "https://www.blockchaincenter.net/ru/altcoin-season-index/";
    u "https://www.blockchaincenter.net/altcoin-season-index/" ].

Fixpoint index_loop (urls : list str) (last_error : option str) : exc (Z * str) :=
  match urls with
  | [] =>
    Raise (u "Не удалось распознать индекс на странице: "
             ++ or_else last_error (u "неизвестная ошибка"))
  | url :: urls' =>
    match page url with
    | Raise e => index_loop urls' (Some e)
    | Return html =>
      match _extract_index_heuristic (visible_text html) with
      | Raise e => index_loop urls' (Some e)
      | Return value => Return (value, url)
      end
    end
  end.

Definition fetch_altseason_index : exc (Z * str) :=
  index_loop ALTSEASON_URLS None.

Fixpoint first_page (urls : list str) (last_err : option str) : str + option str :=
  match urls with
  | [] => inr last_err
  | url :: urls' =>
    match page url with
    | Return html => inl html
    | Raise e => first_page urls' (Some e)
    end
  end.

Definition fetch_altseason_stats : exc (gmap str stat) :=
  match first_page ALTSEASON_URLS None with
  | inr last_err =>
    Raise (u "Не удалось загрузить страницу: " ++ default (u "None") last_err)
  | inl html =>
    match locate_table html with
    | None =>
      Raise (u "Таблица Altcoin/Bitcoin для секции 'Altcoin Season' не найдена")
    | Some trs => stats_of_table trs
    end
  end.

End Fetch.

End Altseason.

(* ===================================================================== *)
(** ** parser_investing_generic.py: the text table and the column widths  *)
(* ===================================================================== *)

Module TextTable.
Import Py PyFloat Generic.

(** [s.ljust(w)] and [c * w] for a one-character string [c]. *)
Definition ljust (s : str) (w : Z) : str :=
  s ++ replicate (Z.to_nat (w - Z.of_nat (length s))) SP.

Definition str_mul (c : str) (w : Z) : str :=
  concat (replicate (Z.to_nat w) c).

(** The five cells of a line of the table. *)
Record cells := Cells { c_date : str; c_time : str; c_act : str; c_fc : str; c_pr : str }.

Definition headers : cells :=
  Cells (u "Release Date") (u "Time") (u "Actual") (u "Forecast") (u "Previous").

Definition DASH_ROW : cells := Cells (u "—") (u "—") (u "—") (u "—") (u "—").

(** The loop over [(rows or [])[:max_rows]]. *)
Definition data_row (r : row) : cells :=
  Cells (slice_to (date r) 12) (slice_to (time r) 5)
        (_fmt_val (actual_val r) (actual_unit r))
        (_fmt_val (forecast_val r) (forecast_unit r))
        (_fmt_val (previous_val r) (previous_unit r)).

Definition data_of (rows : list row) (max_rows : Z) : list cells :=
  match map data_row (slice_to rows max_rows) with
  | [] => [DASH_ROW]
  | data => data
  end.

Definition W_DATE : Z := 12.
Definition W_TIME : Z := 5.
Definition W_ACT : Z := 12.
Definition W_FC : Z := 9.
Definition W_PR : Z := 9.
Definition widths : list Z := [W_DATE; W_TIME; W_ACT; W_FC; W_PR].

Definition cut_pad (s : str) (w : Z) : str :=
  let s := strip s in
  let s := if w <? Z.of_nat (length s) then slice_to s (w - 1) ++ u "…" else s in
  ljust s w.

Definition V : str := u "│".
Definition H : str := u "─".

(** [line(left, mid, right)] *)
Definition line (left mid right : str) : str :=
  left ++ join mid (map (str_mul H) widths) ++ right.

(** The header line and each body line. *)
Definition cells_line (c : cells) : str :=
  V ++ cut_pad (c_date c) W_DATE
    ++ V ++ cut_pad (c_time c) W_TIME
    ++ V ++ cut_pad (c_act c) W_ACT
    ++ V ++ cut_pad (c_fc c) W_FC
    ++ V ++ cut_pad (c_pr c) W_PR ++ V.

(** [[top, head, mid, *body_lines, bot]] *)
Definition table_lines (rows : list row) (max_rows : Z) : list str :=
  [ line (u "┌") (u "┬") (u "┐"); cells_line headers; line (u "├") (u "┼") (u "┤") ]
    ++ map cells_line (data_of rows max_rows)
    ++ [ line (u "└") (u "┴") (u "┘") ].

Definition QUOTE : str := [34%N].

Definition format_table_for_tg (rows : list row) (src_url : str) (max_rows : Z) : str :=
  let table := join NL (table_lines rows max_rows) in
  let footer :=
    NL ++ u "<b>Источник:</b> <a href=" ++ QUOTE ++ src_url ++ QUOTE
       ++ u ">Investing.com</a>" in
  u "<pre>" ++ table ++ u "</pre>" ++ footer.

Section ColumnWidths.

(** The fonts of the image renderer and [_text_size(draw, text, font)],
    the extent Pillow measures for a text. *)
Variable Font : Type.
Variable _text_size : str -> Font -> Z * Z.

Definition min_w : list Z := [170; 96; 120; 120; 120].
Definition max_w : list Z := [260; 140; 220; 220; 220].

(** [widths[i] = max(widths[i], w + 28)]; the index is in range in both
    loops of the caller as long as there are at most five headers. *)
Definition widen (ws : list Z) (i : nat) (w : Z) : list Z :=
  match ws !! i with
  | Some old => <[ i := Z.max old (w + 28) ]> ws
  | None => ws
  end.

(** The loop over the headers; [None] is the IndexError of a sixth
    header. *)
Fixpoint heads_loop (i : nat) (heads : list str) (f_head : Font) (ws : list Z)
    : option (list Z) :=
  match heads with
  | [] => Some ws
  | head :: heads' =>
    match ws !! i with
    | None => None
    | Some _ => heads_loop (S i) heads' f_head (widen ws i (_text_size head f_head).1)
    end
  end.

Definition dash_if_empty (s : str) : str :=
  match s with [] => u "—" | _ => s end.

Definition sample_cells (r : row) : list str :=
  [ replace (u ", ") (u " ") (dash_if_empty (date r));
    slice_to (dash_if_empty (time r)) 5;
    _fmt_val (actual_val r) (actual_unit r);
    _fmt_val (forecast_val r) (forecast_unit r);
    _fmt_val (previous_val r) (previous_unit r) ].

(** [for i, txt in enumerate(cells)] *)
Fixpoint cells_loop (i : nat) (txts : list str) (f_head f_cell : Font) (ws : list Z)
    : list Z :=
  match txts with
  | [] => ws
  | txt :: txts' =>
    let font := if (2 <=? i)%nat then f_cell else f_head in
    cells_loop (S i) txts' f_head f_cell (widen ws i (_text_size txt font).1)
  end.

Definition rows_loop (rows : list row) (f_head f_cell : Font) (ws : list Z) : list Z :=
  foldl (fun ws r => cells_loop 0 (sample_cells r) f_head f_cell ws) ws rows.

(** [min(widths[i], max_w[i])] for every column, then ten more pixels
    for the three numeric columns. *)
Definition clamp (ws : list Z) : list Z :=
  zip_with Z.min ws max_w.

Definition add_numeric (ws : list Z) : list Z :=
  imap (fun i w => if (2 <=? i)%nat then w + 10 else w) ws.

Definition _auto_col_widths (rows : list row) (heads : list str)
    (f_head f_cell : Font) : option (list Z) :=
  match heads_loop 0 heads f_head min_w with
  | None => None
  | Some ws => Some (add_numeric (clamp (rows_loop (slice_to rows 12) f_head f_cell ws)))
  end.

End ColumnWidths.

End TextTable.

(* ===================================================================== *)
(** ** storage.py: keys of custom indicators                              *)
(* ===================================================================== *)

Module Storage.
Import Py.

Section MakeKey.

(** [md5_hexdigest s] is [hashlib.md5(s.encode("utf-8")).hexdigest()]. *)
Variable md5_hexdigest : str -> str.

Definition _make_key (chat_id : Z) (title : str) : str :=
  let raw := str_of_int chat_id ++ u ":" ++ title in
  let h := upper (slice_to (md5_hexdigest raw) 10) in
  u "CUSTOM_" ++ h.

End MakeKey.

End Storage.

(* ===================================================================== *)
(** ** bot.py: schedule settings                                          *)
(* ===================================================================== *)

Module Schedule.
Import Py Re.

(** [p.fullmatch(s)]: a match from the start that ends at the end of the
    subject. *)
Definition fullmatch (r : regex) (s : str) : option rmatch :=
  match exec r (start_of s) []
          (fun c' g' => match rest c' with [] => Some (c', g') | _ => None end) with
  | Some (c', g') => Some (RMatch O (pos c') g' c')
  | None => None
  end.

Definition in_range (lo hi : N) : regex := Cls (fun c => (lo <=? c) && (c <=? hi))%N.

(** [_TIME_RE = ^([01]?\d|2[0-3]):([0-5]\d)$] *)
Definition _TIME_RE : regex :=
  cat_all
    [ Bol;
      Grp 1 (Alt (Cat (opt (one_of (u "01"))) digit)
                 (Cat (chr 50) (in_range 48 51)));
      chr 58;
      Grp 2 (Cat (in_range 48 53) digit);
      Eol ].

Definition _parse_hhmm (s : str) : option (Z * Z) :=
  let t := strip s in
  match fullmatch _TIME_RE t with
  | None => None
  | Some m => Some (Generic.group_int t m 1, Generic.group_int t m 2)
  end.

(** [f"{n:02d}"]: the decimal digits, padded with zeros to a width of
    two, the sign counting for one. *)
Definition fmt_02d (n : Z) : str :=
  let d := str_of_nonneg (Z.abs n) in
  if n <? 0 then 45%N :: replicate (1 - length d) 48%N ++ d
  else replicate (2 - length d) 48%N ++ d.

(** [f"{hh:02d}:{mm:02d}"], the text under which the handler of a time
    input stores the time it parsed. *)
Definition time_text (hh mm : Z) : str := fmt_02d hh ++ u ":" ++ fmt_02d mm.

(** [_job_id] and the keys of the state store. *)
Definition _job_id (chat_id : Z) (ind : str) : str :=
  u "user_sched_" ++ str_of_int chat_id ++ u "_" ++ ind.

Definition _k_enabled (chat_id : Z) (ind : str) : str :=
  u "sched2:enabled:" ++ str_of_int chat_id ++ u ":" ++ ind.

Definition _k_time (chat_id : Z) (ind : str) : str :=
  u "sched2:time:" ++ str_of_int chat_id ++ u ":" ++ ind.

Definition _k_days (chat_id : Z) (ind : str) : str :=
  u "sched2:days:" ++ str_of_int chat_id ++ u ":" ++ ind.

End Schedule.

(** The catalog of the settings and schedule menus of [bot.py]. *)
Module Catalog.
Import Py Indicators.

Definition ALTSEASON_KEY : str := u "ALTSEASON".
Definition ALTSEASON_TITLE : str := u "Индекс альтсезона".
Definition ALTSEASON_URL : str :=
  u "https://www.blockchaincenter.net/en/altcoin-season-index/".

(** [get_indicators_with_altseason(chat_id)], given the records of the
    custom indicator store: a copy of the catalog with the synthetic
    ALTSEASON entry, whose rule is [None]. *)
Definition get_indicators_with_altseason (customs : list custom) : gmap str Indicator :=
  <[ ALTSEASON_KEY := MkIndicator ALTSEASON_TITLE ALTSEASON_URL RuleNone ]>
    (get_indicators customs).

End Catalog.

(* ===================================================================== *)
(** ** Vocabulary of the properties                                       *)
(* ===================================================================== *)

Module Spec.
Import Py Re PyFloat.

(** The four status labels of the altseason classification. *)
Definition LABEL_BITCOIN_SEASON : str := u "🔵 Сезон биткоина".
Definition LABEL_NEUTRAL : str := u "⚪️ Нейтральная зона".
Definition LABEL_APPROACHING : str := u "🟡 Близко к альтсезону".
Definition LABEL_ALTSEASON : str := u "🟢 Альтсезон".

(** A number of [_find_numbers_0_100] within its range. *)
Definition in_0_100 (t : Z * nat) : Prop := 0 <= t.1 <= 100.

(** Invariant of the scoring loop of [_pick_target_table] after the
    tables [pre]: no score exceeds the best one, and the best table is
    the first of [pre] to reach it. *)
Definition best_ok (pre : list Generic.table)
    (best : option Generic.Tag * list str * Z) : Prop :=
  let '(bt, bh, bs) := best in
  (forall j t, pre !! j = Some t -> Generic.table_score t <= bs)
  /\ match bt with
     | Some (k, tb) =>
       pre !! k = Some tb /\ bs = Generic.table_score tb /\ bh = Generic.heads_of tb
       /\ forall j t, (j < k)%nat -> pre !! j = Some t -> Generic.table_score t < bs
     | None => bs = -1 /\ pre = []
     end.

(** The stage tags of the errors of [fetch_table_rows]. *)
Definition TAG_NET : str := u "[NET]".
Definition STAGE_TAGS : list str := [u "[NET]"; u "[HTML]"; u "[TABLE]"; u "[ROW]"].

(** What each attempt leaves behind: a successful return with status 200
    and a non-empty body, or an error tagged [NET]. *)
Definition attempt_ok
    (r : (Z * option str * option str * str) + (option str * list str)) : Prop :=
  match r with
  | inl (code, html, err, _) =>
    code = 200 /\ exists c t, html = Some (c :: t)
  | inr (last_err, _) =>
    exists e, last_err = Some e /\ startswith e TAG_NET = true
  end.

(** A result of [_get]: the page, or an error tagged [NET]. *)
Definition get_ok (r : Z * option str * option str * str) : Prop :=
  let '(code, html, err, _) := r in
  (code = 200 /\ exists c t, html = Some (c :: t))
  \/ (code = 0 /\ html = None /\ startswith (or_else err (u "[NET] HTTP error")) TAG_NET = true).

(** The two shapes of a result of [fetch_table_rows]: rows without an
    error, or no rows and an error that carries a stage tag. *)
Definition rows_or_tagged_error {R} (limit : Z) (res : list R * option str) : Prop :=
  (res.1 <> [] /\ Z.of_nat (length res.1) <= limit /\ res.2 = None)
  \/ (res.1 = [] /\ exists e tag,
        res.2 = Some e /\ tag ∈ STAGE_TAGS /\ contains tag e = true).

(** A row of the stats table names the key [k]: it has exactly three
    cells and [_match_key] maps its label to [k]. *)
Definition row_names (k : str) (tds : list str) : bool :=
  match tds with
  | [c0; _; _] => bool_decide (Altseason._match_key (Altseason._normalize c0) = Some k)
  | _ => false
  end.

(** The label of a row (its first cell) matches the key [k], whatever the
    number of cells of the row. *)
Definition label_matches (k : str) (tds : list str) : bool :=
  match tds with
  | c0 :: _ => bool_decide (Altseason._match_key (Altseason._normalize c0) = Some k)
  | [] => false
  end.

(** The required keys that no three-cell row after the header names, in
    sorted order. *)
Definition unmatched (trs : list (list str)) : list str :=
  filter (fun k => negb (existsb (row_names k) (drop 1 trs)))
         (sorted Altseason.required).

Definition MISSING_PREFIX : str := u "Не удалось распознать метрики таблицы: ".

(** Sample stats tables: the header row, five of the six metric rows,
    and a last row that is either absent, or present with a fourth cell. *)
Definition STATS_FIVE_ROWS : list (list str) :=
  [ [u ""; u "Altcoin Season"; u "Bitcoin Season"];
    [u "Days since last season"; u "259"; u "47"];
    [u "Average days between seasons"; u "66"; u "17"];
    [u "Longest period without a season"; u "486"; u "191"];
    [u "Average season length (days)"; u "18"; u "10"];
    [u "Longest season (days)"; u "117"; u "126"] ].

Definition STATS_FOUR_CELL_ROW : list (list str) :=
  STATS_FIVE_ROWS ++ [[u "Total number of days in season"; u "404"; u "953"; u ""]].

(** The values and the units of the round-trip property. *)
Definition ROUNDTRIP_VALUES : list float :=
  [0.5; 1; 999; 1000; 1500000; 2300000000]%float.

Definition ROUNDTRIP_UNITS : list (option str) :=
  [ Some (u "percent"); Some (u "thousand"); Some (u "million"); Some (u "billion");
    Some (u "trillion"); None ].

(** Formatting a scalar and normalizing the text again. *)
Definition roundtrip (v : float) (unit : option str) : option float * option str :=
  Generic._to_scalar (Generic._fmt_val (Some v) unit).

(** The unit class of the suffix [_fmt_val] chooses for a magnitude. *)
Definition magnitude_unit (v : float) : option str :=
  let absv := PrimFloat.abs v in
  if fge absv 1000000000000 then Some (u "trillion")
  else if fge absv 1000000000 then Some (u "billion")
  else if fge absv 1000000 then Some (u "million")
  else if fge absv 1000 then Some (u "thousand")
  else None.

(** A row that holds only the three values. *)
Definition row_of_values (a f p : option float) : Generic.row :=
  Generic.Row [] [] [] [] [] a None f None p None None None.

(** A rule code that [_RULES] and [_signal_from_rows] recognize, once in
    upper case. *)
Definition recognized (code : str) : Prop :=
  code = u "LT" \/ code = u "GT" \/ code = u "FOMC".

(** The label of [_signal_from_rows] for a value equal to the forecast,
    and the one for a rule code it does not know. *)
Definition LABEL_ON_FORECAST : str := u "На уровне прогноза".
Definition unrecognized_label (code : str) : str :=
  u "Правило " ++ upper code ++ u " не распознано".

(** A custom indicator as the store holds it, with a given rule code. *)
Definition custom_with_rule (code : str) : Indicators.custom :=
  Indicators.Custom (u "CUSTOM_0123456789") (u "My indicator")
                    (u "https://www.investing.com/economic-calendar/x-1") (Some code).

(** The code points on which the case maps [upper_cp] and [lower_cp] are
    those of [str.upper] and [str.lower]: ASCII and the Cyrillic block up
    to U+045F. A plain code is written with them only. *)
Definition plain_char (c : N) : bool :=
  ((c <? 128) || (0x400 <=? c) && (c <=? 0x45F))%N.

Definition plain_code (code : str) : Prop := Forall (fun c => plain_char c = true) code.

(** The two bodies of [_signal_from_rows] that show no rule answer: the
    one for an empty list of rows and the one for a top row whose actual
    value is missing while its forecast is present. *)
Definition NO_DATA : str := u "Нет данных: таблица пуста.".
Definition NOT_OUT : str := u "⏳ Данные ещё не вышли. Прогноз: ".

(** An indicator map that keeps a rule code as the rule entry of its one
    key. *)
Definition code_map (code : str) : gmap str Indicators.Indicator :=
  {[ u "MY" := Indicators.MkIndicator (u "My indicator")
                 (u "https://www.investing.com/economic-calendar/x-1")
                 (Indicators.RuleCode code) ]}.

(** A second record of the custom indicator store, with a recognized
    code and a key of its own. *)
Definition other_custom : Indicators.custom :=
  Indicators.Custom (u "CUSTOM_ABCDEF0123") (u "Other indicator")
                    (u "https://www.investing.com/economic-calendar/y-2") (Some (u "GT")).

End Spec.

(* ===================================================================== *)
(** ** Vocabulary of the further properties                               *)
(* ===================================================================== *)

Module SpecX.
Import Py Re PyFloat.

(** The five unit names of a scalar. *)
Definition UNIT_NAMES : list str :=
  [u "percent"; u "thousand"; u "million"; u "billion"; u "trillion"].

(** A header cell contains one of the keywords. *)
Definition head_hits (keys : list str) (h : str) : bool :=
  existsb (fun k => contains k h) keys.

(** A body row has the five cells a record needs. *)
Definition wide_enough (tds : list str) : bool := (5 <=? length tds)%nat.

(** A table has a numeric-looking row among its first three body rows. *)
Definition looks_numeric (tb : Generic.table) : bool :=
  existsb Generic.row_looks_numeric (take 3 (Generic.tbody_tr tb)).

(** The diagnostic entry of a table. *)
Definition candidate_of (tb : Generic.table) : Generic.candidate :=
  Generic.Candidate (Generic.heads_of tb) (Generic.table_score tb).

(** The body of a call that counts as a success in [_get]: status 200
    and a non-empty text. *)
Definition ok_body (o : Generic.outcome) : option str :=
  match o with
  | Generic.Response code text =>
    if (code =? 200) && negb (str_eqb text []) then Some text else None
  | Generic.Raised _ => None
  end.

Fixpoint first_ok (os : list Generic.outcome) : option str :=
  match os with
  | [] => None
  | o :: os' =>
    match ok_body o with
    | Some t => Some t
    | None => first_ok os'
    end
  end.

(** The calls of [n] attempts from [attempt] on, in the order they are
    made: at each attempt the first client, then the second. *)
Definition calls (cloudscraper requests : str -> nat -> Generic.outcome)
    (url : str) (attempt n : nat) : list Generic.outcome :=
  flat_map (fun k => [cloudscraper url k; requests url k]) (seq attempt n).

(** The width of every line of the text table: the five columns and the
    six vertical bars. *)
Definition LINE_WIDTH : nat := 53.

(** The column widths of the image stay in their bounds (the three
    numeric columns get ten pixels more than the table of bounds). *)
Definition widths_in_bounds (ws : list Z) : Prop :=
  exists a b c d e,
    ws = [a; b; c; d; e]
    /\ 170 <= a <= 260 /\ 96 <= b <= 140
    /\ 130 <= c <= 230 /\ 130 <= d <= 230 /\ 130 <= e <= 230.

(** Invariant of the two widening loops: five widths, none below its
    minimum. *)
Definition widths_above_min (ws : list Z) : Prop :=
  exists a b c d e,
    ws = [a; b; c; d; e]
    /\ 170 <= a /\ 96 <= b /\ 120 <= c /\ 120 <= d /\ 120 <= e.

(** The three answers of the rule functions of [indicators.py]. *)
Definition THREE_LABELS : list str := [u "LONG"; u "SHORT"; u "NEUTRAL"].

(** A rule entry that is a function answering with those three only. *)
Definition three_way_rule (rl : Indicators.rule_value) : Prop :=
  exists f, rl = Indicators.Callable f /\ forall r, f r ∈ THREE_LABELS.

(** A text that ends with an arrow and one of the three answers. *)
Definition ends_with_label (text : str) : Prop :=
  exists pre lab, lab ∈ THREE_LABELS /\ text = pre ++ u " → " ++ lab.

(** The prefix of the keys [storage._make_key] builds. *)
Definition CUSTOM_PREFIX : str := u "CUSTOM_".

(** The characters of HTML markup: [<], [>], the double and the single
    quote; with [&] they are the five characters [html.escape] replaces. *)
Definition markup_char (c : N) : bool :=
  ((c =? 60) || (c =? 62) || (c =? 34) || (c =? 39))%N.

Definition escaped_char (c : N) : bool := ((c =? 38) || markup_char c)%N.

(** A complete stats table: the header row and the six metric rows. *)
Definition STATS_SIX_ROWS : list (list str) :=
  Spec.STATS_FIVE_ROWS ++ [[u "Total number of days in season"; u "404"; u "953"]].

(** What one source URL gives to [fetch_altseason_index]: the index of
    its page, or the message of the exception of the download or of the
    extraction. *)
Definition source_result (page : str -> exc str) (visible_text : str -> str)
    (url : str) : exc Z :=
  match page url with
  | Raise e => Raise e
  | Return html => Altseason._extract_index_heuristic (visible_text html)
  end.

Definition source_fails (page : str -> exc str) (visible_text : str -> str)
    (url : str) : Prop :=
  exists e, source_result page visible_text url = Raise e.

Definition INDEX_ERROR_PREFIX : str := u "Не удалось распознать индекс на странице: ".
Definition UNKNOWN_ERROR : str := u "неизвестная ошибка".
Definition NO_NUMBERS : str := u "Не нашли чисел 0–100 на странице".

(** A text without any decimal digit. *)
Definition no_digit (s : str) : Prop := Forall (fun c => isdigit c = false) s.

(** Two prefixes differ at a position both have. *)
Fixpoint diverge (p q : str) : bool :=
  match p, q with
  | a :: p', b :: q' => negb (a =? b)%N || diverge p' q'
  | _, _ => false
  end.

(** The characters of [str(n)] for an [int]: the minus sign and the
    ASCII digits. *)
Definition int_char (c : N) : Prop := c = 45%N \/ (48 <= c <= 57)%N.

(** The value of a string of ASCII digits. *)
Definition digits_value (ds : str) : Z :=
  foldl (fun a c => 10 * a + (Z.of_N c - 48)) 0 ds.

Definition PAGE_ERROR_PREFIX : str := u "Не удалось загрузить страницу: ".
Definition TABLE_NOT_FOUND : str :=
  u "Таблица Altcoin/Bitcoin для секции 'Altcoin Season' не найдена".

(** The download of a source URL raises. *)
Definition page_fails (page : str -> exc str) (url : str) : Prop :=
  exists e, page url = Raise e.

(** [s.split(sep)] for a one-character separator. *)
Definition split_on (sep : N) (s : str) : list str :=
  foldr (fun c acc =>
           if (c =? sep)%N then [] :: acc
           else match acc with
                | [] => [[c]]
                | l :: ls => (c :: l) :: ls
                end)
        [[]] s.

(** A text that holds no newline. *)
Definition no_newline (s : str) : Prop := Forall (fun c => c <> 10%N) s.

(** The last line of the text of [format_table_for_tg]. *)
Definition footer_line (src_url : str) : str :=
  u "<b>Источник:</b> <a href=" ++ TextTable.QUOTE ++ src_url ++ TextTable.QUOTE
    ++ u ">Investing.com</a>".

(** A row as the row extractor builds it from the cells
    [04.09.2025 | 15:30 | 237K | 230K | 229K]. *)
Definition SAMPLE_ROW : Generic.row :=
  Generic.Row (u "04.09.2025") (u "15:30") (u "237K") (u "230K") (u "229K")
    (Some 237000%float) (Some (u "thousand")) (Some 230000%float) (Some (u "thousand"))
    (Some 229000%float) (Some (u "thousand")) None None.

End SpecX.

(* ===================================================================== *)
(** * Properties                                                          *)
(* ===================================================================== *)

Import Py Re PyFloat Spec.

(** ** Checks of the runtime model

    The string, pattern and float primitives on inputs whose Python
    results are known. *)

Section RuntimeChecks.

Example check_utf8 : u "Факт ≥ 5%" = [1060; 1072; 1082; 1090; 32; 8805; 32; 53; 37]%N.
Proof. vm_compute. reflexivity. Qed.

Example check_strip_replace :
  strip (u "  a  b   ") = u "a  b"
  /\ replace (u "  ") (u " ") (u "a   b    c") = u "a  b  c"
  /\ lower (u "Факт Actual") = u "факт actual"
  /\ sorted [u "b"; u "ab"; u "a"] = [u "a"; u "ab"; u "b"].
Proof. repeat split; vm_compute; reflexivity. Qed.

Example check_int :
  str_of_int 200 = u "200" /\ str_of_int (-1234) = u "-1234"
  /\ int_of_str (u " -12 ") = Some (-12) /\ int_of_str (u "1-2") = None
  /\ int_of_str (u "") = None.
Proof. repeat split; vm_compute; reflexivity. Qed.

(** Greedy repetition gives way to what follows it; the leftmost start
    wins; [finditer] resumes after each match. *)
Example check_regex_priority :
  (group0 (u "xaab") <$> search (Cat (star (chr 97)) (lit (u "ab"))) (u "xaab"))
    = Some (u "aab")
  /\ (group0 (u "ab") <$> search (Alt (lit (u "a")) (lit (u "ab"))) (u "ab"))
     = Some (u "a")
  /\ findall (plus digit) (u "12 a345b6") = [u "12"; u "345"; u "6"]
  /\ sub (plus space) (u " ") (u "a   b  c") = u "a b c".
Proof. repeat split; vm_compute; reflexivity. Qed.

Example check_float_of_str :
  float_of_str (u "1.234") = Some 1.234%float
  /\ float_of_str (u "-0.1") = Some (-0.1)%float
  /\ float_of_str (u "9007199254740993") = Some 9007199254740992%float
  /\ float_of_str (u "1.") = Some 1%float
  /\ float_of_str (u ".") = None
  /\ float_of_str (u "1.2.3") = None.
Proof. repeat split; vm_compute; reflexivity. Qed.

(** Two decimals, the exact binary value rounded half to even. *)
Example check_format_2f :
  format_2f 0.125 = u "0.12" /\ format_2f 2.675 = u "2.67"
  /\ format_2f 999.995 = u "1000.00" /\ format_2f (-0.001) = u "-0.00"
  /\ format_2f 1234.5 = u "1234.50".
Proof. repeat split; vm_compute; reflexivity. Qed.

End RuntimeChecks.

(** ** Altseason classification *)

Section Classification.
Import Altseason.

Lemma classify_cases (value : Z) :
  (value <= 25 /\ (classify_altseason value).1 = LABEL_BITCOIN_SEASON)
  \/ (26 <= value <= 68 /\ (classify_altseason value).1 = LABEL_NEUTRAL)
  \/ (69 <= value <= 74 /\ (classify_altseason value).1 = LABEL_APPROACHING)
  \/ (75 <= value /\ (classify_altseason value).1 = LABEL_ALTSEASON).
Proof.
  unfold classify_altseason. rewrite !Z.geb_leb.
  destruct (Z.leb_spec value 25); [left; split; [lia | vm_compute; reflexivity] |].
  destruct (Z.leb_spec 75 value); [do 3 right; split; [lia | vm_compute; reflexivity] |].
  destruct (Z.leb_spec 69 value).
  - right; right; left. split; [lia | vm_compute; reflexivity].
  - right; left. split; [lia | vm_compute; reflexivity].
Qed.

Lemma labels_distinct :
  LABEL_BITCOIN_SEASON <> LABEL_NEUTRAL /\ LABEL_BITCOIN_SEASON <> LABEL_APPROACHING
  /\ LABEL_BITCOIN_SEASON <> LABEL_ALTSEASON /\ LABEL_NEUTRAL <> LABEL_APPROACHING
  /\ LABEL_NEUTRAL <> LABEL_ALTSEASON /\ LABEL_APPROACHING <> LABEL_ALTSEASON.
Proof. repeat split; vm_compute; discriminate. Qed.

(** C8: for every integer value the label is the Bitcoin-season one
    exactly when value <= 25, the neutral one exactly when
    26 <= value <= 68, the approaching one exactly when 69 <= value <= 74
    and the altseason one exactly when value >= 75; the six boundary
    values 25, 26, 68, 69, 74, 75 fall in the bands the thresholds give. *)
Theorem classify_altseason_bands (value : Z) :
  ((classify_altseason value).1 = LABEL_BITCOIN_SEASON <-> value <= 25)
  /\ ((classify_altseason value).1 = LABEL_NEUTRAL <-> 26 <= value <= 68)
  /\ ((classify_altseason value).1 = LABEL_APPROACHING <-> 69 <= value <= 74)
  /\ ((classify_altseason value).1 = LABEL_ALTSEASON <-> 75 <= value)
  /\ (classify_altseason 25).1 = LABEL_BITCOIN_SEASON
  /\ (classify_altseason 26).1 = LABEL_NEUTRAL
  /\ (classify_altseason 68).1 = LABEL_NEUTRAL
  /\ (classify_altseason 69).1 = LABEL_APPROACHING
  /\ (classify_altseason 74).1 = LABEL_APPROACHING
  /\ (classify_altseason 75).1 = LABEL_ALTSEASON.
Proof.
  destruct labels_distinct as (D1 & D2 & D3 & D4 & D5 & D6).
  destruct (classify_cases value) as [[Hv E] | [[Hv E] | [[Hv E] | [Hv E]]]];
    rewrite E;
    repeat match goal with
           | |- _ /\ _ => split
           | |- _ <-> _ => split; intros
           end;
    first [ lia | congruence | vm_compute; reflexivity ].
Qed.

End Classification.

(** ** Altseason index extraction *)

Section IndexExtraction.
Import Altseason.

Lemma numbers_of_range (text : str) (ms : list rmatch) :
  Forall in_0_100 (numbers_of text ms).
Proof.
  induction ms as [| m ms IH]; simpl; [constructor |].
  destruct (group text m 1 ≫= int_of_str) as [v |]; [| exact IH].
  destruct ((0 <=? v) && (v <=? 100)) eqn:E; [| exact IH].
  constructor; [| exact IH].
  apply andb_prop in E as [E1 E2]. unfold in_0_100; simpl. lia.
Qed.

Lemma find_numbers_range (text : str) : Forall in_0_100 (_find_numbers_0_100 text).
Proof. apply numbers_of_range. Qed.

Lemma min_by_elem {A} (key : A -> Z) (x : A) (xs : list A) :
  min_by key x xs ∈ x :: xs.
Proof.
  revert x. induction xs as [| y ys IH]; intros x; simpl.
  - apply list_elem_of_here.
  - destruct (key y <? key x).
    + apply list_elem_of_further, IH.
    + specialize (IH x). apply elem_of_cons in IH as [-> | IH].
      * apply list_elem_of_here.
      * do 2 apply list_elem_of_further. exact IH.
Qed.

Lemma first_reasonable_elem (nums : list (Z * nat)) (v : Z) :
  first_reasonable nums = Some v -> exists p, (v, p) ∈ nums.
Proof.
  induction nums as [| [w p] nums IH]; simpl; [discriminate |].
  destruct ((30 <=? w) && (w <=? 90) && negb ((w =? 25) || (w =? 75))).
  - intros [= ->]. exists p. apply list_elem_of_here.
  - intros H. destruct (IH H) as [q Hq]. exists q. apply list_elem_of_further, Hq.
Qed.

Lemma heuristic_in_range (text : str) (v : Z) :
  _extract_index_heuristic text = Return v -> 0 <= v <= 100.
Proof.
  unfold _extract_index_heuristic.
  match goal with
  | |- match ?d with _ => _ end = _ -> _ =>
    assert (Hd : forall w, d = Some w -> 0 <= w <= 100); [| destruct d as [w |]]
  end.
  - intros w. destruct (search RE_INDEX text) as [m |]; [| discriminate].
    destruct (group text m 2 ≫= int_of_str) as [x |]; [| discriminate].
    destruct ((0 <=? x) && (x <=? 100)) eqn:E; [| discriminate].
    intros [= <-]. apply andb_prop in E as [E1 E2]. lia.
  - intros [= <-]. apply Hd. reflexivity.
  - clear Hd. pose proof (find_numbers_range text) as HR.
    destruct (_find_numbers_0_100 text) as [| n0 nums']; [discriminate |].
    rewrite Forall_forall in HR.
    destruct (anchors_of text) as [| a0 anchors'].
    + destruct (first_reasonable (n0 :: nums')) as [w |] eqn:E; intros [= <-].
      * apply first_reasonable_elem in E as [p Hp]. apply (HR _ Hp).
      * apply (HR n0), list_elem_of_here.
    + destruct (filter _ (n0 :: nums')) as [| t0 ts] eqn:EF; intros [= <-].
      * apply (HR _ (min_by_elem _ n0 nums')).
      * pose proof (min_by_elem (fun t : Z * nat => dist a0 anchors' t.2) t0 ts) as Hm.
        rewrite <- EF in Hm. apply list_elem_of_filter in Hm as [_ Hm].
        apply (HR _ Hm).
Qed.

Lemma index_loop_in_range (page : str -> exc str) (visible_text : str -> str)
    (urls : list str) :
  forall last_error v url,
    index_loop page visible_text urls last_error = Return (v, url) ->
    0 <= v <= 100 /\ url ∈ urls.
Proof.
  induction urls as [| url0 urls IH]; intros last_error v url; simpl; [discriminate |].
  assert (Hnext : forall e, index_loop page visible_text urls e = Return (v, url) ->
                            0 <= v <= 100 /\ url ∈ url0 :: urls).
  { intros e H. destruct (IH _ _ _ H) as [Hv Hin].
    split; [exact Hv | apply list_elem_of_further, Hin]. }
  destruct (page url0) as [html | e]; [| apply Hnext].
  destruct (_extract_index_heuristic (visible_text html)) as [value | e] eqn:E;
    [| apply Hnext].
  intros [= <- <-]. split; [apply (heuristic_in_range _ _ E) | apply list_elem_of_here].
Qed.

(** C10: whichever of the four strategies yields the index (the direct
    pattern, the number nearest to an anchor, the first number in 30..90,
    or the first number found: that fallback too only sees the numbers
    [_find_numbers_0_100] kept), a returned index lies between 0 and 100;
    and so does the index [fetch_altseason_index] returns, together with
    one of the source URLs. *)
Theorem extract_index_in_range :
  (forall text v, _extract_index_heuristic text = Return v -> 0 <= v <= 100)
  /\ (forall page visible_text v url,
        fetch_altseason_index page visible_text = Return (v, url) ->
        0 <= v <= 100 /\ url ∈ ALTSEASON_URLS).
Proof.
  split.
  - exact heuristic_in_range.
  - intros page visible_text v url. apply index_loop_in_range.
Qed.

(** The theorem at a page that states its index directly, and at a page
    with no anchor and no number in 30..90, where the last fallback
    takes the first number. *)
Lemma extract_index_in_range_witness :
  (_extract_index_heuristic (u "Altcoin Season Index: 55") = Return 55 /\ 0 <= 55 <= 100)
  /\ (_extract_index_heuristic (u "12 of 250 coins, 95") = Return 12 /\ 0 <= 12 <= 100).
Proof.
  split; (split; [vm_compute; reflexivity |]).
  - apply (proj1 extract_index_in_range (u "Altcoin Season Index: 55") 55).
    vm_compute; reflexivity.
  - apply (proj1 extract_index_in_range (u "12 of 250 coins, 95") 12).
    vm_compute; reflexivity.
Defined.

End IndexExtraction.

(** ** Table locator *)

Section TableLocator.
Import Generic.

Lemma table_score_nonneg (tb : table) : 0 <= table_score tb.
Proof.
  unfold table_score, _score_heads.
  destruct (heads_of tb); [lia |].
  repeat match goal with |- context [if ?b then _ else _] => destruct b end; lia.
Qed.

Lemma best_loop_ok (tables : list table) :
  forall pre best cands,
    best_ok pre best ->
    best_ok (pre ++ tables) (best_loop (length pre) tables best cands).1.
Proof.
  induction tables as [| tb tables IH]; intros pre [[bt bh] bs] cands Hok.
  - simpl. rewrite app_nil_r. exact Hok.
  - cbn [best_loop snd].
    replace (pre ++ tb :: tables) with ((pre ++ [tb]) ++ tables)
      by (rewrite <- app_assoc; reflexivity).
    replace (S (length pre)) with (length (pre ++ [tb]))
      by (rewrite length_app; simpl; lia).
    destruct Hok as [Hmax Hbest].
    destruct (Z.ltb_spec bs (table_score tb)) as [Hlt | Hge]; apply IH.
    + split.
      * intros j t Hj. apply lookup_app_Some in Hj as [Hj | [Hlen Hj]].
        -- specialize (Hmax _ _ Hj). lia.
        -- apply list_lookup_singleton_Some in Hj as [_ <-]. lia.
      * split; [| split; [reflexivity | split; [reflexivity |]]].
        -- rewrite lookup_app_r by lia. rewrite Nat.sub_diag. reflexivity.
        -- intros j t Hj Ht. rewrite lookup_app_l in Ht by exact Hj.
           specialize (Hmax _ _ Ht). lia.
    + split.
      * intros j t Hj. apply lookup_app_Some in Hj as [Hj | [Hlen Hj]].
        -- exact (Hmax _ _ Hj).
        -- apply list_lookup_singleton_Some in Hj as [_ <-]. lia.
      * destruct bt as [[k tk] |].
        -- destruct Hbest as (Hk & Hs & Hh & Hfirst).
           split; [| split; [exact Hs | split; [exact Hh |]]].
           ++ apply lookup_app_l_Some. exact Hk.
           ++ intros j t Hj Ht. apply (Hfirst j t Hj).
              apply lookup_lt_Some in Hk.
              rewrite lookup_app_l in Ht by lia. exact Ht.
        -- destruct Hbest as [-> _]. pose proof (table_score_nonneg tb). lia.
Qed.

Lemma best_ok_init : best_ok [] (None, [], -1).
Proof.
  split.
  - intros j t H. rewrite lookup_nil in H. discriminate H.
  - split; reflexivity.
Qed.

Lemma rows_loop_lookup (tables : list table) :
  forall pre i tb,
    rows_loop (length pre) tables = Some (i, tb) -> (pre ++ tables) !! i = Some tb.
Proof.
  induction tables as [| t tables IH]; intros pre i tb; simpl; [discriminate |].
  assert (Hnext : rows_loop (S (length pre)) tables = Some (i, tb) ->
                  (pre ++ t :: tables) !! i = Some tb).
  { intros H. replace (S (length pre)) with (length (pre ++ [t])) in H
      by (rewrite length_app; simpl; lia).
    apply IH in H. rewrite <- app_assoc in H. exact H. }
  destruct (tbody_tr t) as [| tr trs]; [exact Hnext |].
  match goal with |- (if ?b then _ else _) = _ -> _ => destruct b end;
    [| exact Hnext].
  intros [= <- <-]. rewrite lookup_app_r by lia. rewrite Nat.sub_diag. reflexivity.
Qed.

Lemma last_lookup (t0 : table) (sp : list table) :
  sp <> [] -> sp !! pred (length sp) = Some (List.last sp t0).
Proof.
  induction sp as [| a sp IH]; [congruence |]. intros _.
  destruct sp as [| b sp]; [reflexivity |].
  change (List.last (a :: b :: sp) t0) with (List.last (b :: sp) t0).
  rewrite <- IH by discriminate. reflexivity.
Qed.

Lemma pick_fallback_lookup (t0 : table) (sp : soup) (cands : list candidate) :
  sp <> [] ->
  exists i tb heads dg,
    pick_fallback t0 sp cands = (Some (i, tb), Some heads, dg) /\ sp !! i = Some tb.
Proof.
  intros Hne. unfold pick_fallback.
  destruct (rows_loop 0 sp) as [[i tb] |] eqn:E.
  - do 4 eexists. split; [reflexivity |]. apply (rows_loop_lookup sp [] i tb E).
  - do 4 eexists. split; [reflexivity |]. apply last_lookup, Hne.
Qed.

(** C7: a document with no table yields no table, and a document with at
    least one table always yields a table of the document; and when some
    table has a header score above zero, the table returned has the
    greatest header score of all and every table before it in document
    order has a strictly smaller one (it is the earliest of the best). *)
Theorem pick_target_table_first_best (sp : soup) :
  (_pick_target_table [] ).1.1 = None /\
  (sp <> [] ->
  exists i tb heads dg,
    _pick_target_table sp = (Some (i, tb), Some heads, dg)
    /\ sp !! i = Some tb
    /\ ((exists t, t ∈ sp /\ 0 < table_score t) ->
        (forall j t, sp !! j = Some t -> table_score t <= table_score tb)
        /\ (forall j t, (j < i)%nat -> sp !! j = Some t ->
                        table_score t < table_score tb))).
Proof.
  split; [reflexivity |].
  intros Hne. unfold _pick_target_table.
  destruct sp as [| t0 sp']; [congruence |].
  pose proof (best_loop_ok (t0 :: sp') [] (None, [], -1) []) as Hok.
  simpl length in Hok. rewrite app_nil_l in Hok.
  destruct (best_loop 0 (t0 :: sp') (None, [], -1) []) as [[[bt bh] bs] cands].
  specialize (Hok best_ok_init).
  destruct Hok as [Hmax Hbest]. cbn [fst] in *.
  assert (Hlow : bs <= 0 -> ~ exists t, t ∈ t0 :: sp' /\ 0 < table_score t).
  { intros Hbs (t & Hin & Hpos). apply list_elem_of_lookup in Hin as [j Hj].
    specialize (Hmax _ _ Hj). lia. }
  destruct bt as [[k tk] |].
  - destruct Hbest as (Hk & Hs & Hh & Hfirst).
    destruct (Z.ltb_spec 0 bs) as [Hpos | Hnpos].
    + exists k, tk, bh. eexists. split; [reflexivity |]. split; [exact Hk |].
      intros _. subst bs. split; [exact Hmax | exact Hfirst].
    + destruct (pick_fallback_lookup t0 (t0 :: sp') cands Hne)
        as (i & tb & heads & dg & -> & Hi).
      exists i, tb, heads, dg. split; [reflexivity |]. split; [exact Hi |].
      intros Hex. destruct (Hlow Hnpos Hex).
  - destruct Hbest as [_ Hnil]. discriminate Hnil.
Qed.

(** The theorem at a page with a header-less table before two headed
    ones: the first headed table (position 1) is picked. *)
Lemma pick_target_table_first_best_witness :
  exists i tb heads dg,
    _pick_target_table
      [ Table [] [[u "a"; u "b"; u "c"; u "d"; u "5%"]];
        Table [u "Actual"; u "Forecast"; u "Previous"] [];
        Table [u "Date"; u "Actual"; u "Forecast"; u "Previous"] [] ]
    = (Some (i, tb), Some heads, dg) /\ i = 1%nat.
Proof.
  destruct (proj2 (pick_target_table_first_best
              [ Table [] [[u "a"; u "b"; u "c"; u "d"; u "5%"]];
                Table [u "Actual"; u "Forecast"; u "Previous"] [];
                Table [u "Date"; u "Actual"; u "Forecast"; u "Previous"] [] ]))
    as (i & tb & heads & dg & Hp & Hi & Hbest); [discriminate |].
  exists i, tb, heads, dg. split; [exact Hp |].
  vm_compute in Hp. injection Hp as <- _ _ _. reflexivity.
Defined.

End TableLocator.

(** ** Fetch pipeline *)

Section FetchResult.
Import Generic.

Variable localize_iso : Z -> Z -> Z -> Z -> Z -> option str.
Variable BeautifulSoup : str -> str + soup.
Variable cloudscraper : str -> nat -> outcome.
Variable requests : str -> nat -> outcome.
Variable repr_diag : diag -> str.

Lemma startswith_contains (s p : str) : startswith s p = true -> contains p s = true.
Proof.
  intros H. destruct s as [| c s].
  - destruct p; [reflexivity | discriminate H].
  - cbn [contains]. rewrite H. reflexivity.
Qed.

Lemma startswith_app (p rest : str) : startswith (p ++ rest) p = true.
Proof.
  induction p as [| c p IH]; simpl; [destruct rest; reflexivity |].
  rewrite N.eqb_refl. exact IH.
Qed.

Lemma startswith_app_l (s p rest : str) :
  startswith s p = true -> startswith (s ++ rest) p = true.
Proof.
  revert s. induction p as [| c p IH]; intros s;
    [intros _; destruct (s ++ rest); reflexivity |].
  destruct s as [| b s]; simpl; [discriminate |].
  intros H. apply andb_prop in H as [H1 H2]. rewrite H1. simpl. apply IH, H2.
Qed.

Lemma or_else_tagged (x : option str) (d : str) :
  (forall e, x = Some e -> startswith e TAG_NET = true) ->
  startswith d TAG_NET = true ->
  startswith (or_else x d) TAG_NET = true.
Proof.
  intros Hx Hd. destruct x as [[| c e] |]; cbn [or_else].
  - exact Hd.
  - apply Hx. reflexivity.
  - exact Hd.
Qed.

Lemma requests_part_ok (url : str) (attempt : nat) (notes : list str) :
  attempt_ok (requests_part requests url attempt notes).
Proof.
  unfold requests_part. destruct (requests url attempt) as [e | status text].
  - eexists. split; [reflexivity |]. apply (startswith_app TAG_NET).
  - destruct ((status =? 200) && negb (str_eqb text [])) eqn:E.
    + apply andb_prop in E as [E1 E2]. split; [lia |].
      destruct text as [| c t]; [discriminate E2 |]. eauto.
    + eexists. split; [reflexivity |]. apply (startswith_app TAG_NET).
Qed.

Lemma attempt_body_ok (url : str) (attempt : nat) (notes : list str) :
  attempt_ok (attempt_body cloudscraper requests url attempt notes).
Proof.
  unfold attempt_body. destruct (cloudscraper url attempt) as [e | status text].
  - apply requests_part_ok.
  - destruct ((status =? 200) && negb (str_eqb text [])) eqn:E.
    + apply andb_prop in E as [E1 E2]. split; [lia |].
      destruct text as [| c t]; [discriminate E2 |]. eauto.
    + apply requests_part_ok.
Qed.

Lemma get_loop_ok (url : str) (n : nat) :
  forall attempt last_err notes,
    (forall e, last_err = Some e -> startswith e TAG_NET = true) ->
    get_ok (get_loop cloudscraper requests url n attempt last_err notes).
Proof.
  induction n as [| n IH]; intros attempt last_err notes Hlast; simpl.
  - right. split; [reflexivity | split; [reflexivity |]].
    pose proof (or_else_tagged last_err (u "[NET] network error") Hlast
                  ltac:(vm_compute; reflexivity)) as H.
    destruct (or_else last_err (u "[NET] network error")) as [| c e];
      [vm_compute in H; discriminate H | exact H].
  - pose proof (attempt_body_ok url attempt notes) as Hb.
    destruct (attempt_body cloudscraper requests url attempt notes)
      as [[[[code html] err] nt] | [last_err' notes']].
    + left. exact Hb.
    + apply IH. intros e He. destruct Hb as (e' & -> & Htag).
      injection He as <-. exact Htag.
Qed.

Lemma get_result (url : str) : get_ok (_get cloudscraper requests url).
Proof. apply get_loop_ok. discriminate. Qed.

Lemma slice_to_nonempty {A} (l : list A) (limit : Z) :
  l <> [] -> 1 <= limit ->
  slice_to l limit <> [] /\ Z.of_nat (length (slice_to l limit)) <= limit.
Proof.
  intros Hl Hlim. unfold slice_to.
  destruct (Z.ltb_spec limit 0); [lia |].
  split.
  - destruct l as [| a l]; [congruence |].
    destruct (Z.to_nat limit) eqn:E; [lia | discriminate].
  - rewrite length_take. lia.
Qed.

Lemma tagged (tag e rest : str) :
  tag ∈ STAGE_TAGS -> startswith e tag = true ->
  exists e' tag', Some (e ++ rest) = Some e' /\ tag' ∈ STAGE_TAGS /\ contains tag' e' = true.
Proof.
  intros Htag He. exists (e ++ rest), tag. split; [reflexivity |].
  split; [exact Htag |]. apply startswith_contains, startswith_app_l, He.
Qed.

(** C6: for every URL and every row limit of at least 1, whatever the
    HTTP clients and the parser do, [fetch_table_rows] returns either a
    non-empty list of at most [limit] rows with no error, or an empty
    list with an error string that carries one of the stage tags
    [NET], [HTML], [TABLE], [ROW]. Every exception of the clients and of
    the parser is caught inside, so the call always returns. *)
Theorem fetch_table_rows_result (url : str) (limit : Z) :
  1 <= limit ->
  rows_or_tagged_error limit
    (fetch_table_rows localize_iso BeautifulSoup cloudscraper requests repr_diag
                      url limit).
Proof.
  intros Hlim. unfold fetch_table_rows, rows_or_tagged_error.
  pose proof (get_result url) as Hget.
  destruct (_get cloudscraper requests url) as [[[code html] net_err] net_note].
  destruct Hget as [[-> (c & t & ->)] | (-> & -> & Htag)].
  - cbn [or_else]. change (negb (200 =? 200) || str_eqb (c :: t) []) with false.
    cbv iota.
    destruct (BeautifulSoup (c :: t)) as [e | sp].
    + right. split; [reflexivity |]. cbn [snd].
      apply (tagged (u "[HTML]") (u "[HTML] soup fail: ") e);
        [vm_compute; set_solver | vm_compute; reflexivity].
    + destruct (_pick_target_table sp) as [[[[i target] |] heads_for_log] dg].
      * destruct (rows_of _ _ _ _ _) as [rows bad_rows].
        destruct rows as [| r rows].
        -- right. split; [reflexivity |]. cbn [snd].
           apply (tagged (u "[ROW]") (u "[ROW] no rows parsed | diag: "));
             [vm_compute; set_solver | vm_compute; reflexivity].
        -- left. cbn [fst snd].
           destruct (slice_to_nonempty (r :: rows) limit ltac:(discriminate) Hlim).
           auto.
      * right. split; [reflexivity |]. cbn [snd].
        apply (tagged (u "[TABLE]") (u "[TABLE] not found | diag: "));
          [vm_compute; set_solver | vm_compute; reflexivity].
  - right. simpl negb. cbn [orb fst snd]. split; [reflexivity |].
    apply (tagged TAG_NET); [vm_compute; set_solver | exact Htag].
Qed.

End FetchResult.

(** The theorem at a page served by the second client after the first
    one failed, holding one table with one data row. *)
Lemma fetch_table_rows_result_witness :
  rows_or_tagged_error 12
    (Generic.fetch_table_rows
       (fun _ _ _ _ _ => None)
       (fun _ => inr [ Generic.Table
                         [u "Date"; u "Time"; u "Actual"; u "Forecast"; u "Previous"]
                         [[u "04.09.2025"; u "15:30"; u "237K"; u "230K"; u "229K"]] ])
       (fun _ _ => Generic.Raised (u "blocked"))
       (fun _ _ => Generic.Response 200 (u "<html>"))
       (fun _ => u "{}")
       (u "https://www.investing.com/economic-calendar/initial-jobless-claims-294")
       12).
Proof. apply fetch_table_rows_result. lia. Defined.

(** ** Altseason stats table *)

Section StatsTable.
Import Altseason.

Lemma stats_step_lookup_None (m : gmap str stat) (tds : list str) (k : str) :
  stats_step m tds !! k = None <-> m !! k = None /\ row_names k tds = false.
Proof.
  unfold stats_step, row_names.
  destruct tds as [| c0 [| c1 [| c2 [| c3 tds]]]];
    try (split; [intros H; split; [exact H | reflexivity] | intros [H _]; exact H]).
  destruct (_match_key (_normalize c0)) as [key |].
  - rewrite lookup_insert_None. rewrite bool_decide_eq_false.
    split; intros [H1 H2]; (split; [exact H1 | congruence]).
  - rewrite bool_decide_eq_false.
    split; [intros H; split; [exact H | discriminate] | intros [H _]; exact H].
Qed.

Lemma stats_loop_lookup_None (rows : list (list str)) (k : str) :
  forall m : gmap str stat,
    foldl stats_step m rows !! k = None
    <-> m !! k = None /\ existsb (row_names k) rows = false.
Proof.
  induction rows as [| tds rows IH]; intros m; simpl.
  - tauto.
  - rewrite IH, stats_step_lookup_None, orb_false_iff. tauto.
Qed.

Lemma missing_is_unmatched (trs : list (list str)) :
  filter (fun k => bool_decide (foldl stats_step (∅ : gmap str stat) (drop 1 trs) !! k = None))
         (sorted required)
  = unmatched trs.
Proof.
  unfold unmatched. apply list_filter_iff. intros k.
  rewrite bool_decide_spec, stats_loop_lookup_None, lookup_empty.
  rewrite negb_True, Is_true_false. tauto.
Qed.

(** C9 (as amended): once the Altcoin/Bitcoin table is located, the stats
    fetch fails exactly when some required key is named by no three-cell
    row after the header row; the error then lists exactly those keys,
    sorted and separated by commas. When every required key is named by
    such a row, the stats are returned and hold every required key. *)
Theorem fetch_altseason_stats_missing
    (page : str -> exc str) (locate_table : str -> option (list (list str)))
    (html : str) (trs : list (list str)) :
  first_page page ALTSEASON_URLS None = inl html ->
  locate_table html = Some trs ->
  (unmatched trs <> [] ->
   fetch_altseason_stats page locate_table
   = Raise (MISSING_PREFIX ++ join (u ", ") (unmatched trs)))
  /\ (unmatched trs = [] ->
      exists stats,
        fetch_altseason_stats page locate_table = Return stats
        /\ forall k, k ∈ required -> is_Some (stats !! k)).
Proof.
  intros Hpage Htable. unfold fetch_altseason_stats, stats_of_table.
  rewrite Hpage, Htable, missing_is_unmatched.
  split; intros Hun.
  - unfold MISSING_PREFIX. destruct (unmatched trs); [congruence | reflexivity].
  - rewrite Hun. eexists. split; [reflexivity |].
    intros k Hk. destruct (foldl stats_step ∅ (drop 1 trs) !! k) eqn:E; [eauto |].
    exfalso.
    assert (Hin : k ∈ unmatched trs).
    { rewrite <- missing_is_unmatched. apply list_elem_of_filter.
      split; [apply bool_decide_pack, E |].
      revert Hk. generalize k. apply Forall_forall.
      vm_compute. repeat constructor. }
    rewrite Hun in Hin. apply elem_of_nil in Hin. exact Hin.
Qed.

(** The theorem at a page whose table lacks the row of the total days. *)
Lemma fetch_altseason_stats_missing_witness :
  fetch_altseason_stats (fun _ => Return (u "<html>")) (fun _ => Some STATS_FIVE_ROWS)
  = Raise (MISSING_PREFIX ++ u "total_days").
Proof.
  destruct (fetch_altseason_stats_missing
              (fun _ => Return (u "<html>")) (fun _ => Some STATS_FIVE_ROWS)
              (u "<html>") STATS_FIVE_ROWS
              ltac:(vm_compute; reflexivity) ltac:(reflexivity)) as [H _].
  rewrite H; [vm_compute; reflexivity | vm_compute; discriminate].
Defined.

(** C9 as stated fails on a table in which every required key matches
    the label of some row but the row of the total days has four cells:
    the fetch fails and names [total_days], a key whose label did match. *)
Lemma stats_label_match_counterexample :
  forallb (fun k => existsb (label_matches k) (drop 1 STATS_FOUR_CELL_ROW)) required = true
  /\ stats_of_table STATS_FOUR_CELL_ROW = Raise (MISSING_PREFIX ++ u "total_days").
Proof. split; vm_compute; reflexivity. Qed.

End StatsTable.

(** ** Value normalizer *)

Section ValueNormalizer.
Import Generic.

(** The number [RE_NUM] cuts out of the two sample cells: the pattern
    takes one to three digits and then groups of exactly three, and at
    most one of [.] and [,] before the fraction. *)
Lemma re_num_sample_matches :
  (search RE_NUM (u "1,234.5") ≫= fun m => group (u "1,234.5") m 1) = Some (u "1,234")
  /\ (search RE_NUM (u "1234,5") ≫= fun m => group (u "1234,5") m 1) = Some (u "123").
Proof. split; vm_compute; reflexivity. Qed.

(** [_to_float] itself has the two branches the comma rules ask for. *)
Lemma to_float_comma_rules :
  _to_float (u "1,234.5") false = Some 1234.5%float
  /\ _to_float (u "1234,5") false = Some 1234.5%float.
Proof. split; vm_compute; reflexivity. Qed.

(** C2: what [_to_scalar] returns on the two sample cells of the
    specification, which has (1234.5, None) for both: (1.234, None) for
    "1,234.5", where the comma is read as the decimal point and the rest
    is dropped, and (123.0, None) for "1234,5", where the number ends
    after its third digit. *)
Theorem to_scalar_comma_period_samples :
  _to_scalar (u "1,234.5") = (Some 1.234%float, None)
  /\ _to_scalar (u "1234,5") = (Some 123%float, None)
  /\ feq 1.234 1234.5 = false
  /\ feq 123 1234.5 = false.
Proof. repeat split; vm_compute; reflexivity. Qed.

(** Digits beyond the third are lost whenever a number is written
    without grouping. *)
Lemma to_scalar_ungrouped_digits :
  _to_scalar (u "1000%") = (Some 100%float, Some (u "percent"))
  /\ _to_scalar (u "1234") = (Some 123%float, None).
Proof. split; vm_compute; reflexivity. Qed.

(** The samples of the specification that the code does satisfy. *)
Lemma to_scalar_samples :
  _to_scalar (u "(1.2M)") = (Some (-1200000)%float, Some (u "million"))
  /\ _to_scalar (u "—") = (None, None)
  /\ _to_scalar (u "n/a") = (None, None)
  /\ _to_scalar (u "") = (None, None).
Proof. repeat split; vm_compute; reflexivity. Qed.

(** C4 as stated fails at v = 1000 with no unit: the text is "1K", and
    normalizing it gives the unit class thousand. *)
Lemma roundtrip_unit_counterexample :
  In 1000%float ROUNDTRIP_VALUES /\ In None ROUNDTRIP_UNITS
  /\ _fmt_val (Some 1000%float) None = u "1K"
  /\ roundtrip 1000 None = (Some 1000%float, Some (u "thousand"))
  /\ (roundtrip 1000 None).2 <> None.
Proof.
  split; [vm_compute; tauto |]. split; [vm_compute; tauto |].
  split; [vm_compute; reflexivity |]. split; [vm_compute; reflexivity |].
  vm_compute; discriminate.
Qed.

Ltac roundtrip_case :=
  split; intros;
  first [ vm_compute; reflexivity
        | congruence
        | match goal with H : _ = true |- _ => vm_compute in H; discriminate H end
        | match goal with H : Some _ = Some _ |- _ => vm_compute in H; discriminate H end
        | match goal with H : None = Some _ |- _ => discriminate H end ].

(** C4 (as amended): for every value v of the list and every unit u of
    the list, formatting and normalizing again gives back exactly v when
    u is not percent, with the unit class of v's magnitude (none below
    1000, thousand from 1000, million from 1e6, billion from 1e9)
    whatever u was; and when u is percent and v is below 1000 it gives
    back v with the unit percent. *)
Theorem roundtrip_by_magnitude (v : float) (unit : option str) :
  In v ROUNDTRIP_VALUES -> In unit ROUNDTRIP_UNITS ->
  (unit <> Some (u "percent") -> roundtrip v unit = (Some v, magnitude_unit v))
  /\ (unit = Some (u "percent") -> flt v 1000 = true ->
      roundtrip v unit = (Some v, Some (u "percent"))).
Proof.
  unfold ROUNDTRIP_VALUES, ROUNDTRIP_UNITS. intros Hv Hu.
  repeat (destruct Hv as [<- | Hv]); try destruct Hv;
    repeat (destruct Hu as [<- | Hu]); try destruct Hu;
    roundtrip_case.
Qed.

(** The theorem at 1.5 million tagged "thousand": the value comes back,
    the unit comes back as million. *)
Lemma roundtrip_by_magnitude_witness :
  roundtrip 1500000 (Some (u "thousand")) = (Some 1500000%float, Some (u "million")).
Proof.
  destruct (roundtrip_by_magnitude 1500000 (Some (u "thousand"))
              ltac:(vm_compute; tauto) ltac:(vm_compute; tauto)) as [H _].
  rewrite H; [vm_compute; reflexivity | vm_compute; discriminate].
Defined.

End ValueNormalizer.

(** ** Signal rules *)

Section SignalRules.
Import Generic Indicators Bot.

(** The rule a merged custom indicator carries: the entry of [_RULES]
    for its code in upper case, the LT function when there is none. *)
Lemma get_indicators_last (customs : list custom) (ci : custom) :
  get_indicators (customs ++ [ci]) !! ci_key ci
  = Some (MkIndicator (ci_title ci) (ci_url ci)
            (Callable (rules_get _RULES (upper (or_else (ci_rule ci) []))
                                 _rule_long_if_actual_lt_forecast))).
Proof.
  unfold get_indicators. rewrite foldl_app. cbn [foldl].
  apply lookup_insert_eq.
Qed.

Lemma rules_get_LT (code : str) :
  code = u "LT" ->
  rules_get _RULES code _rule_long_if_actual_lt_forecast
  = _rule_long_if_actual_lt_forecast.
Proof. intros ->. vm_compute. reflexivity. Qed.

Lemma rules_get_unrecognized (code : str) :
  ~ recognized code ->
  rules_get _RULES code _rule_long_if_actual_lt_forecast
  = _rule_long_if_actual_lt_forecast.
Proof.
  unfold recognized. intros Hn. unfold _RULES. cbn [rules_get]. unfold str_eqb.
  rewrite !bool_decide_eq_false_2; [reflexivity | ..]; intros E; apply Hn; auto.
Qed.

(** [_rule_fomc_rate] never reads the previous value. *)
Lemma rule_fomc_rate_ignores_previous (r r' : row) :
  actual_val r = actual_val r' -> forecast_val r = forecast_val r' ->
  _rule_fomc_rate r = _rule_fomc_rate r'.
Proof. unfold _rule_fomc_rate. intros -> ->. reflexivity. Qed.

(** The branch of [_signal_from_rows] for a rule stored as the code
    string "FOMC" compares the actual value with the previous one. *)
Lemma rule_sig_fomc_code (code : str) (r : row) (a p : float) :
  upper code = u "FOMC" -> actual_val r = Some a -> previous_val r = Some p ->
  (fgt a p = true -> rule_sig (RuleCode code) r = u "Повышение ставки")
  /\ (fgt a p = false -> flt a p = true ->
      rule_sig (RuleCode code) r = u "Снижение ставки")
  /\ (fgt a p = false -> flt a p = false ->
      rule_sig (RuleCode code) r = u "Без изменений").
Proof.
  intros Hc Ha Hp. unfold rule_sig. rewrite Hc, Ha, Hp.
  change (str_eqb (u "FOMC") (u "FOMC")) with true. cbv iota.
  repeat split; intros; repeat match goal with H : _ = _ |- _ => rewrite H end;
    reflexivity.
Qed.

(** C1: the catalog rule of FOMC_RATE at rows where the rate went up
    (actual 5.5, previous 5.25). With no forecast the label is NEUTRAL,
    and with a forecast of 5.75 it is LONG; with the actual value below
    the previous one (5.0 against 5.25) and a forecast of 4.75 it is
    SHORT. The label follows the forecast, not the previous value, and
    is none of the rate labels. *)
Theorem fomc_rate_rule_follows_forecast :
  rule <$> (PRESET_INDICATORS !! u "FOMC_RATE") = Some (Callable _rule_fomc_rate)
  /\ rule_sig (Callable _rule_fomc_rate)
              (row_of_values (Some 5.5%float) None (Some 5.25%float)) = u "NEUTRAL"
  /\ rule_sig (Callable _rule_fomc_rate)
              (row_of_values (Some 5.5%float) (Some 5.75%float) (Some 5.25%float))
     = u "LONG"
  /\ rule_sig (Callable _rule_fomc_rate)
              (row_of_values (Some 5%float) (Some 4.75%float) (Some 5.25%float))
     = u "SHORT"
  /\ _signal_from_rows [row_of_values (Some 5.5%float) None (Some 5.25%float)]
                       (u "FOMC_RATE") (get_indicators [])
     = Some (u "Решение по процентной ставке ФРС США" ++ NL
               ++ u "⚠️ Факт: 5.5, прогноз не распознан. Пред.: 5.25 → NEUTRAL").
Proof. repeat split; vm_compute; reflexivity. Qed.

(** C3 as stated fails at a row whose actual value equals its forecast:
    the LT rule, as the catalog resolves the code, answers SHORT. *)
Lemma lt_rule_equal_counterexample :
  feq 3 3 = true
  /\ (exists meta,
        get_indicators [custom_with_rule (u "LT")] !! u "CUSTOM_0123456789" = Some meta
        /\ rule_sig (rule meta) (row_of_values (Some 3%float) (Some 3%float) None)
           = u "SHORT")
  /\ u "SHORT" <> LABEL_ON_FORECAST.
Proof.
  split; [vm_compute; reflexivity |]. split.
  - eexists. split; [apply (get_indicators_last [] (custom_with_rule (u "LT"))) |].
    vm_compute. reflexivity.
  - vm_compute. discriminate.
Qed.

(** C3 (as amended): for a custom indicator stored with the code LT (in
    any case) and merged by [get_indicators], the rule yields LONG when
    actual < forecast and SHORT otherwise, equality included, when both
    values are present, and NEUTRAL when one is missing. For a rule kept
    as the code string, [_signal_from_rows] has three labels (better,
    worse, on forecast) and a waiting label. All of them are total. *)
Theorem lt_rule_labels (customs : list custom) (ci : custom) (code : str) (r : row) :
  upper (or_else (ci_rule ci) []) = u "LT" ->
  upper code = u "LT" ->
  (exists meta,
     get_indicators (customs ++ [ci]) !! ci_key ci = Some meta
     /\ (forall a f, actual_val r = Some a -> forecast_val r = Some f ->
           (flt a f = true -> rule_sig (rule meta) r = u "LONG")
           /\ (flt a f = false -> rule_sig (rule meta) r = u "SHORT"))
     /\ (actual_val r = None \/ forecast_val r = None ->
         rule_sig (rule meta) r = u "NEUTRAL"))
  /\ (forall a f, actual_val r = Some a -> forecast_val r = Some f ->
        (flt a f = true ->
         rule_sig (RuleCode code) r = u "Лучше прогноза (меньше — лучше)")
        /\ (flt a f = false -> fgt a f = true ->
            rule_sig (RuleCode code) r = u "Хуже прогноза (меньше — лучше)")
        /\ (flt a f = false -> fgt a f = false ->
            rule_sig (RuleCode code) r = LABEL_ON_FORECAST))
  /\ (actual_val r = None \/ forecast_val r = None ->
      rule_sig (RuleCode code) r = u "Ждём факт/прогноз").
Proof.
  intros Hci Hcode. split; [| split].
  - eexists. split; [apply get_indicators_last |].
    cbn [rule rule_sig]. rewrite (rules_get_LT _ Hci).
    unfold _rule_long_if_actual_lt_forecast. split.
    + intros a f -> ->. split; intros ->; reflexivity.
    + intros [-> | ->]; [reflexivity |]. destruct (actual_val r); reflexivity.
  - intros a f Ha Hf. unfold rule_sig, LABEL_ON_FORECAST. rewrite Hcode, Ha, Hf.
    change (str_eqb (u "LT") (u "FOMC")) with false.
    change (str_eqb (u "LT") (u "LT")) with true. cbv iota.
    repeat split; intros; repeat match goal with H : _ = _ |- _ => rewrite H end;
      reflexivity.
  - unfold rule_sig. rewrite Hcode.
    change (str_eqb (u "LT") (u "FOMC")) with false.
    change (str_eqb (u "LT") (u "LT")) with true. cbv iota.
    intros [-> | ->]; [reflexivity |]. destruct (actual_val r); reflexivity.
Qed.

(** The theorem at a custom indicator stored with the code "lt" and a row
    whose actual value is below its forecast. *)
Lemma lt_rule_labels_witness :
  exists meta,
    get_indicators ([] ++ [custom_with_rule (u "lt")])
      !! ci_key (custom_with_rule (u "lt")) = Some meta
    /\ rule_sig (rule meta) (row_of_values (Some 2%float) (Some 3%float) None)
       = u "LONG".
Proof.
  destruct (lt_rule_labels [] (custom_with_rule (u "lt")) (u "lt")
              (row_of_values (Some 2%float) (Some 3%float) None)
              ltac:(vm_compute; reflexivity) ltac:(vm_compute; reflexivity))
    as [(meta & Hm & Hsig & _) _].
  exists meta. split; [exact Hm |].
  destruct (Hsig 2%float 3%float eq_refl eq_refl) as [H _].
  apply H. vm_compute. reflexivity.
Defined.

Lemma rule_sig_unrecognized (code : str) (r : row) :
  ~ recognized (upper code) ->
  rule_sig (RuleCode code) r = unrecognized_label code.
Proof.
  unfold recognized. intros Hn. unfold rule_sig, unrecognized_label, str_eqb.
  rewrite !bool_decide_eq_false_2; [reflexivity | ..]; intros E; apply Hn; auto.
Qed.

(** C5 as stated fails for a custom indicator stored with the code "XX":
    merged into the catalog and evaluated at a row with actual 2 and
    forecast 3, it answers LONG, the answer of the LT rule, and no label
    names the code. *)
Lemma unrecognized_code_counterexample :
  ~ recognized (upper (u "XX"))
  /\ _signal_from_rows [row_of_values (Some 2%float) (Some 3%float) None]
                       (u "CUSTOM_0123456789")
                       (get_indicators [custom_with_rule (u "XX")])
     = Some (u "My indicator" ++ NL ++ u "Факт: 2 • Прогноз: 3 → LONG")
  /\ contains (unrecognized_label (u "XX"))
              (u "My indicator" ++ NL ++ u "Факт: 2 • Прогноз: 3 → LONG") = false.
Proof.
  split; [| split; vm_compute; reflexivity].
  unfold recognized. vm_compute. intros [H | [H | H]]; discriminate H.
Qed.

Lemma foldl_keeps_other_keys (customs : list custom) (k : str) :
  Forall (fun ci => ci_key ci <> k) customs ->
  forall m : gmap str Indicator,
    foldl (fun result ci =>
             <[ ci_key ci := MkIndicator (ci_title ci) (ci_url ci)
                  (Callable (rules_get _RULES (upper (or_else (ci_rule ci) []))
                                       _rule_long_if_actual_lt_forecast)) ]> result)
          m customs !! k
    = m !! k.
Proof.
  induction customs as [| ci customs IH]; intros Hall m; cbn [foldl]; [reflexivity |].
  apply Forall_cons in Hall as [Hne Hall].
  rewrite (IH Hall). apply lookup_insert_ne. exact Hne.
Qed.

(** The entry of a stored record in the merged catalog, when no later
    record has its key. *)
Lemma get_indicators_record (pre post : list custom) (ci : custom) :
  Forall (fun c => ci_key c <> ci_key ci) post ->
  get_indicators (pre ++ ci :: post) !! ci_key ci
  = Some (MkIndicator (ci_title ci) (ci_url ci)
            (Callable (rules_get _RULES (upper (or_else (ci_rule ci) []))
                                 _rule_long_if_actual_lt_forecast))).
Proof.
  intros Hpost. unfold get_indicators. rewrite foldl_app. cbn [foldl].
  rewrite (foldl_keeps_other_keys post (ci_key ci) Hpost).
  apply lookup_insert_eq.
Qed.

(** The text of [_signal_from_rows] for a rule entry that is not the code
    FOMC: the no-data message for an empty list of rows, the message of
    the data not out yet when the top row has a forecast and no actual
    value, and otherwise a text that ends with the rule answer. *)
Lemma signal_text_cases (rows : list row) (key : str)
    (ind_map : gmap str Indicator) (meta : Indicator) :
  ind_map !! key = Some meta -> is_fomc_code (rule meta) = false ->
  exists text,
    _signal_from_rows rows key ind_map = Some text
    /\ match rows with
       | [] => text = h (title meta) ++ NL ++ NO_DATA
       | top :: _ =>
         match actual_val top, forecast_val top with
         | None, Some _ =>
           text = h (title meta) ++ NL ++ NOT_OUT
                    ++ _fmt_val (forecast_val top) (forecast_unit top)
         | _, _ => exists pre, text = pre ++ rule_sig (rule meta) top
         end
       end.
Proof.
  intros Hkey Hf. unfold _signal_from_rows, NO_DATA, NOT_OUT. rewrite Hkey.
  destruct rows as [| top rows]; [eexists; split; reflexivity |].
  rewrite Hf. eexists. split; [reflexivity |].
  destruct (actual_val top) as [a |], (forecast_val top) as [f |],
           (previous_val top) as [p |];
    try reflexivity; rewrite ?app_assoc; eexists; reflexivity.
Qed.

(** C5 (as amended): for a rule code written in ASCII or basic Cyrillic
    characters that is none of LT, GT, FOMC in upper case:
    - the rule application of [_signal_from_rows] on an indicator whose
      rule entry is that code string gives, on every row, the label
      naming the code in upper case;
    - for every key of the map that holds such an entry and every list
      of rows, [_signal_from_rows] returns a text: the title with the
      no-data message for an empty list, the title with the message of
      the data not out yet and the formatted forecast when the actual
      value of the top row is missing while its forecast is present, and
      otherwise a text that ends with that label;
    - every record of the custom store with that code, at whatever place
      of the store, as long as no later record has its key, is merged by
      [get_indicators] with the LT rule function, and its signal text
      ends with the answer of the LT rule. *)
Theorem unrecognized_rule_code
    (code : str) (r : row) (rows : list row) (key : str)
    (ind_map : gmap str Indicator) (meta : Indicator)
    (pre post : list custom) (ci : custom) :
  plain_code code -> ~ recognized (upper code) ->
  rule_sig (RuleCode code) r = unrecognized_label code
  /\ (ind_map !! key = Some meta -> rule meta = RuleCode code ->
      exists text,
        _signal_from_rows rows key ind_map = Some text
        /\ match rows with
           | [] => text = h (title meta) ++ NL ++ NO_DATA
           | top :: _ =>
             match actual_val top, forecast_val top with
             | None, Some _ =>
               text = h (title meta) ++ NL ++ NOT_OUT
                        ++ _fmt_val (forecast_val top) (forecast_unit top)
             | _, _ => exists pre', text = pre' ++ unrecognized_label code
             end
           end)
  /\ (or_else (ci_rule ci) [] = code ->
      Forall (fun c => ci_key c <> ci_key ci) post ->
      get_indicators (pre ++ ci :: post) !! ci_key ci
      = Some (MkIndicator (ci_title ci) (ci_url ci)
                (Callable _rule_long_if_actual_lt_forecast))
      /\ exists text,
           _signal_from_rows (r :: rows) (ci_key ci) (get_indicators (pre ++ ci :: post))
           = Some text
           /\ match actual_val r, forecast_val r with
              | None, Some _ =>
                text = h (ci_title ci) ++ NL ++ NOT_OUT
                         ++ _fmt_val (forecast_val r) (forecast_unit r)
              | _, _ => exists pre', text = pre' ++ _rule_long_if_actual_lt_forecast r
              end).
Proof.
  intros _ Hn. split; [apply rule_sig_unrecognized, Hn |]. split.
  - intros Hkey Hrule.
    assert (Hf : is_fomc_code (rule meta) = false).
    { rewrite Hrule. unfold is_fomc_code, str_eqb. apply bool_decide_eq_false_2.
      intros E. apply Hn. right; right. exact E. }
    destruct (signal_text_cases rows key ind_map meta Hkey Hf) as (text & Ht & Hshape).
    exists text. split; [exact Ht |].
    destruct rows as [| top rows']; [exact Hshape |].
    rewrite Hrule, (rule_sig_unrecognized code top Hn) in Hshape. exact Hshape.
  - intros Hci Hpost.
    assert (Hent : get_indicators (pre ++ ci :: post) !! ci_key ci
                   = Some (MkIndicator (ci_title ci) (ci_url ci)
                             (Callable _rule_long_if_actual_lt_forecast))).
    { rewrite (get_indicators_record pre post ci Hpost).
      rewrite Hci, (rules_get_unrecognized _ Hn). reflexivity. }
    split; [exact Hent |].
    destruct (signal_text_cases (r :: rows) (ci_key ci) _ _ Hent eq_refl)
      as (text & Ht & Hshape).
    exists text. split; [exact Ht | exact Hshape].
Qed.

(** The theorem at the code "xx": on a map that keeps the code string as
    its rule entry, at a row with actual 2 and forecast 3, the text ends
    with the label naming XX; and the record stored with that code,
    followed in the store by another record, is merged with the LT rule
    function and answers LONG at that row. *)
Lemma unrecognized_rule_code_witness :
  (exists text,
     _signal_from_rows [row_of_values (Some 2%float) (Some 3%float) None] (u "MY")
                       (code_map (u "xx"))
     = Some text
     /\ exists pre', text = pre' ++ unrecognized_label (u "xx"))
  /\ get_indicators [custom_with_rule (u "xx"); other_custom]
       !! ci_key (custom_with_rule (u "xx"))
     = Some (MkIndicator (ci_title (custom_with_rule (u "xx")))
               (ci_url (custom_with_rule (u "xx")))
               (Callable _rule_long_if_actual_lt_forecast))
  /\ exists text,
       _signal_from_rows [row_of_values (Some 2%float) (Some 3%float) None]
                         (ci_key (custom_with_rule (u "xx")))
                         (get_indicators [custom_with_rule (u "xx"); other_custom])
       = Some text
       /\ exists pre', text = pre' ++ _rule_long_if_actual_lt_forecast
                                        (row_of_values (Some 2%float) (Some 3%float) None).
Proof.
  assert (Hp : plain_code (u "xx")) by (vm_compute; repeat constructor).
  assert (Hn : ~ recognized (upper (u "xx"))).
  { unfold recognized. vm_compute. intros [H | [H | H]]; discriminate H. }
  destruct (unrecognized_rule_code (u "xx")
              (row_of_values (Some 2%float) (Some 3%float) None) []
              (u "MY") (code_map (u "xx"))
              (MkIndicator (u "My indicator")
                 (u "https://www.investing.com/economic-calendar/x-1")
                 (RuleCode (u "xx")))
              [] [other_custom] (custom_with_rule (u "xx")) Hp Hn) as (_ & _ & H3).
  destruct (unrecognized_rule_code (u "xx")
              (row_of_values (Some 2%float) (Some 3%float) None)
              [row_of_values (Some 2%float) (Some 3%float) None]
              (u "MY") (code_map (u "xx"))
              (MkIndicator (u "My indicator")
                 (u "https://www.investing.com/economic-calendar/x-1")
                 (RuleCode (u "xx")))
              [] [other_custom] (custom_with_rule (u "xx")) Hp Hn) as (_ & H2 & _).
  split.
  - apply H2; [vm_compute; reflexivity | reflexivity].
  - apply H3; [reflexivity |].
    apply Forall_cons. split; [vm_compute; discriminate | constructor].
Defined.

End SignalRules.

(** ** Further properties of the value normalizer and the row extractor *)

Section MoreGeneric.
Import Generic SpecX.

Lemma unit_lookup_in_names (tbl : list (str * (str * float))) (t name : str) (mul : float) :
  Forall (fun e => e.2.1 ∈ UNIT_NAMES) tbl ->
  unit_lookup_in tbl t = Some (name, mul) -> name ∈ UNIT_NAMES.
Proof.
  induction tbl as [| [k v] tbl IH]; simpl; [discriminate |].
  intros Hall. apply Forall_cons in Hall as [Hv Hall].
  destruct (str_eqb k t).
  - intros [= ->]. exact Hv.
  - apply IH, Hall.
Qed.

Lemma unit_tokens_names : Forall (fun e => e.2.1 ∈ UNIT_NAMES) _UNIT_TOKENS.
Proof.
  unfold _UNIT_TOKENS, UNIT_NAMES.
  repeat (apply Forall_cons; split; [cbn [fst snd]; set_solver |]).
  apply Forall_nil_2.
Qed.

(** X1: whatever the cell text, a unit is only ever returned together
    with a value, and it is one of percent, thousand, million, billion,
    trillion. *)
Theorem to_scalar_unit_invariant (txt : str) (v : option float) (un : str) :
  _to_scalar txt = (v, Some un) -> is_Some v /\ un ∈ UNIT_NAMES.
Proof.
  unfold _to_scalar. destruct txt as [| c txt]; [discriminate |].
  destruct (existsb _ no_data_tokens); [discriminate |].
  destruct (search RE_NUM _) as [m |]; [| discriminate].
  destruct (_to_float _ _) as [num |]; [| discriminate].
  destruct (_extract_unit_token _) as [tok |]; [| discriminate].
  destruct (unit_lookup tok) as [[name mul] |] eqn:E; [| discriminate].
  intros [= <- <-]. split; [eauto |].
  apply (unit_lookup_in_names _ _ _ _ unit_tokens_names E).
Qed.

Lemma to_scalar_unit_invariant_witness :
  is_Some (Some 3200000%float) /\ u "million" ∈ UNIT_NAMES.
Proof.
  apply (to_scalar_unit_invariant (u "3.2M") (Some 3200000%float) (u "million")).
  vm_compute. reflexivity.
Defined.

Lemma idx_from_first (heads : list str) (keys : list str) (default : Z) :
  forall i0 : nat,
    (Forall (fun h => head_hits keys h = false) heads
     /\ idx_from (Z.of_nat i0) heads keys default = default)
    \/ (exists i h,
          idx_from (Z.of_nat i0) heads keys default = Z.of_nat (i0 + i)
          /\ heads !! i = Some h /\ head_hits keys h = true
          /\ forall j h', (j < i)%nat -> heads !! j = Some h' -> head_hits keys h' = false).
Proof.
  induction heads as [| h heads IH]; intros i0; simpl.
  - left. split; [constructor | reflexivity].
  - fold (head_hits keys h). destruct (head_hits keys h) eqn:E.
    + right. exists O, h. rewrite Nat.add_0_r. repeat split; try assumption.
      intros j h' Hj. lia.
    + replace (Z.of_nat i0 + 1) with (Z.of_nat (S i0)) by lia.
      destruct (IH (S i0)) as [[Hall Hd] | (i & h1 & Hi & Hl & Hh & Hfirst)].
      * left. split; [constructor; assumption | exact Hd].
      * right. exists (S i), h1.
        replace (i0 + S i)%nat with (S i0 + i)%nat by lia.
        repeat split; try assumption.
        intros [| j] h' Hj Hl'; simpl in Hl'.
        -- injection Hl' as <-. exact E.
        -- apply (Hfirst j h'); [lia | exact Hl'].
Qed.

(** X2: the column index is the position of the first header cell that
    contains one of the keywords; when no header cell does (in particular
    when there are no headers) it is the default. *)
Theorem idx_for_first_match (heads : list str) (keys : list str) (default : Z) :
  (Forall (fun h => head_hits keys h = false) heads
   /\ _idx_for heads keys default = default)
  \/ (exists i h,
        _idx_for heads keys default = Z.of_nat i
        /\ heads !! i = Some h /\ head_hits keys h = true
        /\ forall j h', (j < i)%nat -> heads !! j = Some h' -> head_hits keys h' = false).
Proof. apply (idx_from_first heads keys default O). Qed.

Variable localize_iso : Z -> Z -> Z -> Z -> Z -> option str.

Lemma cell_from_end (vals : list str) (k : nat) (x : str) :
  (1 <= k <= length vals)%nat -> vals !! (length vals - k)%nat = Some x ->
  cell vals (- Z.of_nat k) = x.
Proof.
  intros Hk Hx. unfold cell, index.
  destruct (Z.ltb_spec (- Z.of_nat k) 0); [| lia].
  destruct (Z.ltb_spec (Z.of_nat (length vals) + - Z.of_nat k) 0); [lia |].
  replace (Z.to_nat (Z.of_nat (length vals) + - Z.of_nat k)) with (length vals - k)%nat by lia.
  rewrite Hx. reflexivity.
Qed.

(** X3: in a table without headers, a row of at least five cells gives
    its third cell from the end as the actual text, the second from the
    end as the forecast and the last one as the previous text, and the
    values of the record are the scalars of those cells; the date and
    the time are the first two cells. *)
Theorem headerless_row_columns (vals : list str) (d t a f p : str) :
  (5 <= length vals)%nat ->
  vals !! 0%nat = Some d -> vals !! 1%nat = Some t ->
  vals !! (length vals - 3)%nat = Some a ->
  vals !! (length vals - 2)%nat = Some f ->
  vals !! (length vals - 1)%nat = Some p ->
  let r := make_row localize_iso vals
             (_idx_for [] _HEAD_ACTUAL_KEYS (-3))
             (_idx_for [] _HEAD_FORECAST_KEYS (-2))
             (_idx_for [] _HEAD_PREV_KEYS (-1)) in
  date r = _clean d /\ time r = _clean t
  /\ actual r = _clean a /\ forecast r = _clean f /\ previous r = _clean p
  /\ (actual_val r, actual_unit r) = _to_scalar a
  /\ (forecast_val r, forecast_unit r) = _to_scalar f
  /\ (previous_val r, previous_unit r) = _to_scalar p.
Proof.
  intros Hlen Hd Ht Ha Hf Hp. cbv zeta.
  change (_idx_for [] _HEAD_ACTUAL_KEYS (-3)) with (- Z.of_nat 3).
  change (_idx_for [] _HEAD_FORECAST_KEYS (-2)) with (- Z.of_nat 2).
  change (_idx_for [] _HEAD_PREV_KEYS (-1)) with (- Z.of_nat 1).
  unfold make_row.
  rewrite (cell_from_end vals 3 a), (cell_from_end vals 2 f), (cell_from_end vals 1 p)
    by (assumption || lia).
  assert (Hc0 : cell vals 0 = d).
  { unfold cell, index. change (0 <? 0) with false. cbv iota.
    change (Z.to_nat 0) with 0%nat. rewrite Hd. reflexivity. }
  assert (Hc1 : cell vals 1 = t).
  { unfold cell, index. change (1 <? 0) with false. cbv iota.
    change (Z.to_nat 1) with 1%nat. rewrite Ht. reflexivity. }
  rewrite Hc0, Hc1.
  destruct (_to_scalar a), (_to_scalar f), (_to_scalar p), (_parse_revised a).
  repeat split; reflexivity.
Qed.

(** X4: the row loop keeps exactly the body rows of at least five cells,
    in source order and whatever their cells hold, and counts the
    others: the rows kept and the rows rejected add up to the body rows. *)
Theorem rows_of_keeps_wide_rows (trs : list (list str)) (ia ifc ip : Z) :
  (rows_of localize_iso trs ia ifc ip).1
  = map (fun tds => make_row localize_iso tds ia ifc ip) (filter wide_enough trs)
  /\ (rows_of localize_iso trs ia ifc ip).2
     = Z.of_nat (length (filter (fun tds => negb (wide_enough tds)) trs))
  /\ (length (rows_of localize_iso trs ia ifc ip).1
      + Z.to_nat (rows_of localize_iso trs ia ifc ip).2 = length trs)%nat.
Proof.
  induction trs as [| tds trs IH]; [repeat split; reflexivity |].
  cbn [rows_of]. destruct (rows_of localize_iso trs ia ifc ip) as [rows bad].
  cbn [fst snd] in IH. destruct IH as (IH1 & IH2 & IH3).
  destruct (wide_enough tds) eqn:E.
  - assert (Hw : (length tds <? 5)%nat = false).
    { apply Nat.ltb_ge. apply Nat.leb_le. exact E. }
    rewrite Hw. rewrite filter_cons_True by (rewrite E; exact I).
    rewrite filter_cons_False by (rewrite E; simpl; tauto).
    cbn [fst snd length map]. repeat split; [f_equal; exact IH1 | exact IH2 | lia].
  - assert (Hs : (length tds <? 5)%nat = true).
    { apply Nat.ltb_lt. apply Nat.leb_gt. exact E. }
    rewrite Hs. rewrite filter_cons_False by (rewrite E; simpl; tauto).
    rewrite filter_cons_True by (rewrite E; exact I).
    cbn [fst snd length]. repeat split; [exact IH1 | lia | lia].
Qed.

End MoreGeneric.

Lemma headerless_row_columns_witness :
  Generic.actual
    (Generic.make_row (fun _ _ _ _ _ => None)
       [u "04.09.2025"; u "15:30"; u "note"; u "237K"; u "230K"; u "229K"]
       (Generic._idx_for [] Generic._HEAD_ACTUAL_KEYS (-3))
       (Generic._idx_for [] Generic._HEAD_FORECAST_KEYS (-2))
       (Generic._idx_for [] Generic._HEAD_PREV_KEYS (-1)))
  = Generic._clean (u "237K").
Proof.
  exact (proj1 (proj2 (proj2
    (headerless_row_columns (fun _ _ _ _ _ => None)
       [u "04.09.2025"; u "15:30"; u "note"; u "237K"; u "230K"; u "229K"]
       (u "04.09.2025") (u "15:30") (u "237K") (u "230K") (u "229K")
       ltac:(simpl; lia) eq_refl eq_refl eq_refl eq_refl eq_refl)))).
Defined.

(** ** Further properties of the table locator and of the HTTP helper *)

Section MoreLocator.
Import Generic SpecX.

Lemma best_loop_candidates (tables : list table) :
  forall i best cands,
    (best_loop i tables best cands).2 = cands ++ map candidate_of tables.
Proof.
  induction tables as [| tb tables IH]; intros i best cands; simpl.
  - rewrite app_nil_r. reflexivity.
  - destruct (best.2 <? table_score tb); rewrite IH, <- app_assoc; reflexivity.
Qed.

(** X5: the diagnostic of the locator always counts the tables of the
    document and lists, in document order, the lowered header texts and
    the header score of every table; it names no pick exactly when the
    document has no table. *)
Theorem pick_target_table_diagnostic (sp : soup) :
  tables_found (_pick_target_table sp).2 = length sp
  /\ candidates (_pick_target_table sp).2 = map candidate_of sp
  /\ (picked (_pick_target_table sp).2 = None <-> sp = []).
Proof.
  destruct sp as [| t0 sp'].
  - repeat split; reflexivity.
  - unfold _pick_target_table.
    pose proof (best_loop_candidates (t0 :: sp') 0 (None, [], -1) []) as Hc.
    destruct (best_loop 0 (t0 :: sp') (None, [], -1) []) as [[[bt bh] bs] cands].
    cbn [snd] in Hc. rewrite app_nil_l in Hc. subst cands.
    assert (Hf : forall cands,
               let r := pick_fallback t0 (t0 :: sp') cands in
               tables_found r.2 = length (t0 :: sp') /\ candidates r.2 = cands
               /\ (picked r.2 = None <-> t0 :: sp' = [])).
    { intros cands. unfold pick_fallback.
      destruct (rows_loop 0 (t0 :: sp')) as [[i tb] |]; cbn [snd tables_found candidates picked];
        (split; [reflexivity | split; [reflexivity | split; discriminate]]). }
    destruct bt as [tb |]; [| apply Hf].
    destruct (0 <? bs); [| apply Hf].
    cbn [snd tables_found candidates picked].
    split; [reflexivity | split; [reflexivity | split; discriminate]].
Qed.

Lemma rows_loop_first (tables : list table) :
  forall i0 : nat,
    match rows_loop i0 tables with
    | Some (i, tb) =>
      exists j, i = (i0 + j)%nat /\ tables !! j = Some tb /\ looks_numeric tb = true
                /\ forall j' t, (j' < j)%nat -> tables !! j' = Some t ->
                                looks_numeric t = false
    | None => Forall (fun t => looks_numeric t = false) tables
    end.
Proof.
  induction tables as [| tb tables IH]; intros i0; cbn [rows_loop]; [constructor |].
  assert (Hnext : looks_numeric tb = false ->
    match rows_loop (S i0) tables with
    | Some (i, tb') =>
      exists j, i = (i0 + j)%nat /\ (tb :: tables) !! j = Some tb'
                /\ looks_numeric tb' = true
                /\ forall j' t, (j' < j)%nat -> (tb :: tables) !! j' = Some t ->
                                looks_numeric t = false
    | None => Forall (fun t => looks_numeric t = false) (tb :: tables)
    end).
  { intros Hno. specialize (IH (S i0)).
    destruct (rows_loop (S i0) tables) as [[i tb'] |].
    - destruct IH as (j & -> & Hj & Hn & Hfirst). exists (S j).
      repeat split; [lia | exact Hj | exact Hn |].
      intros [| j'] t Hlt Ht; simpl in Ht.
      + injection Ht as <-. exact Hno.
      + apply (Hfirst j' t); [lia | exact Ht].
    - constructor; assumption. }
  destruct (tbody_tr tb) as [| tr trs] eqn:Etr.
  { apply Hnext. unfold looks_numeric. rewrite Etr. reflexivity. }
  match goal with |- context [if ?b then _ else _] => destruct b eqn:Eb end.
  - exists O. rewrite Nat.add_0_r. repeat split.
    + unfold looks_numeric. rewrite Etr. exact Eb.
    + intros j' t Hlt. lia.
  - apply Hnext. unfold looks_numeric. rewrite Etr. exact Eb.
Qed.

(** X6: when no table of a non-empty document has a header score above
    zero, the locator returns the earliest table with a numeric-looking
    row of at least five cells among its first three body rows (marked
    as the row fallback, score 1); when no table has such a row it
    returns the last table of the document (marked [last_table], score
    0). *)
Theorem pick_target_table_fallbacks (sp : soup) :
  sp <> [] -> (forall t, t ∈ sp -> table_score t = 0) ->
  exists i tb dg,
    _pick_target_table sp = (Some (i, tb), Some (heads_of tb), dg)
    /\ sp !! i = Some tb
    /\ ((looks_numeric tb = true
         /\ (forall j t, (j < i)%nat -> sp !! j = Some t -> looks_numeric t = false)
         /\ picked dg = Some (heads_of tb, 1, FallbackRows))
        \/ (Forall (fun t => looks_numeric t = false) sp
            /\ i = pred (length sp)
            /\ picked dg = Some (heads_of tb, 0, FallbackLastTable))).
Proof.
  intros Hne Hzero. unfold _pick_target_table.
  destruct sp as [| t0 sp']; [congruence |].
  pose proof (best_loop_ok (t0 :: sp') [] (None, [], -1) [] best_ok_init) as Hok.
  simpl length in Hok. rewrite app_nil_l in Hok.
  destruct (best_loop 0 (t0 :: sp') (None, [], -1) []) as [[[bt bh] bs] cands].
  cbn [fst] in Hok. destruct Hok as [Hmax Hbest].
  assert (Hfb : exists i tb dg,
             pick_fallback t0 (t0 :: sp') cands = (Some (i, tb), Some (heads_of tb), dg)
             /\ (t0 :: sp') !! i = Some tb
             /\ ((looks_numeric tb = true
                  /\ (forall j t, (j < i)%nat -> (t0 :: sp') !! j = Some t ->
                                  looks_numeric t = false)
                  /\ picked dg = Some (heads_of tb, 1, FallbackRows))
                 \/ (Forall (fun t => looks_numeric t = false) (t0 :: sp')
                     /\ i = pred (length (t0 :: sp'))
                     /\ picked dg = Some (heads_of tb, 0, FallbackLastTable)))).
  { unfold pick_fallback. pose proof (rows_loop_first (t0 :: sp') 0) as Hr.
    destruct (rows_loop 0 (t0 :: sp')) as [[i tb] |].
    - destruct Hr as (j & -> & Hj & Hn & Hfirst). simpl Nat.add.
      do 3 eexists. split; [reflexivity |]. split; [exact Hj |].
      left. repeat split; [exact Hn | exact Hfirst].
    - do 3 eexists. split; [reflexivity |].
      split; [apply last_lookup; discriminate |].
      right. repeat split. exact Hr. }
  destruct bt as [[k tk] |]; [| exact Hfb].
  destruct Hbest as (Hk & Hs & _).
  assert (Hz : bs = 0).
  { rewrite Hs. apply Hzero. apply list_elem_of_lookup. eauto. }
  subst bs. rewrite Hz. change (0 <? 0) with false. cbv iota. exact Hfb.
Qed.

Lemma pick_target_table_fallbacks_witness :
  exists i tb dg,
    _pick_target_table
      [ Table [] [[u "a"; u "b"]];
        Table [u "When"] [[u "a"; u "b"; u "c"; u "d"; u "5%"]];
        Table [] [] ]
    = (Some (i, tb), Some (heads_of tb), dg) /\ i = 1%nat.
Proof.
  destruct (pick_target_table_fallbacks
              [ Table [] [[u "a"; u "b"]];
                Table [u "When"] [[u "a"; u "b"; u "c"; u "d"; u "5%"]];
                Table [] [] ])
    as (i & tb & dg & Hp & Hi & Hcase); [discriminate | |].
  - intros t Ht. apply list_elem_of_In in Ht. simpl in Ht.
    destruct Ht as [<- | [<- | [<- | []]]]; vm_compute; reflexivity.
  - exists i, tb, dg. split; [exact Hp |].
    vm_compute in Hp. injection Hp as <- _ _. reflexivity.
Defined.

Variable cloudscraper : str -> nat -> outcome.
Variable requests : str -> nat -> outcome.

Lemma attempt_body_first (url : str) (attempt : nat) (notes : list str) :
  match first_ok [cloudscraper url attempt; requests url attempt] with
  | Some text =>
    exists note, attempt_body cloudscraper requests url attempt notes
                 = inl (200, Some text, None, note)
  | None =>
    exists e notes', attempt_body cloudscraper requests url attempt notes
                     = inr (Some e, notes')
                     /\ startswith e TAG_NET = true
  end.
Proof.
  assert (Hr : forall notes0,
    match ok_body (requests url attempt) with
    | Some text =>
      exists note, requests_part requests url attempt notes0
                   = inl (200, Some text, None, note)
    | None =>
      exists e notes', requests_part requests url attempt notes0 = inr (Some e, notes')
                       /\ startswith e TAG_NET = true
    end).
  { intros notes0. unfold requests_part, ok_body.
    destruct (requests url attempt) as [e | status text].
    - do 2 eexists. split; [reflexivity | apply (startswith_app TAG_NET)].
    - destruct ((status =? 200) && negb (str_eqb text [])) eqn:E.
      + apply andb_prop in E as [E1 _]. apply Z.eqb_eq in E1. subst status. eauto.
      + do 2 eexists. split; [reflexivity | apply (startswith_app TAG_NET)]. }
  unfold first_ok, attempt_body. unfold ok_body at 1.
  destruct (cloudscraper url attempt) as [e | status text].
  - specialize (Hr (notes ++ [u "[NET] cloudscraper fail: " ++ e])).
    destruct (ok_body (requests url attempt)); exact Hr.
  - destruct ((status =? 200) && negb (str_eqb text [])) eqn:E.
    + apply andb_prop in E as [E1 _]. apply Z.eqb_eq in E1. subst status. eauto.
    + specialize (Hr (notes ++ [try_note attempt (u "cloudscraper") status])).
      destruct (ok_body (requests url attempt)); exact Hr.
Qed.

Lemma get_loop_first (url : str) (n : nat) :
  forall attempt last_err notes,
    (forall e, last_err = Some e -> startswith e TAG_NET = true) ->
    match first_ok (calls cloudscraper requests url attempt n) with
    | Some text =>
      exists note, get_loop cloudscraper requests url n attempt last_err notes
                   = (200, Some text, None, note)
    | None =>
      exists e note, get_loop cloudscraper requests url n attempt last_err notes
                     = (0, None, Some e, note)
                     /\ startswith e TAG_NET = true
    end.
Proof.
  induction n as [| n IH]; intros attempt last_err notes Hlast.
  - cbn [calls seq flat_map first_ok get_loop]. do 2 eexists. split; [reflexivity |].
    apply or_else_tagged; [exact Hlast | vm_compute; reflexivity].
  - cbn [get_loop]. unfold calls. cbn [seq flat_map app first_ok].
    pose proof (attempt_body_first url attempt notes) as Hb.
    cbn [first_ok] in Hb.
    destruct (ok_body (cloudscraper url attempt)) as [t1 |].
    + destruct Hb as [note ->]. eauto.
    + destruct (ok_body (requests url attempt)) as [t2 |].
      * destruct Hb as [note ->]. eauto.
      * destruct Hb as (e & notes' & -> & He).
        apply IH. intros e' [= <-]. exact He.
Qed.

(** X7: [_get] makes up to three attempts, each with the first client
    and then the second, and returns the body of the first call, in that
    order, that answers with status 200 and a non-empty text; when none
    of the six calls does, it returns status 0, no text and an error
    that starts with the tag NET. *)
Theorem get_returns_first_success (url : str) :
  match first_ok (calls cloudscraper requests url 0 3) with
  | Some text =>
    exists note, _get cloudscraper requests url = (200, Some text, None, note)
  | None =>
    exists e note, _get cloudscraper requests url = (0, None, Some e, note)
                   /\ startswith e TAG_NET = true
  end.
Proof. apply get_loop_first. discriminate. Qed.

End MoreLocator.

(** ** The text table and the column widths of the image *)

Section MoreTextTable.
Import Generic TextTable SpecX.

Lemma ellipsis_length : length (u "…") = 1%nat.
Proof. vm_compute. reflexivity. Qed.

Lemma bar_length : length V = 1%nat.
Proof. vm_compute. reflexivity. Qed.

(** X8: for a width of at least 1, [cut_pad] always gives exactly that
    many characters: the stripped text padded with spaces when it fits,
    and otherwise its first w - 1 characters followed by an ellipsis. *)
Theorem cut_pad_width (s : str) (w : Z) :
  1 <= w ->
  Z.of_nat (length (cut_pad s w)) = w
  /\ (Z.of_nat (length (strip s)) <= w ->
      cut_pad s w = strip s ++ replicate (Z.to_nat w - length (strip s)) SP)
  /\ (w < Z.of_nat (length (strip s)) ->
      cut_pad s w = take (Z.to_nat w - 1) (strip s) ++ u "…").
Proof.
  intros Hw. unfold cut_pad, ljust. set (t := strip s).
  destruct (Z.ltb_spec w (Z.of_nat (length t))) as [Hlong | Hfit].
  - assert (Hs : slice_to t (w - 1) = take (Z.to_nat w - 1) t).
    { unfold slice_to. destruct (Z.ltb_spec (w - 1) 0); [lia |].
      f_equal. lia. }
    rewrite Hs.
    assert (Hl : length (take (Z.to_nat w - 1) t ++ u "…") = Z.to_nat w).
    { rewrite length_app, length_take, ellipsis_length. lia. }
    rewrite Hl. replace (Z.to_nat (w - Z.of_nat (Z.to_nat w))) with O by lia.
    cbn [replicate]. rewrite app_nil_r.
    split; [rewrite Hl; lia |]. split; [lia | reflexivity].
  - replace (Z.to_nat (w - Z.of_nat (length t))) with (Z.to_nat w - length t)%nat by lia.
    split; [rewrite length_app, length_replicate; lia |].
    split; [reflexivity | lia].
Qed.

Lemma cut_pad_width_witness :
  Z.of_nat (length (cut_pad (u "  Sep 04, 2025 (Aug) ") 12)) = 12.
Proof. apply (cut_pad_width (u "  Sep 04, 2025 (Aug) ") 12). lia. Defined.

Lemma cut_pad_length (s : str) (w : Z) :
  1 <= w -> length (cut_pad s w) = Z.to_nat w.
Proof.
  unfold cut_pad, ljust. set (t := strip s). intros Hw.
  destruct (Z.ltb_spec w (Z.of_nat (length t))) as [Hlong | Hfit].
  - unfold slice_to. destruct (Z.ltb_spec (w - 1) 0); [lia |].
    rewrite !length_app, length_take, ellipsis_length, length_replicate. lia.
  - rewrite length_app, length_replicate. lia.
Qed.

Lemma cells_line_length (c : cells) : length (cells_line c) = LINE_WIDTH.
Proof.
  unfold cells_line. rewrite !length_app, !bar_length.
  rewrite !cut_pad_length by (vm_compute; discriminate).
  reflexivity.
Qed.

Lemma data_of_length (rows : list row) (max_rows : Z) :
  length (data_of rows max_rows) = Nat.max 1 (length (slice_to rows max_rows)).
Proof.
  unfold data_of. rewrite <- (length_map data_row (slice_to rows max_rows)).
  destruct (map data_row (slice_to rows max_rows)); simpl; lia.
Qed.

Lemma table_lines_widths (rows : list row) (max_rows : Z) :
  Forall (fun l => length l = LINE_WIDTH) (table_lines rows max_rows)
  /\ length (table_lines rows max_rows)
     = (4 + Nat.max 1 (length (slice_to rows max_rows)))%nat.
Proof.
  split.
  - unfold table_lines.
    repeat (apply Forall_cons; split; [first [apply cells_line_length | vm_compute; reflexivity] |]).
    apply Forall_app. split.
    + apply Forall_forall. intros l Hl. apply list_elem_of_fmap in Hl as (c & -> & _).
      apply cells_line_length.
    + apply Forall_cons. split; [vm_compute; reflexivity | constructor].
  - unfold table_lines. cbn [app length]. rewrite length_app, length_map, data_of_length.
    cbn [length]. lia.
Qed.

Section Widths.

Variable Font : Type.
Variable _text_size : str -> Font -> Z * Z.

Lemma widen_above_min (ws : list Z) (i : nat) (w : Z) :
  widths_above_min ws -> widths_above_min (widen ws i w).
Proof.
  intros (a & b & c & d & e & -> & Ha & Hb & Hc & Hd & He). unfold widen.
  destruct i as [| [| [| [| [| i]]]]]; cbn;
    do 5 eexists; (split; [reflexivity |]); lia.
Qed.

Lemma heads_loop_above_min (heads : list str) (f_head : Font) :
  forall i ws,
    widths_above_min ws -> (i <= 5)%nat ->
    match heads_loop Font _text_size i heads f_head ws with
    | Some ws' => widths_above_min ws' /\ (i + length heads <= 5)%nat
    | None => (5 < i + length heads)%nat
    end.
Proof.
  induction heads as [| head heads IH]; intros i ws Hws Hi; cbn [heads_loop length].
  - split; [exact Hws | lia].
  - pose proof (widen_above_min ws i (_text_size head f_head).1 Hws) as Hw.
    assert (Hlen : length ws = 5%nat).
    { destruct Hws as (a & b & c & d & e & -> & _). reflexivity. }
    destruct (ws !! i) as [old |] eqn:E.
    + apply lookup_lt_Some in E.
      specialize (IH (S i) _ Hw ltac:(lia)).
      destruct (heads_loop Font _text_size (S i) heads f_head _).
      * destruct IH. split; [assumption | lia].
      * lia.
    + apply lookup_ge_None in E. lia.
Qed.

Lemma cells_loop_above_min (txts : list str) (f_head f_cell : Font) :
  forall i ws,
    widths_above_min ws ->
    widths_above_min (cells_loop Font _text_size i txts f_head f_cell ws).
Proof.
  induction txts as [| txt txts IH]; intros i ws Hws; cbn [cells_loop]; [exact Hws |].
  apply IH, widen_above_min, Hws.
Qed.

Lemma rows_loop_above_min (rows : list row) (f_head f_cell : Font) :
  forall ws,
    widths_above_min ws ->
    widths_above_min (TextTable.rows_loop Font _text_size rows f_head f_cell ws).
Proof.
  unfold TextTable.rows_loop.
  induction rows as [| r rows IH]; intros ws Hws; cbn [foldl]; [exact Hws |].
  apply IH, cells_loop_above_min, Hws.
Qed.

(** X10: with at most five headers, and whatever the text measures and
    the rows, the five column widths of the image stay within their
    bounds: 170..260 and 96..140 pixels for the date and the time,
    130..230 for each of the three numeric columns. A sixth header
    makes the header loop fail with an IndexError. *)
Theorem auto_col_widths_bounds (rows : list row) (heads : list str)
    (f_head f_cell : Font) :
  ((length heads <= 5)%nat ->
   exists ws, _auto_col_widths Font _text_size rows heads f_head f_cell = Some ws
              /\ widths_in_bounds ws)
  /\ ((5 < length heads)%nat ->
      _auto_col_widths Font _text_size rows heads f_head f_cell = None).
Proof.
  unfold _auto_col_widths.
  assert (H0 : widths_above_min min_w).
  { unfold min_w. do 5 eexists. split; [reflexivity |]. lia. }
  pose proof (heads_loop_above_min heads f_head 0 min_w H0 ltac:(lia)) as Hh.
  destruct (heads_loop Font _text_size 0 heads f_head min_w) as [ws |].
  - destruct Hh as [Hws Hlen]. split; [| lia]. intros _.
    eexists. split; [reflexivity |].
    pose proof (rows_loop_above_min (slice_to rows 12) f_head f_cell ws Hws)
      as (a & b & c & d & e & -> & Ha & Hb & Hc & Hd & He).
    unfold clamp, max_w, add_numeric. cbn.
    do 5 eexists. split; [reflexivity |]. lia.
  - split; [lia | reflexivity].
Qed.

End Widths.

Lemma auto_col_widths_bounds_witness :
  exists ws,
    _auto_col_widths unit (fun s _ => (Z.of_nat (length s) * 9, 10))
      [] [u "RELEASE DATE"; u "TIME"; u "ACTUAL"; u "FORECAST"; u "PREVIOUS"] tt tt
    = Some ws /\ widths_in_bounds ws.
Proof.
  apply (proj1 (auto_col_widths_bounds unit (fun s _ => (Z.of_nat (length s) * 9, 10))
                  [] [u "RELEASE DATE"; u "TIME"; u "ACTUAL"; u "FORECAST"; u "PREVIOUS"]
                  tt tt)).
  simpl. lia.
Defined.

End MoreTextTable.

(** ** Further properties of the catalog and of the signal text *)

Section MoreSignals.
Import Generic Indicators Bot Storage SpecX.

Lemma label_long : u "LONG" ∈ THREE_LABELS.
Proof. apply list_elem_of_here. Qed.

Lemma label_short : u "SHORT" ∈ THREE_LABELS.
Proof. apply list_elem_of_further, list_elem_of_here. Qed.

Lemma label_neutral : u "NEUTRAL" ∈ THREE_LABELS.
Proof. do 2 apply list_elem_of_further. apply list_elem_of_here. Qed.

Ltac three_labels :=
  first [ apply label_long | apply label_short | apply label_neutral ].

Lemma rule_lt_three (r : row) : _rule_long_if_actual_lt_forecast r ∈ THREE_LABELS.
Proof.
  unfold _rule_long_if_actual_lt_forecast.
  destruct (actual_val r) as [a |], (forecast_val r) as [f |]; try three_labels.
  destruct (flt a f); three_labels.
Qed.

Lemma rule_gt_three (r : row) : _rule_long_if_actual_gt_forecast r ∈ THREE_LABELS.
Proof.
  unfold _rule_long_if_actual_gt_forecast.
  destruct (actual_val r) as [a |], (forecast_val r) as [f |]; try three_labels.
  destruct (fgt a f); three_labels.
Qed.

Lemma rule_short_three (r : row) : _rule_short_if_actual_gt_forecast r ∈ THREE_LABELS.
Proof.
  unfold _rule_short_if_actual_gt_forecast.
  destruct (actual_val r) as [a |], (forecast_val r) as [f |]; try three_labels.
  destruct (fgt a f); three_labels.
Qed.

Lemma rule_fomc_three (r : row) : _rule_fomc_rate r ∈ THREE_LABELS.
Proof.
  unfold _rule_fomc_rate.
  destruct (actual_val r) as [a |], (forecast_val r) as [f |]; try three_labels.
  destruct (flt a f); three_labels.
Qed.

Lemma rules_get_three (code : str) (r : row) :
  rules_get _RULES code _rule_long_if_actual_lt_forecast r ∈ THREE_LABELS.
Proof.
  unfold _RULES. cbn [rules_get].
  repeat match goal with |- context [if ?b then _ else _] => destruct b end;
    first [ apply rule_lt_three | apply rule_gt_three | apply rule_fomc_three ].
Qed.

Lemma callable_three (f : row -> str) :
  (forall r, f r ∈ THREE_LABELS) -> three_way_rule (Callable f).
Proof. intros Hf. exists f. split; [reflexivity | exact Hf]. Qed.

Lemma presets_three_way : Forall (fun e => three_way_rule (rule e.2)) PRESET_LIST.
Proof.
  unfold PRESET_LIST.
  repeat (apply Forall_cons; split;
          [cbn [snd rule]; apply callable_three;
           first [ exact rule_short_three | exact rule_gt_three | exact rule_fomc_three ] |]).
  apply Forall_nil_2.
Qed.

Lemma get_indicators_three_way (customs : list custom) :
  forall m : gmap str Indicator,
    map_Forall (fun _ meta => three_way_rule (rule meta)) m ->
    map_Forall (fun _ meta => three_way_rule (rule meta))
      (foldl (fun result ci =>
                <[ ci_key ci := MkIndicator (ci_title ci) (ci_url ci)
                     (Callable (rules_get _RULES (upper (or_else (ci_rule ci) []))
                                          _rule_long_if_actual_lt_forecast)) ]> result)
             m customs).
Proof.
  induction customs as [| ci customs IH]; intros m Hm; cbn [foldl]; [exact Hm |].
  apply IH. apply map_Forall_insert_2; [| exact Hm].
  cbn [rule]. apply callable_three. intros r. apply rules_get_three.
Qed.

Lemma catalog_rule_three_way (customs : list custom) (key : str) (meta : Indicator) :
  get_indicators customs !! key = Some meta -> three_way_rule (rule meta).
Proof.
  intros Hk.
  assert (Hall : map_Forall (fun _ meta => three_way_rule (rule meta))
                            (get_indicators customs)).
  { apply get_indicators_three_way. intros k m Hm.
    apply elem_of_list_to_map_2 in Hm.
    pose proof presets_three_way as Hp. rewrite Forall_forall in Hp.
    apply (Hp (k, m) Hm). }
  apply (Hall key meta Hk).
Qed.

(** X11: every entry of the catalog that [get_indicators] returns,
    preset or custom and whatever rule code the store holds, carries a
    rule function, never a rule code, and that function answers LONG,
    SHORT or NEUTRAL on every row. *)
Theorem get_indicators_rules_are_functions
    (customs : list custom) (key : str) (meta : Indicator) :
  get_indicators customs !! key = Some meta ->
  exists f, rule meta = Callable f /\ forall r, f r ∈ THREE_LABELS.
Proof. apply catalog_rule_three_way. Qed.

Lemma get_indicators_rules_are_functions_witness :
  exists f, Callable _rule_fomc_rate = Callable f /\ forall r, f r ∈ THREE_LABELS.
Proof.
  apply (get_indicators_rules_are_functions [] (u "FOMC_RATE")
           (MkIndicator (u "Решение по процентной ставке ФРС США")
              (u "https://ru.investing.com/economic-calendar/interest-rate-decision-168")
              (Callable _rule_fomc_rate))).
  vm_compute. reflexivity.
Defined.

Variable md5_hexdigest : str -> str.

Lemma make_key_prefix (chat_id : Z) (title : str) :
  startswith (_make_key md5_hexdigest chat_id title) CUSTOM_PREFIX = true.
Proof. unfold _make_key. apply (startswith_app CUSTOM_PREFIX). Qed.

Lemma preset_keys_plain (k : str) (meta : Indicator) :
  PRESET_INDICATORS !! k = Some meta -> startswith k CUSTOM_PREFIX = false.
Proof.
  intros Hk. apply elem_of_list_to_map_2 in Hk.
  assert (Hall : Forall (fun e : str * Indicator => startswith e.1 CUSTOM_PREFIX = false)
                        PRESET_LIST).
  { unfold PRESET_LIST.
    repeat (apply Forall_cons; split; [vm_compute; reflexivity |]).
    apply Forall_nil_2. }
  rewrite Forall_forall in Hall. apply (Hall (k, meta) Hk).
Qed.

(** X12: the keys [_make_key] builds start with CUSTOM_, which no preset
    key does; so when the keys of the stored custom indicators were
    built by [_make_key], merging them leaves every preset of the
    catalog as it is, whatever the store holds. *)
Theorem custom_keys_keep_presets (customs : list custom) (k : str) (meta : Indicator) :
  Forall (fun ci => exists chat_id title,
                      ci_key ci = _make_key md5_hexdigest chat_id title) customs ->
  PRESET_INDICATORS !! k = Some meta ->
  get_indicators customs !! k = Some meta.
Proof.
  intros Hkeys Hk. unfold get_indicators.
  rewrite foldl_keeps_other_keys; [exact Hk |].
  apply Forall_forall. intros ci Hci Heq.
  rewrite Forall_forall in Hkeys. destruct (Hkeys ci Hci) as (chat_id & title & Hmk).
  pose proof (make_key_prefix chat_id title) as Hp.
  rewrite <- Hmk, Heq, (preset_keys_plain k meta Hk) in Hp. discriminate Hp.
Qed.

End MoreSignals.

Lemma custom_keys_keep_presets_witness :
  Indicators.get_indicators
    [ Indicators.Custom
        (Storage._make_key (fun _ => u "0123456789abcdef0123456789abcdef") 42 (u "FOMC_RATE"))
        (u "FOMC_RATE") (u "https://example.org") (Some (u "GT")) ]
    !! u "FOMC_RATE"
  = Some (Indicators.MkIndicator (u "Решение по процентной ставке ФРС США")
            (u "https://ru.investing.com/economic-calendar/interest-rate-decision-168")
            (Indicators.Callable Indicators._rule_fomc_rate)).
Proof.
  apply (custom_keys_keep_presets (fun _ => u "0123456789abcdef0123456789abcdef")).
  - apply Forall_cons. split; [exists 42, (u "FOMC_RATE"); reflexivity | constructor].
  - vm_compute. reflexivity.
Defined.

(** ** The escaped title and the shape of the signal text *)

Section MoreSignalText.
Import Generic Indicators Bot SpecX.

Lemma escape_cp_safe (c : N) : Forall (fun x => markup_char x = false) (escape_cp c).
Proof.
  unfold escape_cp.
  repeat match goal with
         | |- context [if (c =? ?n)%N then _ else _] =>
           let E := fresh "E" in
           destruct (c =? n)%N eqn:E;
           [vm_compute; repeat constructor |]
         end.
  apply Forall_cons. split; [| constructor].
  unfold markup_char. rewrite E0, E1, E2, E3. reflexivity.
Qed.

Lemma escape_cp_plain (c : N) : escaped_char c = false -> escape_cp c = [c].
Proof.
  unfold escaped_char, markup_char, escape_cp. intros H.
  rewrite !orb_false_iff in H. destruct H as (H38 & ((H60 & H62) & H34) & H39).
  rewrite H38, H60, H62, H34, H39. reflexivity.
Qed.

(** X13: the text [h] returns never holds [<], [>] or a quote, whatever
    the input; and a text with none of the five characters [&], [<],
    [>], double and single quote is returned as it is. *)
Theorem html_escape_markup_free (s : str) :
  Forall (fun x => markup_char x = false) (h s)
  /\ (Forall (fun x => escaped_char x = false) s -> h s = s).
Proof.
  unfold h, html_escape. split.
  - induction s as [| c s IH]; cbn [flat_map]; [constructor |].
    apply Forall_app. split; [apply escape_cp_safe | exact IH].
  - induction s as [| c s IH]; cbn [flat_map]; [reflexivity |].
    intros Hall. apply Forall_cons in Hall as [Hc Hall].
    rewrite (escape_cp_plain c Hc), (IH Hall). reflexivity.
Qed.

Lemma html_escape_markup_free_witness : h (u "Core PCE, m/m") = u "Core PCE, m/m".
Proof.
  apply (proj2 (html_escape_markup_free (u "Core PCE, m/m"))).
  vm_compute. repeat constructor.
Defined.

Lemma ends_with_label_base (lab : str) :
  lab ∈ THREE_LABELS -> ends_with_label (u " → " ++ lab).
Proof. intros Hl. exists [], lab. split; [exact Hl | reflexivity]. Qed.

Lemma ends_with_label_unparsed (lab : str) :
  lab ∈ THREE_LABELS -> ends_with_label (u ", прогноз не распознан → " ++ lab).
Proof.
  intros Hl. exists (u ", прогноз не распознан"), lab. split; [exact Hl |].
  assert (E : u ", прогноз не распознан → " = u ", прогноз не распознан" ++ u " → ")
    by (vm_compute; reflexivity).
  rewrite E, <- app_assoc. reflexivity.
Qed.

Lemma ends_with_label_app (x text : str) :
  ends_with_label text -> ends_with_label (x ++ text).
Proof.
  intros (pre & lab & Hl & ->). exists (x ++ pre), lab.
  split; [exact Hl | apply app_assoc].
Qed.

Lemma ends_with_label_cons (c : N) (text : str) :
  ends_with_label text -> ends_with_label (c :: text).
Proof. apply (ends_with_label_app [c]). Qed.

Ltac ends_with_label :=
  lazymatch goal with
  | |- ends_with_label (u " → " ++ _) => apply ends_with_label_base
  | |- ends_with_label (u ", прогноз не распознан → " ++ _) =>
    apply ends_with_label_unparsed
  | |- ends_with_label (_ ++ _) => apply ends_with_label_app; ends_with_label
  | |- ends_with_label (_ :: _) => apply ends_with_label_cons; ends_with_label
  end.

(** X15: on a catalog returned by [get_indicators], the text for a top
    row ends with an arrow and one of LONG, SHORT, NEUTRAL, unless the
    actual value is missing while the forecast is present; none of the
    labels of the rule-code branches of [_signal_from_rows] can appear
    there. *)
Theorem catalog_signal_ends_with_label
    (customs : list custom) (key : str) (top : row) (rows : list row) (text : str) :
  _signal_from_rows (top :: rows) key (get_indicators customs) = Some text ->
  (actual_val top = None -> forecast_val top = None) ->
  exists pre lab, lab ∈ THREE_LABELS /\ text = pre ++ u " → " ++ lab.
Proof.
  change (_signal_from_rows (top :: rows) key (get_indicators customs) = Some text ->
          (actual_val top = None -> forecast_val top = None) -> ends_with_label text).
  unfold _signal_from_rows.
  destruct (get_indicators customs !! key) as [meta |] eqn:Hk; [| discriminate].
  destruct (catalog_rule_three_way customs key meta Hk) as (f & Hrule & Hf).
  rewrite Hrule. cbn [is_fomc_code rule_sig].
  assert (Hs : forall x, ends_with_label x -> Some x = Some text -> ends_with_label text).
  { intros x Hx [= ->]. exact Hx. }
  intros Ht Hmiss. revert Ht. specialize (Hf top).
  destruct (actual_val top) as [a |], (forecast_val top) as [fc |],
           (previous_val top) as [p |];
    try (specialize (Hmiss eq_refl); discriminate Hmiss);
    apply Hs; ends_with_label; exact Hf.
Qed.

Lemma catalog_signal_ends_with_label_witness :
  exists pre lab,
    lab ∈ THREE_LABELS
    /\ u "Решение по процентной ставке ФРС США" ++ NL
         ++ u "Факт: 5.5 • Прогноз: 5.75 → LONG"
       = pre ++ u " → " ++ lab.
Proof.
  apply (catalog_signal_ends_with_label [] (u "FOMC_RATE")
           (Spec.row_of_values (Some 5.5%float) (Some 5.75%float) (Some 5.25%float)) []).
  - vm_compute. reflexivity.
  - discriminate.
Defined.

End MoreSignalText.
(** ** Altseason sources and stats rows *)

Section MoreAltseason.
Import Altseason SpecX.

Variable page : str -> exc str.
Variable visible_text : str -> str.

Lemma first_key_in {A} (hit : A -> bool) (tbl : list (str * list A)) (k : str) :
  first_key hit tbl = Some k -> k ∈ tbl.*1.
Proof.
  induction tbl as [| [key entries] tbl IH]; simpl; [discriminate |].
  destruct (existsb hit entries).
  - intros [= <-]. apply list_elem_of_here.
  - intros H. apply list_elem_of_further, IH, H.
Qed.

Lemma match_key_required (label key : str) :
  _match_key label = Some key -> key ∈ required.
Proof.
  assert (E1 : _LABEL_VARIANTS.*1 = required) by (vm_compute; reflexivity).
  assert (E2 : _KEYWORDS.*1 = required) by (vm_compute; reflexivity).
  unfold _match_key.
  destruct (first_key _ _LABEL_VARIANTS) as [k |] eqn:E.
  - intros [= <-]. rewrite <- E1. apply (first_key_in _ _ _ E).
  - intros H. rewrite <- E2. apply (first_key_in _ _ _ H).
Qed.

Lemma stats_step_keys (m : gmap str stat) (tds : list str) :
  (forall k, is_Some (m !! k) -> k ∈ required) ->
  forall k, is_Some (stats_step m tds !! k) -> k ∈ required.
Proof.
  intros Hm k. unfold stats_step.
  destruct tds as [| c0 [| c1 [| c2 [| c3 tds]]]]; try apply Hm.
  destruct (_match_key (_normalize c0)) as [key |] eqn:E; [| apply Hm].
  destruct (decide (key = k)) as [<- | Hne].
  - intros _. apply (match_key_required _ _ E).
  - rewrite lookup_insert_ne by exact Hne. apply Hm.
Qed.

Lemma stats_loop_keys (rows : list (list str)) :
  forall m : gmap str stat,
    (forall k, is_Some (m !! k) -> k ∈ required) ->
    forall k, is_Some (foldl stats_step m rows !! k) -> k ∈ required.
Proof.
  induction rows as [| tds rows IH]; intros m Hm; simpl; [exact Hm |].
  apply IH, stats_step_keys, Hm.
Qed.

Lemma required_sorted (k : str) : k ∈ required -> k ∈ sorted required.
Proof.
  revert k. apply Forall_forall. vm_compute. repeat constructor.
Qed.

(** X16: [_match_key] answers with one of the six required keys only, and
    the stats a located table yields hold exactly those six keys. *)
Theorem stats_keys_exactly_required (trs : list (list str)) (stats : gmap str stat) :
  stats_of_table trs = Return stats ->
  (forall label key, _match_key label = Some key -> key ∈ required)
  /\ forall k, is_Some (stats !! k) <-> k ∈ required.
Proof.
  unfold stats_of_table.
  destruct (filter _ (sorted required)) as [| k0 ks] eqn:EF; [| discriminate].
  intros [= <-]. split; [exact match_key_required |].
  intros k. split.
  - apply stats_loop_keys. intros k' [x Hx]. rewrite lookup_empty in Hx. discriminate.
  - intros Hk. destruct (foldl stats_step ∅ (drop 1 trs) !! k) eqn:E; [eauto |].
    exfalso.
    assert (Hin : k ∈ filter (fun k => bool_decide (foldl stats_step (∅ : gmap str stat)
                                                      (drop 1 trs) !! k = None))
                             (sorted required)).
    { apply list_elem_of_filter. split; [apply bool_decide_pack, E |].
      apply required_sorted, Hk. }
    rewrite EF in Hin. apply elem_of_nil in Hin. exact Hin.
Qed.

Lemma stats_keys_exactly_required_witness :
  is_Some (foldl stats_step (∅ : gmap str stat) (drop 1 STATS_SIX_ROWS) !! u "avg_length")
  <-> u "avg_length" ∈ required.
Proof.
  apply (stats_keys_exactly_required STATS_SIX_ROWS).
  vm_compute. reflexivity.
Defined.

Lemma stats_loop_last_row (rows : list (list str)) (k : str) (st : stat) :
  forall m : gmap str stat,
    foldl stats_step m rows !! k = Some st ->
    (m !! k = Some st /\ existsb (Spec.row_names k) rows = false)
    \/ exists pre c0 c1 c2 post,
         rows = pre ++ [c0; c1; c2] :: post
         /\ _match_key (_normalize c0) = Some k
         /\ st = Stat (_parse_int (Some c1)) (_parse_int (Some c2))
         /\ existsb (Spec.row_names k) post = false.
Proof.
  induction rows as [| tds rows IH] using rev_ind; intros m.
  - simpl. intros H. left. split; [exact H | reflexivity].
  - rewrite foldl_app. cbn [foldl].
    assert (Hskip : Spec.row_names k tds = false ->
                    foldl stats_step m rows !! k = Some st ->
                    (m !! k = Some st
                     /\ existsb (Spec.row_names k) (rows ++ [tds]) = false)
                    \/ exists pre c0 c1 c2 post,
                         rows ++ [tds] = pre ++ [c0; c1; c2] :: post
                         /\ _match_key (_normalize c0) = Some k
                         /\ st = Stat (_parse_int (Some c1)) (_parse_int (Some c2))
                         /\ existsb (Spec.row_names k) post = false).
    { intros Hn H.
      destruct (IH m H) as [[Hm Hr] | (pre & c0 & c1 & c2 & post & -> & Hk & Hst & Hp)].
      - left. split; [exact Hm |].
        rewrite existsb_app, Hr. cbn [existsb orb]. rewrite Hn. reflexivity.
      - right. exists pre, c0, c1, c2, (post ++ [tds]).
        split; [rewrite <- app_assoc; reflexivity |].
        split; [exact Hk |]. split; [exact Hst |].
        rewrite existsb_app, Hp. cbn [existsb orb]. rewrite Hn. reflexivity. }
    unfold stats_step at 1.
    destruct tds as [| c0 [| c1 [| c2 [| c3 tds]]]]; try (apply Hskip; reflexivity).
    destruct (_match_key (_normalize c0)) as [key |] eqn:E.
    + destruct (decide (key = k)) as [-> | Hne].
      * rewrite lookup_insert_eq. intros [= <-]. right.
        exists rows, c0, c1, c2, []. repeat split. exact E.
      * rewrite lookup_insert_ne by exact Hne. apply Hskip.
        unfold Spec.row_names. rewrite E. apply bool_decide_eq_false. congruence.
    + apply Hskip. unfold Spec.row_names. rewrite E. reflexivity.
Qed.

(** X17: every entry of the returned stats was read from a three-cell row
    after the header row whose label [_match_key] maps to the entry's
    key, its two numbers parsed by [_parse_int]; when several rows name
    the key, the last one is the one kept. *)
Theorem stats_entry_from_last_row
    (trs : list (list str)) (stats : gmap str stat) (k : str) (st : stat) :
  stats_of_table trs = Return stats ->
  stats !! k = Some st ->
  exists pre c0 c1 c2 post,
    drop 1 trs = pre ++ [c0; c1; c2] :: post
    /\ _match_key (_normalize c0) = Some k
    /\ st = Stat (_parse_int (Some c1)) (_parse_int (Some c2))
    /\ existsb (Spec.row_names k) post = false.
Proof.
  unfold stats_of_table.
  destruct (filter _ (sorted required)) as [| k0 ks]; [| discriminate].
  intros [= <-] H.
  destruct (stats_loop_last_row _ _ _ _ H) as [[Hm _] | Hrow]; [| exact Hrow].
  rewrite lookup_empty in Hm. discriminate.
Qed.

Lemma stats_entry_from_last_row_witness :
  exists pre c0 c1 c2 post,
    drop 1 STATS_SIX_ROWS = pre ++ [c0; c1; c2] :: post
    /\ _match_key (_normalize c0) = Some (u "total_days")
    /\ Stat (Some 404) (Some 953) = Stat (_parse_int (Some c1)) (_parse_int (Some c2))
    /\ existsb (Spec.row_names (u "total_days")) post = false.
Proof.
  apply (stats_entry_from_last_row STATS_SIX_ROWS
           (foldl stats_step ∅ (drop 1 STATS_SIX_ROWS))).
  - vm_compute. reflexivity.
  - vm_compute. reflexivity.
Defined.

Lemma index_loop_first (urls : list str) :
  forall last_error v url,
    index_loop page visible_text urls last_error = Return (v, url)
    <-> exists pre post,
          urls = pre ++ url :: post
          /\ source_result page visible_text url = Return v
          /\ Forall (source_fails page visible_text) pre.
Proof.
  induction urls as [| url0 urls IH]; intros last_error v url; cbn [index_loop].
  - split; [discriminate |]. intros (pre & post & H & _). destruct pre; discriminate.
  - assert (Hfail : forall e e',
               source_result page visible_text url0 = Raise e' ->
               index_loop page visible_text urls e = Return (v, url)
               <-> exists pre post,
                     url0 :: urls = pre ++ url :: post
                     /\ source_result page visible_text url = Return v
                     /\ Forall (source_fails page visible_text) pre).
    { intros e e' Hsrc. rewrite IH. split.
      - intros (pre & post & -> & Hres & Hall). exists (url0 :: pre), post.
        split; [reflexivity |]. split; [exact Hres |].
        apply Forall_cons. split; [exists e'; exact Hsrc | exact Hall].
      - intros (pre & post & Heq & Hres & Hall). destruct pre as [| p pre].
        + simpl in Heq. injection Heq as <- _. rewrite Hsrc in Hres. discriminate.
        + simpl in Heq. injection Heq as <- ->. apply Forall_cons in Hall as [_ Hall].
          exists pre, post. split; [reflexivity |]. split; [exact Hres | exact Hall]. }
    pose proof Hfail as Hf. unfold source_result at 1 in Hf.
    destruct (page url0) as [html | e] eqn:Hp; [| apply (Hf _ e eq_refl)].
    destruct (_extract_index_heuristic (visible_text html)) as [value | e] eqn:He;
      [| apply (Hf _ e eq_refl)].
    assert (Hsrc : source_result page visible_text url0 = Return value).
    { unfold source_result. rewrite Hp. exact He. }
    split.
    + intros [= <- <-]. exists [], urls. split; [reflexivity |].
      split; [exact Hsrc | constructor].
    + intros (pre & post & Heq & Hres & Hall). destruct pre as [| p pre].
      * simpl in Heq. injection Heq as <- _. rewrite Hsrc in Hres.
        injection Hres as <-. reflexivity.
      * simpl in Heq. injection Heq as <- _. apply Forall_cons in Hall as [[e' He'] _].
        rewrite Hsrc in He'. discriminate.
Qed.

(** X18: [fetch_altseason_index] answers with the index of the first
    source URL, in the order of [ALTSEASON_URLS], whose page is
    downloaded and yields an index; every URL before it failed. *)
Theorem fetch_altseason_index_first_source (v : Z) (url : str) :
  fetch_altseason_index page visible_text = Return (v, url)
  <-> exists pre post,
        ALTSEASON_URLS = pre ++ url :: post
        /\ source_result page visible_text url = Return v
        /\ Forall (source_fails page visible_text) pre.
Proof. apply index_loop_first. Qed.

Lemma index_loop_all_fail (urls : list str) :
  forall last_error,
    Forall (source_fails page visible_text) urls ->
    exists e,
      index_loop page visible_text urls last_error
      = Raise (INDEX_ERROR_PREFIX ++ or_else e UNKNOWN_ERROR)
      /\ match last urls with
         | Some url =>
           exists e', e = Some e' /\ source_result page visible_text url = Raise e'
         | None => e = last_error
         end.
Proof.
  induction urls as [| url0 urls IH]; intros last_error Hall; cbn [index_loop].
  - exists last_error. unfold INDEX_ERROR_PREFIX, UNKNOWN_ERROR. split; reflexivity.
  - apply Forall_cons in Hall as [[e0 He0] Hall].
    assert (Hnext : match page url0 with
                    | Raise e => index_loop page visible_text urls (Some e)
                    | Return html =>
                      match _extract_index_heuristic (visible_text html) with
                      | Raise e => index_loop page visible_text urls (Some e)
                      | Return value => Return (value, url0)
                      end
                    end
                    = index_loop page visible_text urls (Some e0)).
    { unfold source_result in He0. destruct (page url0) as [html | e].
      - rewrite He0. reflexivity.
      - injection He0 as ->. reflexivity. }
    rewrite Hnext. destruct (IH (Some e0) Hall) as (e & Hres & Hlast).
    exists e. split; [exact Hres |].
    destruct urls as [| url1 urls].
    + simpl in Hlast. subst e. simpl. exists e0. split; [reflexivity | exact He0].
    + change (last (url0 :: url1 :: urls)) with (last (url1 :: urls)).
      destruct (last (url1 :: urls)) eqn:El; [exact Hlast |].
      apply last_None in El. discriminate El.
Qed.

(** X19: when every source URL fails, [fetch_altseason_index] raises an
    error that carries the message of the failure of the last URL only
    (or the words for an unknown error when that message is empty). *)
Theorem fetch_altseason_index_last_error :
  Forall (source_fails page visible_text) ALTSEASON_URLS ->
  exists url e,
    last ALTSEASON_URLS = Some url
    /\ source_result page visible_text url = Raise e
    /\ fetch_altseason_index page visible_text
       = Raise (INDEX_ERROR_PREFIX ++ or_else (Some e) UNKNOWN_ERROR).
Proof.
  intros Hall. unfold fetch_altseason_index.
  destruct (index_loop_all_fail ALTSEASON_URLS None Hall) as (e & Hres & Hlast).
  assert (El : exists url, last ALTSEASON_URLS = Some url).
  { eexists. unfold ALTSEASON_URLS. reflexivity. }
  destruct El as [url El]. rewrite El in Hlast.
  destruct Hlast as (e' & -> & Hsrc).
  exists url, e'. split; [exact El |]. split; [exact Hsrc | exact Hres].
Qed.

End MoreAltseason.

Lemma fetch_altseason_index_last_error_witness :
  exists url e,
    last Altseason.ALTSEASON_URLS = Some url
    /\ SpecX.source_result (fun url => Raise url) (fun html => html) url = Raise e
    /\ Altseason.fetch_altseason_index (fun url => Raise url) (fun html => html)
       = Raise (SpecX.INDEX_ERROR_PREFIX ++ or_else (Some e) SpecX.UNKNOWN_ERROR).
Proof.
  apply (fetch_altseason_index_last_error (fun url => Raise url) (fun html => html)).
  repeat constructor; eexists; reflexivity.
Defined.

Section MoreAltseasonStats.
Import Altseason SpecX.

Variable page : str -> exc str.
Variable locate_table : str -> option (list (list str)).

Lemma first_page_first (urls : list str) :
  forall last_err pre url post html,
    urls = pre ++ url :: post ->
    Forall (page_fails page) pre ->
    page url = Return html ->
    first_page page urls last_err = inl html.
Proof.
  induction urls as [| url0 urls IH]; intros last_err pre url post html Heq Hpre Hp.
  - destruct pre; discriminate Heq.
  - cbn [first_page]. destruct pre as [| p pre]; simpl in Heq; injection Heq as -> ->.
    + rewrite Hp. reflexivity.
    + apply Forall_cons in Hpre as [[e He] Hpre]. rewrite He.
      apply (IH _ pre url post html eq_refl Hpre Hp).
Qed.

(** X26: [fetch_altseason_stats] reads the first source URL whose page
    is downloaded and no other: its answer is that of this page alone,
    so a page without the table ends the fetch with the error of the
    missing table, whatever the pages of the later URLs hold. *)
Theorem fetch_altseason_stats_first_page (pre post : list str) (url html : str) :
  ALTSEASON_URLS = pre ++ url :: post ->
  Forall (page_fails page) pre ->
  page url = Return html ->
  fetch_altseason_stats page locate_table
  = match locate_table html with
    | None => Raise TABLE_NOT_FOUND
    | Some trs => stats_of_table trs
    end.
Proof.
  intros Heq Hpre Hp. unfold fetch_altseason_stats, TABLE_NOT_FOUND.
  rewrite (first_page_first _ None pre url post html Heq Hpre Hp). reflexivity.
Qed.

End MoreAltseasonStats.

Lemma fetch_altseason_stats_first_page_witness :
  Altseason.fetch_altseason_stats
    (fun url => if str_eqb url (u "https://www.blockchaincenter.net/en/altcoin-season-index/")
                then Raise (u "timeout") else Return url)
    (fun html => if str_eqb html (u "https://www.blockchaincenter.net/altcoin-season-index/")
                 then Some SpecX.STATS_SIX_ROWS else None)
  = Raise SpecX.TABLE_NOT_FOUND.
Proof.
  apply (fetch_altseason_stats_first_page
           (fun url => if str_eqb url (u "https://www.blockchaincenter.net/en/altcoin-season-index/")
                       then Raise (u "timeout") else Return url)
           (fun html => if str_eqb html (u "https://www.blockchaincenter.net/altcoin-season-index/")
                        then Some SpecX.STATS_SIX_ROWS else None)
           [u "https://www.blockchaincenter.net/en/altcoin-season-index/"]
           [u "https://www.blockchaincenter.net/altcoin-season-index/"]
           (u "https://www.blockchaincenter.net/ru/altcoin-season-index/")
           (u "https://www.blockchaincenter.net/ru/altcoin-season-index/")).
  - vm_compute. reflexivity.
  - apply Forall_cons. split; [exists (u "timeout"); vm_compute; reflexivity | constructor].
  - vm_compute. reflexivity.
Defined.
(** ** Texts without digits *)

Section MoreRegex.
Import SpecX.

Lemma no_digit_tail (x : N) (t : str) : no_digit (x :: t) -> no_digit t.
Proof. intros H. apply Forall_cons in H as [_ H]. exact H. Qed.

Lemma no_digit_check (s : str) :
  forallb (fun c => negb (isdigit c)) s = true -> no_digit s.
Proof.
  induction s as [| c s IH]; cbn [forallb]; intros H; [constructor |].
  apply andb_true_iff in H as [Hc Hs]. apply Forall_cons.
  split; [apply negb_true_iff, Hc | apply IH, Hs].
Qed.

Section Engine.

(** A property of the text that is left which every step of the matcher
    keeps. *)
Variable Q : str -> Prop.
Hypothesis Q_tail : forall x t, Q (x :: t) -> Q t.

(** A continuation that fails wherever [Q] holds makes every pattern
    fail there: the matcher never answers without its continuation. *)
Lemma exec_fails (r : regex) :
  forall c g k,
    Q (rest c) ->
    (forall c' g', Q (rest c') -> k c' g' = None) ->
    exec r c g k = None.
Proof.
  induction r as [| p | r1 IH1 r2 IH2 | r1 IH1 r2 IH2 | lo hi r1 IH1 | i r1 IH1 | | | p | p];
    intros c g k Hc Hk.
  - apply Hk, Hc.
  - cbn [exec]. destruct (rest c) as [| x t] eqn:E; [reflexivity |].
    destruct (p x); [| reflexivity].
    apply Hk. cbn [rest]. apply (Q_tail x), Hc.
  - cbn [exec]. apply IH1; [exact Hc |]. intros c' g' Hc'. apply IH2; assumption.
  - cbn [exec]. rewrite (IH1 c g k Hc Hk). apply IH2; assumption.
  - assert (Hloop : forall fuel n c0 g0,
               Q (rest c0) ->
               (fix loop (fuel n : nat) (c : cursor) (g : caps) {struct fuel} :
                  option (cursor * caps) :=
                  let leave := if (lo <=? n)%nat then k c g else None in
                  match fuel with
                  | O => leave
                  | S fuel' =>
                    if below hi n then
                      match exec r1 c g (fun c' g' =>
                              if (pos c' =? pos c)%nat then None
                              else loop fuel' (S n) c' g') with
                      | Some m => Some m
                      | None => leave
                      end
                    else leave
                  end) fuel n c0 g0 = None).
    { induction fuel as [| fuel IHf]; intros n c0 g0 Hc0; cbv zeta.
      - destruct (lo <=? n)%nat; [apply Hk, Hc0 | reflexivity].
      - destruct (below hi n).
        + rewrite IH1.
          * destruct (lo <=? n)%nat; [apply Hk, Hc0 | reflexivity].
          * exact Hc0.
          * intros c' g' Hc'. destruct (pos c' =? pos c0)%nat; [reflexivity |].
            apply IHf, Hc'.
        + destruct (lo <=? n)%nat; [apply Hk, Hc0 | reflexivity]. }
    exact (Hloop (S (length (rest c))) 0%nat c g Hc).
  - cbn [exec]. apply IH1; [exact Hc |]. intros c' g' Hc'. apply Hk, Hc'.
  - cbn [exec]. destruct (pos c =? 0)%nat; [apply Hk, Hc | reflexivity].
  - cbn [exec]. destruct (rest c) as [| x [| y t]] eqn:E; [| | reflexivity].
    + apply Hk. rewrite E. exact Hc.
    + destruct (x =? 10)%N; [| reflexivity]. apply Hk. rewrite E. exact Hc.
  - cbn [exec]. destruct (prev c) as [x |]; [| apply Hk, Hc].
    destruct (p x); [reflexivity | apply Hk, Hc].
  - cbn [exec]. destruct (rest c) as [| x t] eqn:E.
    + apply Hk. rewrite E. exact Hc.
    + destruct (p x); [reflexivity |]. apply Hk. rewrite E. exact Hc.
Qed.

Lemma search_from_fails (r : regex) :
  (forall c, Q (rest c) -> match_at r c = None) ->
  forall s p pv, Q s -> search_from r p pv s = None.
Proof.
  intros Hr. induction s as [| x s IH]; intros p pv Hs; cbn [search_from].
  - rewrite Hr by exact Hs. reflexivity.
  - rewrite Hr by exact Hs. apply IH, (Q_tail x), Hs.
Qed.

End Engine.

Lemma exec_digits_fail (lo : nat) (hi : option nat) (c : cursor) (g : caps)
    (k : cursor -> caps -> option (cursor * caps)) :
  no_digit (rest c) -> exec (Rep (S lo) hi digit) c g k = None.
Proof.
  intros Hc. unfold digit. cbn [exec]. cbn [Nat.leb].
  destruct (below hi 0); [| reflexivity].
  destruct (rest c) as [| x t]; [reflexivity |].
  apply Forall_cons in Hc as [Hx _]. rewrite Hx. reflexivity.
Qed.

Lemma fails_cat (r1 r2 : regex) (c : cursor) (g : caps)
    (k : cursor -> caps -> option (cursor * caps)) :
  exec r1 c g (fun c' g' => exec r2 c' g' k) = None -> exec (Cat r1 r2) c g k = None.
Proof. intros H. exact H. Qed.

Lemma fails_grp (i : nat) (r : regex) (c : cursor) (g : caps)
    (k : cursor -> caps -> option (cursor * caps)) :
  exec r c g (fun c' g' => k c' ((i, (pos c, pos c')) :: g')) = None ->
  exec (Grp i r) c g k = None.
Proof. intros H. exact H. Qed.

(** A pattern in which a run of at least one digit must follow whatever
    comes first fails on a text without digits. *)
Ltac exec_none :=
  cbv beta;
  lazymatch goal with
  | |- exec (Cat _ _) _ _ _ = None => apply fails_cat; exec_none
  | |- exec (Grp _ _) _ _ _ = None => apply fails_grp; exec_none
  | |- exec (Rep (S _) _ digit) _ _ _ = None => apply exec_digits_fail; assumption
  | |- exec _ _ _ _ = None =>
    apply (exec_fails no_digit no_digit_tail); [assumption | intros ? ? ?; exec_none]
  end.

Lemma re_number_fails (c : cursor) :
  no_digit (rest c) -> match_at Altseason.RE_NUMBER c = None.
Proof.
  intros Hc. unfold match_at.
  assert (H : exec Altseason.RE_NUMBER c [] (fun c' g' => Some (c', g')) = None);
    [| rewrite H; reflexivity].
  unfold Altseason.RE_NUMBER. cbn [cat_all]. exec_none.
Qed.

Lemma re_index_fails (c : cursor) :
  no_digit (rest c) -> match_at Altseason.RE_INDEX c = None.
Proof.
  intros Hc. unfold match_at.
  assert (H : exec Altseason.RE_INDEX c [] (fun c' g' => Some (c', g')) = None);
    [| rewrite H; reflexivity].
  unfold Altseason.RE_INDEX. cbn [cat_all]. exec_none.
Qed.

Lemma re_num_fails (c : cursor) :
  no_digit (rest c) -> match_at Generic.RE_NUM c = None.
Proof.
  intros Hc. unfold match_at.
  assert (H : exec Generic.RE_NUM c [] (fun c' g' => Some (c', g')) = None);
    [| rewrite H; reflexivity].
  unfold Generic.RE_NUM, Generic.RE_NUM_CORE. cbn [cat_all]. exec_none.
Qed.

(** X20: a page text without any decimal digit has no index: the direct
    pattern finds nothing, no number is collected, and
    [_extract_index_heuristic] raises its error whatever the anchors. *)
Theorem extract_index_needs_digit (text : str) :
  no_digit text ->
  Altseason._find_numbers_0_100 text = []
  /\ Altseason._extract_index_heuristic text = Raise NO_NUMBERS.
Proof.
  intros Ht.
  assert (Hs : search Altseason.RE_INDEX text = None).
  { apply (search_from_fails no_digit no_digit_tail _ re_index_fails), Ht. }
  assert (Hf : Altseason._find_numbers_0_100 text = []).
  { unfold Altseason._find_numbers_0_100, finditer. cbn [finditer_from start_of pos prev rest].
    rewrite (search_from_fails no_digit no_digit_tail _ re_number_fails) by exact Ht.
    reflexivity. }
  split; [exact Hf |].
  unfold Altseason._extract_index_heuristic, NO_NUMBERS. rewrite Hs, Hf.
  cbv beta iota zeta. reflexivity.
Qed.

Lemma extract_index_needs_digit_witness :
  Altseason._find_numbers_0_100 (u "Altcoin Season Index: n/a") = []
  /\ Altseason._extract_index_heuristic (u "Altcoin Season Index: n/a") = Raise NO_NUMBERS.
Proof.
  apply (extract_index_needs_digit (u "Altcoin Season Index: n/a")).
  apply no_digit_check. vm_compute. reflexivity.
Defined.

Lemma replace_fuel_Forall (P : N -> Prop) (old new : str) :
  Forall P new ->
  forall fuel s, Forall P s -> Forall P (replace_fuel fuel old new s).
Proof.
  intros Hn. induction fuel as [| fuel IH]; intros s Hs; cbn [replace_fuel]; [exact Hs |].
  destruct s as [| c s']; [constructor |].
  destruct (startswith (c :: s') old).
  - apply Forall_app. split; [exact Hn |]. apply IH, Forall_drop, Hs.
  - apply Forall_cons in Hs as [Hc Hs]. apply Forall_cons. split; [exact Hc | apply IH, Hs].
Qed.

Lemma lstrip_by_Forall (P : N -> Prop) (p : N -> bool) (s : str) :
  Forall P s -> Forall P (lstrip_by p s).
Proof.
  induction s as [| c s IH]; intros Hs; cbn [lstrip_by]; [constructor |].
  destruct (p c); [| exact Hs]. apply Forall_cons in Hs as [_ Hs]. apply IH, Hs.
Qed.

Lemma strip_by_Forall (P : N -> Prop) (p : N -> bool) (s : str) :
  Forall P s -> Forall P (strip_by p s).
Proof.
  intros Hs. unfold strip_by, rstrip_by.
  apply Forall_rev, lstrip_by_Forall, Forall_rev, lstrip_by_Forall, Hs.
Qed.

Lemma normalize_spaces_no_digit (s : str) :
  no_digit s -> no_digit (Generic._normalize_spaces s).
Proof.
  intros Hs. unfold Generic._normalize_spaces, strip, replace.
  apply strip_by_Forall.
  apply replace_fuel_Forall; [repeat constructor |].
  apply replace_fuel_Forall; [repeat constructor | exact Hs].
Qed.

(** X21: a cell text without any decimal digit has neither a value nor a
    unit: [_to_scalar] answers [(None, None)], whatever unit words the
    text holds. *)
Theorem to_scalar_needs_digit (txt : str) :
  no_digit txt -> Generic._to_scalar txt = (None, None).
Proof.
  intros Ht. unfold Generic._to_scalar. destruct txt as [| c txt]; [reflexivity |].
  cbv zeta.
  destruct (existsb _ Generic.no_data_tokens); [reflexivity |].
  assert (Hs : search Generic.RE_NUM (Generic._normalize_spaces (c :: txt)) = None).
  { apply (search_from_fails no_digit no_digit_tail _ re_num_fails).
    apply normalize_spaces_no_digit, Ht. }
  rewrite Hs. reflexivity.
Qed.

Lemma to_scalar_needs_digit_witness :
  Generic._to_scalar (u "млн % (n/a)") = (None, None).
Proof.
  apply (to_scalar_needs_digit (u "млн % (n/a)")).
  apply no_digit_check. vm_compute. reflexivity.
Defined.

End MoreRegex.
(** ** Schedule times *)

Section MoreSchedule.
Import Schedule.

Lemma digit_val_in_range (zs : list N) (c : N) (d : Z) :
  digit_val_in zs c = Some d -> 0 <= d <= 9.
Proof.
  induction zs as [| z zs IH]; cbn [digit_val_in]; [discriminate |].
  destruct ((z <=? c) && (c <=? z + 9))%N eqn:E; [| exact IH].
  apply andb_true_iff in E as [E1 E2]. apply N.leb_le in E1, E2.
  intros [= <-]. lia.
Qed.

Lemma isdigit_val (c : N) :
  isdigit c = true -> exists d, digit_val c = Some d /\ 0 <= d <= 9.
Proof.
  unfold isdigit. destruct (digit_val c) as [d |] eqn:E; [| discriminate].
  intros _. exists d. split; [reflexivity | apply (digit_val_in_range _ _ _ E)].
Qed.

Lemma digit_val_ascii (c : N) :
  (48 <= c <= 57)%N -> digit_val c = Some (Z.of_N c - 48).
Proof.
  intros Hc. unfold digit_val, digit_zeros. cbn [digit_val_in].
  destruct ((48 <=? c) && (c <=? 48 + 9))%N eqn:E.
  - f_equal. lia.
  - apply andb_false_iff in E as [E | E]; apply N.leb_gt in E; lia.
Qed.

Lemma isspace_cases (c : N) :
  isspace c = true ->
  c ∈ [9; 10; 11; 12; 13; 28; 29; 30; 31; 32; 133; 160; 5760; 8192; 8193; 8194; 8195;
       8196; 8197; 8198; 8199; 8200; 8201; 8202; 8232; 8233; 8239; 8287; 12288]%N.
Proof.
  unfold isspace. rewrite !orb_true_iff, !andb_true_iff, !N.leb_le, !N.eqb_eq.
  intros H.
  assert (Hc : (c = 9 \/ c = 10 \/ c = 11 \/ c = 12 \/ c = 13 \/ c = 28 \/ c = 29
                \/ c = 30 \/ c = 31 \/ c = 32 \/ c = 133 \/ c = 160 \/ c = 5760
                \/ c = 8192 \/ c = 8193 \/ c = 8194 \/ c = 8195 \/ c = 8196
                \/ c = 8197 \/ c = 8198 \/ c = 8199 \/ c = 8200 \/ c = 8201
                \/ c = 8202 \/ c = 8232 \/ c = 8233 \/ c = 8239 \/ c = 8287
                \/ c = 12288)%N) by lia.
  rewrite !elem_of_cons.
  repeat (destruct Hc as [Hc | Hc]; [tauto |]). tauto.
Qed.

Lemma isdigit_not_space (c : N) : isdigit c = true -> isspace c = false.
Proof.
  intros Hd. destruct (isspace c) eqn:E; [| reflexivity].
  apply isspace_cases in E. revert Hd. revert c E.
  apply (proj1 (Forall_forall (fun c => isdigit c = true -> true = false) _)).
  repeat (apply Forall_cons; split; [vm_compute; discriminate |]). constructor.
Qed.

Lemma isdigit_not_sign (c : N) :
  isdigit c = true -> (c =? 45)%N = false /\ (c =? 43)%N = false.
Proof.
  intros Hd. split; apply N.eqb_neq; intros ->; vm_compute in Hd; discriminate Hd.
Qed.

Lemma digit_val_isdigit (c : N) (d : Z) : digit_val c = Some d -> isdigit c = true.
Proof. unfold isdigit. intros ->. reflexivity. Qed.

Lemma int_of_one (a : N) (x : Z) : digit_val a = Some x -> int_of_str [a] = Some x.
Proof.
  intros Ha. pose proof (digit_val_isdigit _ _ Ha) as Da.
  pose proof (isdigit_not_space _ Da) as Sa. destruct (isdigit_not_sign _ Da) as [Ma Pa].
  unfold int_of_str, strip, strip_by, rstrip_by. cbn [lstrip_by rev app].
  rewrite Sa. cbn [lstrip_by rev app]. rewrite Sa. cbn [rev app].
  rewrite Ma, Pa. cbn [digits_val]. rewrite Ha. f_equal; lia.
Qed.

Lemma int_of_two (a b : N) (x y : Z) :
  digit_val a = Some x -> digit_val b = Some y -> int_of_str [a; b] = Some (10 * x + y).
Proof.
  intros Ha Hb. pose proof (digit_val_isdigit _ _ Ha) as Da.
  pose proof (digit_val_isdigit _ _ Hb) as Db.
  pose proof (isdigit_not_space _ Da) as Sa. pose proof (isdigit_not_space _ Db) as Sb.
  destruct (isdigit_not_sign _ Da) as [Ma Pa].
  unfold int_of_str, strip, strip_by, rstrip_by. cbn [lstrip_by rev app].
  rewrite Sa. cbn [lstrip_by rev app]. rewrite Sb. cbn [rev app].
  rewrite Ma, Pa. cbn [digits_val]. rewrite Ha, Hb. f_equal; lia.
Qed.


Lemma mem_01 (c : N) : mem_cp [48; 49]%N c = true -> (48 <= c <= 49)%N.
Proof.
  unfold mem_cp. cbn [existsb]. rewrite !orb_true_iff, !N.eqb_eq. lia.
Qed.

Lemma in_range_bounds (lo hi c : N) :
  ((lo <=? c) && (c <=? hi))%N = true -> (lo <= c <= hi)%N.
Proof. rewrite andb_true_iff, !N.leb_le. tauto. Qed.

(** Turns the tests a successful match passed into the values of the
    digits. *)
Ltac digit_facts :=
  repeat match goal with
         | H : mem_cp [48; 49]%N ?c = true |- _ =>
           apply mem_01 in H;
           pose proof (digit_val_ascii c ltac:(lia))
         | H : ((_ <=? ?c) && (?c <=? _))%N = true |- _ =>
           apply in_range_bounds in H;
           pose proof (digit_val_ascii c ltac:(lia))
         | H : (50 =? ?c)%N = true |- _ =>
           apply N.eqb_eq in H; subst c;
           pose proof (digit_val_ascii 50 ltac:(lia))
         | H : isdigit ?c = true |- _ =>
           let d := fresh "d" in
           apply isdigit_val in H; destruct H as (d & ? & ?)
         end.

Lemma time_re_groups (t : str) (mt : rmatch) :
  fullmatch _TIME_RE t = Some mt ->
  exists hh mm,
    group t mt 1 ≫= int_of_str = Some hh /\ group t mt 2 ≫= int_of_str = Some mm
    /\ 0 <= hh <= 23 /\ 0 <= mm <= 59.
Proof.
  assert (E01 : u "01" = [48; 49]%N) by (vm_compute; reflexivity).
  unfold fullmatch, _TIME_RE, opt, in_range, chr, one_of, digit. rewrite E01. cbn [cat_all].
  destruct t as [| c0 [| c1 [| c2 [| c3 [| c4 [| c5 [| c6 t]]]]]]];
    cbn -[isdigit mem_cp N.eqb N.leb];
    repeat match goal with
           | |- context [if ?b then _ else _] => destruct b eqn:?
           end; try discriminate.
  all: intros [= <-]; unfold group;
    cbn [m_caps lookup_cap Nat.eqb span drop take Nat.sub mbind option_bind];
    digit_facts.
  all: eexists _, _;
    (split; [first [erewrite int_of_two by eassumption | erewrite int_of_one by eassumption];
             reflexivity |]);
    (split; [first [erewrite int_of_two by eassumption | erewrite int_of_one by eassumption];
             reflexivity |]); lia.
Qed.

(** X22: a time [_parse_hhmm] accepts has an hour in 0..23 and a minute
    in 0..59, and both calls of [int] on the groups of the match
    succeed, whichever decimal digits the text is written with. *)
Theorem parse_hhmm_range (s : str) (hh mm : Z) :
  _parse_hhmm s = Some (hh, mm) ->
  0 <= hh <= 23 /\ 0 <= mm <= 59
  /\ exists mt,
       fullmatch _TIME_RE (strip s) = Some mt
       /\ group (strip s) mt 1 ≫= int_of_str = Some hh
       /\ group (strip s) mt 2 ≫= int_of_str = Some mm.
Proof.
  unfold _parse_hhmm. cbv zeta.
  destruct (fullmatch _TIME_RE (strip s)) as [mt |] eqn:E; [| discriminate].
  destruct (time_re_groups _ _ E) as (h & m & H1 & H2 & Hh & Hm).
  unfold Generic.group_int. rewrite H1, H2. cbn [default].
  intros [= <- <-]. split; [exact Hh |]. split; [exact Hm |].
  exists mt. split; [reflexivity |]. split; [exact H1 | exact H2].
Qed.

Lemma parse_hhmm_range_witness :
  0 <= 9 <= 23 /\ 0 <= 5 <= 59
  /\ exists mt,
       fullmatch _TIME_RE (strip (u " 9:05 ")) = Some mt
       /\ group (strip (u " 9:05 ")) mt 1 ≫= int_of_str = Some 9
       /\ group (strip (u " 9:05 ")) mt 2 ≫= int_of_str = Some 5.
Proof.
  apply (parse_hhmm_range (u " 9:05 ") 9 5). vm_compute. reflexivity.
Defined.

Lemma time_text_checked :
  forallb (fun hh =>
             forallb (fun mm =>
                        match _parse_hhmm (time_text hh mm) with
                        | Some (h, m) => (h =? hh) && (m =? mm)
                        | None => false
                        end)
                     (seqZ 0 60))
          (seqZ 0 24) = true.
Proof. vm_compute. reflexivity. Qed.

(** X23: the text [f"{hh:02d}:{mm:02d}"] under which a parsed time is
    stored is parsed back by [_parse_hhmm] to the same hour and minute,
    for every hour in 0..23 and every minute in 0..59. *)
Theorem parse_hhmm_time_text (hh mm : Z) :
  0 <= hh <= 23 -> 0 <= mm <= 59 ->
  _parse_hhmm (time_text hh mm) = Some (hh, mm).
Proof.
  intros Hh Hm. pose proof time_text_checked as H.
  rewrite forallb_forall in H.
  assert (Ih : In hh (seqZ 0 24)) by (apply list_elem_of_In, elem_of_seqZ; lia).
  specialize (H hh Ih). cbv beta in H. rewrite forallb_forall in H.
  assert (Im : In mm (seqZ 0 60)) by (apply list_elem_of_In, elem_of_seqZ; lia).
  specialize (H mm Im). cbv beta in H.
  destruct (_parse_hhmm (time_text hh mm)) as [[h m] |]; [| discriminate].
  apply andb_true_iff in H as [H1 H2]. apply Z.eqb_eq in H1, H2. subst. reflexivity.
Qed.

Lemma parse_hhmm_time_text_witness :
  _parse_hhmm (time_text 7 30) = Some (7, 30).
Proof. apply (parse_hhmm_time_text 7 30); lia. Defined.

End MoreSchedule.
(** ** Store keys, job ids and the catalog of the menus *)

Section MoreKeys.
Import Schedule Catalog Indicators SpecX.

Lemma digits_fuel_spec (fuel : nat) :
  forall n acc,
    fuel <> 0%nat -> 0 <= n < 2 ^ Z.of_nat fuel ->
    exists ds,
      digits_fuel fuel n acc = ds ++ acc
      /\ ds <> [] /\ Forall (fun c => (48 <= c <= 57)%N) ds /\ digits_value ds = n.
Proof.
  induction fuel as [| fuel IH]; intros n acc Hf Hn; [congruence |].
  cbn [digits_fuel].
  assert (Hm : 0 <= n mod 10 < 10) by (apply Z.mod_pos_bound; lia).
  destruct (n <? 10) eqn:E.
  - apply Z.ltb_lt in E. exists [Z.to_N (48 + n mod 10)].
    split; [reflexivity |]. split; [discriminate |].
    rewrite Z.mod_small in * by lia.
    split; [apply Forall_cons; split; [lia | constructor] |].
    unfold digits_value. cbn [foldl]. lia.
  - apply Z.ltb_ge in E.
    assert (Hd : 1 <= n / 10) by (apply Z.div_le_lower_bound; lia).
    assert (Hu : n / 10 < 2 ^ Z.of_nat fuel).
    { apply Z.div_lt_upper_bound; [lia |].
      rewrite Nat2Z.inj_succ, Z.pow_succ_r in Hn by lia. lia. }
    assert (Hf' : fuel <> 0%nat).
    { intros ->. change (2 ^ Z.of_nat 0) with 1 in Hu. lia. }
    destruct (IH (n / 10) (Z.to_N (48 + n mod 10) :: acc) Hf' ltac:(lia))
      as (ds & -> & _ & Hall & Hv).
    exists (ds ++ [Z.to_N (48 + n mod 10)]).
    split; [rewrite <- app_assoc; reflexivity |].
    split; [intros H; apply app_eq_nil in H as [_ H]; discriminate H |].
    split.
    + apply Forall_app. split; [exact Hall |].
      apply Forall_cons. split; [lia | constructor].
    + unfold digits_value in *. rewrite foldl_app, Hv. cbn [foldl].
      pose proof (Z.div_mod n 10 ltac:(lia)). lia.
Qed.

Lemma str_of_nonneg_spec (n : Z) :
  0 <= n ->
  str_of_nonneg n <> []
  /\ Forall (fun c => (48 <= c <= 57)%N) (str_of_nonneg n)
  /\ digits_value (str_of_nonneg n) = n.
Proof.
  intros Hn. unfold str_of_nonneg.
  destruct (digits_fuel_spec (S (Z.to_nat (Z.log2 n))) n []) as (ds & -> & H).
  - discriminate.
  - split; [exact Hn |]. rewrite Nat2Z.inj_succ, Z2Nat.id by apply Z.log2_nonneg.
    destruct (Z.eq_dec n 0) as [-> | Hne]; [reflexivity |].
    apply Z.log2_spec. lia.
  - rewrite app_nil_r. exact H.
Qed.

Lemma str_of_int_chars (n : Z) : Forall int_char (str_of_int n).
Proof.
  unfold str_of_int. destruct (n <? 0) eqn:E.
  - apply Z.ltb_lt in E. destruct (str_of_nonneg_spec (- n) ltac:(lia)) as (_ & Hall & _).
    apply Forall_cons. split; [left; reflexivity |].
    eapply Forall_impl; [exact Hall |]. intros c Hc. right. exact Hc.
  - apply Z.ltb_ge in E. destruct (str_of_nonneg_spec n E) as (_ & Hall & _).
    eapply Forall_impl; [exact Hall |]. intros c Hc. right. exact Hc.
Qed.

Lemma str_of_int_inj (a b : Z) : str_of_int a = str_of_int b -> a = b.
Proof.
  unfold str_of_int.
  destruct (a <? 0) eqn:Ea, (b <? 0) eqn:Eb;
    try apply Z.ltb_lt in Ea; try apply Z.ltb_ge in Ea;
    try apply Z.ltb_lt in Eb; try apply Z.ltb_ge in Eb.
  - destruct (str_of_nonneg_spec (- a) ltac:(lia)) as (_ & _ & Ha).
    destruct (str_of_nonneg_spec (- b) ltac:(lia)) as (_ & _ & Hb).
    intros [= H]. rewrite H in Ha. lia.
  - destruct (str_of_nonneg_spec b Eb) as (Hne & Hall & _).
    intros H. rewrite <- H in Hall. apply Forall_cons in Hall as [Hc _]. lia.
  - destruct (str_of_nonneg_spec a Ea) as (Hne & Hall & _).
    intros H. rewrite H in Hall. apply Forall_cons in Hall as [Hc _]. lia.
  - destruct (str_of_nonneg_spec a Ea) as (_ & _ & Ha).
    destruct (str_of_nonneg_spec b Eb) as (_ & _ & Hb).
    intros H. rewrite H in Ha. lia.
Qed.

(** The first separator splits a text in one way only. *)
Lemma split_at_separator (sep : N) (l1 : str) :
  forall l2 x y,
    Forall (fun c => c <> sep) l1 -> Forall (fun c => c <> sep) l2 ->
    l1 ++ sep :: x = l2 ++ sep :: y -> l1 = l2 /\ x = y.
Proof.
  induction l1 as [| a l1 IH]; intros [| b l2] x y H1 H2; cbn [app].
  - intros [= <-]. split; reflexivity.
  - intros [= <- _]. apply Forall_cons in H2 as [H2 _]. congruence.
  - intros [= -> _]. apply Forall_cons in H1 as [H1 _]. congruence.
  - intros [= <- H]. apply Forall_cons in H1 as [_ H1]. apply Forall_cons in H2 as [_ H2].
    destruct (IH l2 x y H1 H2 H) as [-> ->]. split; reflexivity.
Qed.

Lemma key_inj (prefix : str) (sep : N) (c c' : Z) (i i' : str) :
  sep <> 45%N -> ~ (48 <= sep <= 57)%N ->
  prefix ++ str_of_int c ++ sep :: i = prefix ++ str_of_int c' ++ sep :: i' ->
  c = c' /\ i = i'.
Proof.
  intros H45 Hd H. apply app_inv_head in H.
  assert (Hs : forall n, Forall (fun ch => ch <> sep) (str_of_int n)).
  { intros n. eapply Forall_impl; [apply str_of_int_chars |].
    intros ch [-> | Hch]; [congruence | intros ->; apply Hd, Hch]. }
  destruct (split_at_separator sep _ _ _ _ (Hs c) (Hs c') H) as [Hc Hi].
  split; [apply str_of_int_inj, Hc | exact Hi].
Qed.

Lemma diverge_app (p q x y : str) : diverge p q = true -> p ++ x <> q ++ y.
Proof.
  revert q. induction p as [| a p IH]; intros [| b q]; cbn [diverge app]; try discriminate.
  intros H [= -> H']. rewrite N.eqb_refl in H. cbn [negb orb] in H.
  apply (IH q H H').
Qed.

(** X24: the job id and each of the three schedule keys of the state
    store determine the chat and the indicator they were built from
    (the chat id is written in decimal digits, which hold neither
    separator), and keys of different kinds are never equal: no two
    schedules share a job or a store entry. *)
Theorem schedule_keys_injective (c c' : Z) (i i' : str) :
  (_job_id c i = _job_id c' i' -> c = c' /\ i = i')
  /\ (_k_enabled c i = _k_enabled c' i' -> c = c' /\ i = i')
  /\ (_k_time c i = _k_time c' i' -> c = c' /\ i = i')
  /\ (_k_days c i = _k_days c' i' -> c = c' /\ i = i')
  /\ _k_enabled c i <> _k_time c' i'
  /\ _k_enabled c i <> _k_days c' i'
  /\ _k_time c i <> _k_days c' i'.
Proof.
  assert (E95 : u "_" = [95%N]) by (vm_compute; reflexivity).
  assert (E58 : u ":" = [58%N]) by (vm_compute; reflexivity).
  unfold _job_id, _k_enabled, _k_time, _k_days. rewrite E95, E58. cbn [app].
  repeat (split; [first [apply key_inj; lia
                        | apply diverge_app; vm_compute; reflexivity] |]).
  apply diverge_app; vm_compute; reflexivity.
Qed.

Lemma schedule_keys_injective_witness :
  _k_enabled (-1001) (u "CPI") <> _k_time (-1001) (u "CPI").
Proof. apply (schedule_keys_injective (-1001) (-1001) (u "CPI") (u "CPI")). Defined.

Section CatalogWithAltseason.

Variable md5_hexdigest : str -> str.

Lemma foldl_insert_other (customs : list custom) (k : str) :
  Forall (fun ci => ci_key ci <> k) customs ->
  get_indicators customs !! k = PRESET_INDICATORS !! k.
Proof.
  unfold get_indicators. generalize PRESET_INDICATORS as m.
  induction customs as [| ci customs IH]; intros m Hall; cbn [foldl]; [reflexivity |].
  apply Forall_cons in Hall as [Hne Hall].
  rewrite (IH _ Hall). apply lookup_insert_ne. exact Hne.
Qed.

(** X25: when the keys of the stored custom indicators were built by
    [_make_key], the catalog has no ALTSEASON entry of its own, so the
    synthetic entry [get_indicators_with_altseason] adds replaces
    nothing, and every other key keeps its indicator. *)
Theorem altseason_entry_is_new (customs : list custom) :
  Forall (fun ci => exists chat_id title,
                      ci_key ci = Storage._make_key md5_hexdigest chat_id title) customs ->
  get_indicators customs !! ALTSEASON_KEY = None
  /\ get_indicators_with_altseason customs !! ALTSEASON_KEY
     = Some (MkIndicator ALTSEASON_TITLE ALTSEASON_URL RuleNone)
  /\ forall k, k <> ALTSEASON_KEY ->
       get_indicators_with_altseason customs !! k = get_indicators customs !! k.
Proof.
  intros Hkeys. split; [| split].
  - rewrite foldl_insert_other; [vm_compute; reflexivity |].
    apply Forall_forall. intros ci Hci Heq.
    rewrite Forall_forall in Hkeys. destruct (Hkeys ci Hci) as (chat_id & title & Hmk).
    assert (Hp : startswith (ci_key ci) CUSTOM_PREFIX = true).
    { rewrite Hmk. unfold Storage._make_key. apply (startswith_app CUSTOM_PREFIX). }
    rewrite Heq in Hp. vm_compute in Hp. discriminate Hp.
  - unfold get_indicators_with_altseason. apply lookup_insert_eq.
  - intros k Hne. unfold get_indicators_with_altseason.
    apply lookup_insert_ne. congruence.
Qed.

End CatalogWithAltseason.

End MoreKeys.

Lemma altseason_entry_is_new_witness :
  Indicators.get_indicators
    [ Indicators.Custom
        (Storage._make_key (fun _ => u "0123456789abcdef0123456789abcdef") 42 (u "ALTSEASON"))
        (u "ALTSEASON") (u "https://example.org") None ]
    !! Catalog.ALTSEASON_KEY
  = None.
Proof.
  apply (altseason_entry_is_new (fun _ => u "0123456789abcdef0123456789abcdef")).
  apply Forall_cons. split; [exists 42, (u "ALTSEASON"); reflexivity | constructor].
Defined.
(** ** The lines of the text table *)

Section MoreTableText.
Import Generic TextTable SpecX.

Lemma no_newline_check (s : str) :
  forallb (fun c => negb (c =? 10)%N) s = true -> no_newline s.
Proof.
  induction s as [| c s IH]; cbn [forallb]; intros H; [constructor |].
  apply andb_true_iff in H as [Hc Hs]. apply Forall_cons.
  split; [apply N.eqb_neq, negb_true_iff, Hc | apply IH, Hs].
Qed.

Lemma split_on_line (x : str) : no_newline x -> split_on 10 x = [x].
Proof.
  unfold split_on. induction x as [| c x IH]; intros Hx; [reflexivity |].
  apply Forall_cons in Hx as [Hc Hx]. cbn [foldr]. rewrite (IH Hx).
  apply N.eqb_neq in Hc. rewrite Hc. reflexivity.
Qed.

Lemma split_on_first (x s : str) :
  no_newline x -> split_on 10 (x ++ NL ++ s) = x :: split_on 10 s.
Proof.
  unfold split_on, NL. induction x as [| c x IH]; intros Hx; [reflexivity |].
  apply Forall_cons in Hx as [Hc Hx]. cbn [app foldr] in *. rewrite (IH Hx).
  apply N.eqb_neq in Hc. rewrite Hc. reflexivity.
Qed.

(** Joining lines that hold no newline and splitting the text again
    gives the lines back. *)
Lemma split_on_join (ls : list str) :
  ls <> [] -> Forall no_newline ls -> split_on 10 (join NL ls) = ls.
Proof.
  induction ls as [| x ls IH]; intros Hne Hall; [congruence |].
  apply Forall_cons in Hall as [Hx Hall].
  destruct ls as [| y ls]; cbn [join].
  - apply split_on_line, Hx.
  - rewrite (split_on_first _ _ Hx). f_equal. apply IH; [discriminate | exact Hall].
Qed.

Lemma rstrip_by_Forall (P : N -> Prop) (p : N -> bool) (s : str) :
  Forall P s -> Forall P (rstrip_by p s).
Proof.
  intros Hs. unfold rstrip_by. apply Forall_rev, lstrip_by_Forall, Forall_rev, Hs.
Qed.

Lemma slice_to_Forall {A} (P : A -> Prop) (l : list A) (n : Z) :
  Forall P l -> Forall P (slice_to l n).
Proof. intros Hl. unfold slice_to. destruct (n <? 0); apply Forall_take, Hl. Qed.

Lemma format_2f_no_newline (x : float) : no_newline (format_2f x).
Proof.
  assert (Hfix : forall neg h, no_newline (fixed2 neg h)).
  { intros neg h. unfold fixed2. apply Forall_app. split.
    - destruct neg; [apply no_newline_check; vm_compute; reflexivity | constructor].
    - apply Forall_app. split.
      + eapply Forall_impl; [apply str_of_int_chars |].
        intros c [-> | Hc]; [discriminate | lia].
      + apply Forall_app. split; [apply no_newline_check; vm_compute; reflexivity |].
        unfold two_digits.
        pose proof (Z.mod_pos_bound h 100 ltac:(lia)) as Hm.
        assert (Hq : 0 <= h mod 100 / 10) by (apply Z.div_pos; lia).
        pose proof (Z.mod_pos_bound (h mod 100) 10 ltac:(lia)) as Hr.
        repeat (apply Forall_cons; split; [lia |]). constructor. }
  unfold format_2f. destruct (Prim2SF x) as [s | s | | s m e]; try apply Hfix.
  - destruct s; apply no_newline_check; vm_compute; reflexivity.
  - apply no_newline_check; vm_compute; reflexivity.
Qed.

(** The text [_fmt_val] gives for a cell never holds a newline. *)
Lemma fmt_val_no_newline (v : option float) (un : option str) :
  no_newline (_fmt_val v un).
Proof.
  assert (Ht : forall x sfx, no_newline sfx -> no_newline (trim_zeros (format_2f x) ++ sfx)).
  { intros x sfx Hs. apply Forall_app. split; [| exact Hs].
    unfold trim_zeros. apply rstrip_by_Forall, rstrip_by_Forall, format_2f_no_newline. }
  unfold _fmt_val. destruct v as [v |]; [| apply no_newline_check; vm_compute; reflexivity].
  cbv zeta.
  repeat match goal with
         | |- context [if ?b then _ else _] => destruct b
         end;
    first [ apply Ht; apply no_newline_check; vm_compute; reflexivity
          | unfold trim_zeros; apply rstrip_by_Forall, rstrip_by_Forall,
              format_2f_no_newline ].
Qed.

Lemma cut_pad_no_newline (s : str) (w : Z) : no_newline s -> no_newline (cut_pad s w).
Proof.
  intros Hs. unfold cut_pad, ljust. cbv zeta. apply Forall_app. split.
  - destruct (w <? Z.of_nat (length (strip s))).
    + apply Forall_app. split.
      * apply slice_to_Forall, strip_by_Forall, Hs.
      * apply no_newline_check. vm_compute. reflexivity.
    + apply strip_by_Forall, Hs.
  - apply Forall_replicate. discriminate.
Qed.

Lemma cells_line_no_newline (c : cells) :
  no_newline (c_date c) -> no_newline (c_time c) -> no_newline (c_act c) ->
  no_newline (c_fc c) -> no_newline (c_pr c) ->
  no_newline (cells_line c).
Proof.
  intros H1 H2 H3 H4 H5.
  assert (HV : no_newline V) by (apply no_newline_check; vm_compute; reflexivity).
  unfold cells_line.
  repeat (apply Forall_app; split; [first [exact HV | apply cut_pad_no_newline; assumption] |]).
  exact HV.
Qed.

Lemma data_row_no_newline (r : row) :
  no_newline (date r) -> no_newline (time r) -> no_newline (cells_line (data_row r)).
Proof.
  intros Hd Ht. apply cells_line_no_newline; cbn [data_row c_date c_time c_act c_fc c_pr];
    first [apply slice_to_Forall; assumption | apply fmt_val_no_newline].
Qed.

Lemma table_lines_no_newline (rows : list row) (max_rows : Z) :
  Forall (fun r => no_newline (date r) /\ no_newline (time r)) (slice_to rows max_rows) ->
  Forall no_newline (table_lines rows max_rows).
Proof.
  intros Hrows. unfold table_lines.
  repeat (apply Forall_cons; split; [apply no_newline_check; vm_compute; reflexivity |]).
  apply Forall_app. split.
  - unfold data_of. destruct (slice_to rows max_rows) as [| r rs].
    + cbn [map]. apply Forall_cons. split; [| constructor].
      apply no_newline_check. vm_compute. reflexivity.
    + change (Forall no_newline (map cells_line (map data_row (r :: rs)))).
      rewrite Forall_forall in Hrows. apply Forall_forall. intros l Hl.
      apply list_elem_of_fmap in Hl as (c & -> & Hc).
      apply list_elem_of_fmap in Hc as (r' & -> & Hr').
      destruct (Hrows r' Hr') as [Hd Ht]. apply data_row_no_newline; assumption.
  - apply Forall_cons. split; [apply no_newline_check; vm_compute; reflexivity | constructor].
Qed.

(** X9: the text [format_table_for_tg] returns is the opening tag, the
    pieces [top, head, mid, *body_lines, bot] joined by newlines, the
    closing tag and the source line. Whatever the rows and the row limit
    there are four pieces more than body lines (one body line per row
    shown, a single line of dashes when no row is shown) and every piece
    has 53 characters. When no date or time text of the rows shown holds
    a newline, no piece does (the formatted values never do), so the
    lines of the table text are exactly these pieces of 53 characters. *)
Theorem format_table_for_tg_lines (rows : list row) (src_url : str) (max_rows : Z) :
  format_table_for_tg rows src_url max_rows
  = u "<pre>" ++ join NL (table_lines rows max_rows) ++ u "</pre>" ++ NL
      ++ footer_line src_url
  /\ Forall (fun l => length l = LINE_WIDTH) (table_lines rows max_rows)
  /\ length (table_lines rows max_rows)
     = (4 + Nat.max 1 (length (slice_to rows max_rows)))%nat
  /\ (Forall (fun r => no_newline (date r) /\ no_newline (time r))
             (slice_to rows max_rows) ->
      Forall (fun l => length l = LINE_WIDTH /\ no_newline l)
             (split_on 10 (join NL (table_lines rows max_rows)))
      /\ length (split_on 10 (join NL (table_lines rows max_rows)))
         = (4 + Nat.max 1 (length (slice_to rows max_rows)))%nat).
Proof.
  destruct (table_lines_widths rows max_rows) as [Hw Hn].
  split; [unfold format_table_for_tg, footer_line; cbv zeta; reflexivity |].
  split; [exact Hw |]. split; [exact Hn |].
  intros Hrows. pose proof (table_lines_no_newline rows max_rows Hrows) as Hnl.
  rewrite split_on_join; [| | exact Hnl].
  - split; [| exact Hn]. rewrite Forall_forall in Hw, Hnl. apply Forall_forall.
    intros l Hl. split; [apply Hw, Hl | apply Hnl, Hl].
  - unfold table_lines. discriminate.
Qed.

End MoreTableText.

Lemma format_table_for_tg_lines_witness :
  Forall (fun l => length l = SpecX.LINE_WIDTH /\ SpecX.no_newline l)
         (SpecX.split_on 10 (join NL (TextTable.table_lines [SpecX.SAMPLE_ROW] 6)))
  /\ length (SpecX.split_on 10 (join NL (TextTable.table_lines [SpecX.SAMPLE_ROW] 6)))
     = (4 + Nat.max 1 (length (slice_to [SpecX.SAMPLE_ROW] 6)))%nat.
Proof.
  apply (format_table_for_tg_lines [SpecX.SAMPLE_ROW] (u "https://www.investing.com") 6).
  apply Forall_cons. split; [| constructor].
  split; apply no_newline_check; vm_compute; reflexivity.
Defined.
